(** * Sudoku engine of AI_Project/AI_suduko.py: board, solver, generator, hints

    A shallow embedding of the algorithmic core of the program (classes
    [SudokuBoard], [SudokuPuzzleGenerator] and [AdvancedSudokuAISolver]) and
    the properties of it that the specification states.

    Modelling conventions.
    - A Python [int] is a [Z]; a grid ([List[List[int]]]) is a [list (list Z)].
      Rows are distinct objects (the program builds its grids with
      [[0] * 9 for _ in range(9)] and copies them with [copy.deepcopy]), so
      an in-place assignment [board[row][col] = v] is the replacement of one
      cell of the value.
    - Indexing follows Python: a negative index counts from the end and an
      index outside the list raises [IndexError].
    - A function that mutates its argument returns the mutated value next
      to its result.
    - Recursion whose depth is bounded by the number of empty cells is
      written with a fuel argument; the entry points pass enough fuel and
      are proved never to exhaust it. *)

From Stdlib Require Import ZArith List Lia Bool.
From stdpp Require Import base option list sets gmap strings pretty.

Local Open Scope Z_scope.

(** ** Outcomes: a value, a raised exception, or exhausted fuel *)

Inductive exn : Type :=
| IndexError.

Inductive outcome (A : Type) : Type :=
| Ret (a : A)
| Raise (e : exn)
| OutOfFuel.

Arguments Ret {A} a.
Arguments Raise {A} e.
Arguments OutOfFuel {A}.

#[global] Instance outcome_ret : MRet outcome := @Ret.

#[global] Instance outcome_bind : MBind outcome :=
  fun A B (f : A -> outcome B) (m : outcome A) =>
    match m with
    | Ret a => f a
    | Raise e => Raise e
    | OutOfFuel => OutOfFuel
    end.

(** The computation did not stop for lack of fuel. *)
Definition finishes {A} (m : outcome A) : Prop := m <> OutOfFuel.

(** ** Python lists *)

(** [range(lo, hi)] *)
Definition py_range (lo hi : Z) : list Z := seqZ lo (hi - lo).

(** Resolution of a subscript: negative indices count from the end. *)
Definition py_index {A} (l : list A) (i : Z) : outcome nat :=
  let n := Z.of_nat (length l) in
  let j := if i <? 0 then i + n else i in
  if (0 <=? j) && (j <? n) then Ret (Z.to_nat j) else Raise IndexError.

(** [l[i]] *)
Definition getitem {A} (l : list A) (i : Z) : outcome A :=
  k ← py_index l i;
  match l !! k with
  | Some x => Ret x
  | None => Raise IndexError
  end.

(** [l[i] = x] *)
Definition setitem {A} (l : list A) (i : Z) (x : A) : outcome (list A) :=
  k ← py_index l i;
  Ret (<[k:=x]> l).

(** ** Loops *)

(** A [for x in xs] loop that leaves the function as soon as its body
    answers [true] (an early [return], or Python's [any]). *)
Fixpoint any_m {A} (body : A -> outcome bool) (xs : list A) : outcome bool :=
  match xs with
  | [] => Ret false
  | x :: xs' =>
      hit ← body x;
      if hit : bool then Ret true else any_m body xs'
  end.

(** A [for x in xs] loop that returns the first value its body finds. *)
Fixpoint first_m {A B} (body : A -> outcome (option B)) (xs : list A)
  : outcome (option B) :=
  match xs with
  | [] => Ret None
  | x :: xs' =>
      found ← body x;
      match found with
      | Some b => Ret (Some b)
      | None => first_m body xs'
      end
  end.

(** A [for x in xs] loop that updates local state [s] and runs to the end. *)
Fixpoint for_m {A S} (body : A -> S -> outcome S) (xs : list A) (s : S)
  : outcome S :=
  match xs with
  | [] => Ret s
  | x :: xs' =>
      s' ← body x s;
      for_m body xs' s'
  end.

(** ** Dictionaries: association lists in insertion order *)

Definition dict (K V : Type) : Type := list (K * V).

Fixpoint dict_get {K V} `{EqDecision K} (d : dict K V) (k : K) : option V :=
  match d with
  | [] => None
  | (k', v) :: d' => if decide (k' = k) then Some v else dict_get d' k
  end.

(** [d[k] = v]: an existing key keeps its place, a new key goes last. *)
Fixpoint dict_set {K V} `{EqDecision K} (d : dict K V) (k : K) (v : V)
  : dict K V :=
  match d with
  | [] => [(k, v)]
  | (k', v') :: d' =>
      if decide (k' = k) then (k', v) :: d' else (k', v') :: dict_set d' k v
  end.

(** ** Grids *)

Abbreviation grid := (list (list Z)).

(** [board[row][col]] *)
Definition get_cell (board : grid) (row col : Z) : outcome Z :=
  r ← getitem board row;
  getitem r col.

(** [board[row][col] = v] *)
Definition set_cell (board : grid) (row col v : Z) : outcome grid :=
  r ← getitem board row;
  r' ← setitem r col v;
  setitem board row r'.

(** [[[0] * 9 for _ in range(9)]] *)
Definition empty_grid : grid := replicate 9 (replicate 9 0).

(** [sum(1 for row in board for cell in row if cell == 0)] *)
Definition empty_count (board : grid) : nat :=
  length (filter (fun v => v = 0) (concat board)).

(** ** class SudokuBoard *)

Module SudokuBoard.

Record t : Type := mk {
  board : grid;
  initial_board : grid;
  solution : option grid
}.

Definition with_board (self : t) (b : grid) : t :=
  mk b (initial_board self) (solution self).

(** [_find_empty_cell]: row-major scan of rows 0..8 and columns 0..8. *)
Definition _find_empty_cell (board : grid) : outcome (option (Z * Z)) :=
  first_m (fun row : Z =>
    first_m (fun col : Z =>
      v ← get_cell board row col;
      if v =? 0 then Ret (Some (row, col)) else Ret None)
    (py_range 0 9))
  (py_range 0 9).

(** [_is_valid_placement]: the answer is [False] as soon as [num] is found in
    the row, then in the column, then in the 3x3 box of [(row, col)]. None
    of the scans skips the cell [(row, col)] itself. *)
Definition _is_valid_placement (board : grid) (row col num : Z)
  : outcome bool :=
  r ← getitem board row;
  if bool_decide (num ∈ r) then Ret false else
  in_col ← any_m (fun r : Z => v ← get_cell board r col; Ret (v =? num))
                 (py_range 0 9);
  if in_col : bool then Ret false else
  let box_row := (row / 3) * 3 in
  let box_col := (col / 3) * 3 in
  in_box ← any_m (fun r : Z =>
              any_m (fun c : Z => v ← get_cell board r c; Ret (v =? num))
                    (py_range box_col (box_col + 3)))
            (py_range box_row (box_row + 3));
  if in_box : bool then Ret false else Ret true.

(** The [for num in range(1, 10)] loop of [_solve_with_backtracking] at the
    cell [(row, col)]; [rec] is the recursive call. *)
Fixpoint try_numbers (rec : grid -> outcome (bool * grid)) (row col : Z)
    (nums : list Z) (board : grid) : outcome (bool * grid) :=
  match nums with
  | [] => Ret (false, board)
  | num :: nums' =>
      ok ← _is_valid_placement board row col num;
      if ok : bool then
        board ← set_cell board row col num;
        '(solved, board) ← rec board;
        if solved : bool then Ret (true, board) else
        board ← set_cell board row col 0;
        try_numbers rec row col nums' board
      else try_numbers rec row col nums' board
  end.

(** [_solve_with_backtracking] with its recursion depth bounded by [fuel]. *)
Fixpoint solve (fuel : nat) (board : grid) : outcome (bool * grid) :=
  match fuel with
  | O => OutOfFuel
  | S fuel' =>
      empty_cell ← _find_empty_cell board;
      match empty_cell with
      | None => Ret (true, board)
      | Some (row, col) =>
          try_numbers (solve fuel') row col (py_range 1 10) board
      end
  end.

(** [_solve_with_backtracking]: every recursive call is made on a grid with
    one empty cell less, so the depth never exceeds the number of empty
    cells. *)
Definition _solve_with_backtracking (board : grid) : outcome (bool * grid) :=
  solve (S (empty_count board)) board.

(** [_generate_solution] *)
Definition _generate_solution (self : t) : outcome (bool * t) :=
  let board_copy := board self in
  '(solved, board_copy) ← _solve_with_backtracking board_copy;
  if solved : bool
  then Ret (true, mk (board self) (initial_board self) (Some board_copy))
  else Ret (false, self).

(** [__init__]: no check is made on the grid that is passed in. *)
Definition __init__ (arg : option grid) : outcome t :=
  let b := match arg with
           | None => empty_grid
           | Some g => g
           end in
  let self := mk b b None in
  '(_, self) ← _generate_solution self;
  Ret self.

(** The three [discard] loops of [get_possibilities] share this body. *)
Definition discard_cell (board : grid) (r c : Z) (possibilities : gset Z)
  : outcome (gset Z) :=
  v ← get_cell board r c;
  if negb (v =? 0) then Ret (possibilities ∖ {[v]}) else Ret possibilities.

(** [get_possibilities] *)
Definition get_possibilities (row col : Z) (self : t)
  : outcome (gset Z * t) :=
  v ← get_cell (board self) row col;
  if negb (v =? 0) then Ret (∅, self) else
  let possibilities : gset Z := list_to_set (py_range 1 10) in
  possibilities ← for_m (fun c => discard_cell (board self) row c)
                        (py_range 0 9) possibilities;
  possibilities ← for_m (fun r => discard_cell (board self) r col)
                        (py_range 0 9) possibilities;
  let box_row := (row / 3) * 3 in
  let box_col := (col / 3) * 3 in
  possibilities ← for_m (fun r =>
                     for_m (fun c => discard_cell (board self) r c)
                           (py_range box_col (box_col + 3)))
                   (py_range box_row (box_row + 3)) possibilities;
  Ret (possibilities, self).

(** [get_all_possibilities] *)
Definition get_all_possibilities (self : t)
  : outcome (dict (Z * Z) (gset Z) * t) :=
  for_m (fun row : Z =>
    for_m (fun (col : Z) (st : dict (Z * Z) (gset Z) * t) =>
      let '(possibilities, self) := st in
      v ← get_cell (board self) row col;
      if v =? 0 then
        '(poss, self) ← get_possibilities row col self;
        if bool_decide (poss ≠ ∅)
        then Ret (dict_set possibilities (row, col) poss, self)
        else Ret (possibilities, self)
      else Ret (possibilities, self))
    (py_range 0 9))
  (py_range 0 9) ([], self).

(** [place_number] *)
Definition place_number (row col num : Z) (self : t) : outcome (bool * t) :=
  if num =? 0 then
    b ← set_cell (board self) row col 0;
    Ret (true, with_board self b)
  else
    ok ← _is_valid_placement (board self) row col num;
    if negb (ok : bool) then Ret (false, self) else
    b ← set_cell (board self) row col num;
    Ret (true, with_board self b).

(** [is_complete] *)
Definition is_complete (self : t) : bool :=
  forallb (fun row : list Z => negb (bool_decide (0 ∈ row))) (board self).

(** [is_valid_complete] *)
Definition is_valid_complete (self : t) : outcome bool :=
  if negb (is_complete self) then Ret false else
  if existsb (fun row : list Z =>
                negb (size (list_to_set row : gset Z) =? 9)%nat
                || bool_decide (0 ∈ row)) (board self)
  then Ret false else
  bad_col ← any_m (fun col : Z =>
      column ← for_m (fun (row : Z) (acc : list Z) =>
                  v ← get_cell (board self) row col; Ret (acc ++ [v]))
                (py_range 0 9) [];
      Ret (negb (size (list_to_set column : gset Z) =? 9)%nat))
    (py_range 0 9);
  if bad_col : bool then Ret false else
  bad_box ← any_m (fun box_row : Z =>
      any_m (fun box_col : Z =>
        box ← for_m (fun r : Z =>
                 for_m (fun (c : Z) (acc : list Z) =>
                   v ← get_cell (board self) r c; Ret (acc ++ [v]))
                 (py_range box_col (box_col + 3)))
               (py_range box_row (box_row + 3)) [];
        Ret (negb (size (list_to_set box : gset Z) =? 9)%nat))
      [0; 3; 6])
    [0; 3; 6];
  if bad_box : bool then Ret false else Ret true.

(** [reset] *)
Definition reset (self : t) : t :=
  mk (initial_board self) (initial_board self) (solution self).

(** [get_difficulty_level] *)
Definition get_difficulty_level (self : t) : string :=
  let empty_count := Z.of_nat (empty_count (board self)) in
  if empty_count <=? 30 then "Easy"
  else if empty_count <=? 40 then "Medium"
  else if empty_count <=? 50 then "Hard"
  else "Expert".

End SudokuBoard.

(** ** The random source

    The program draws from Python's global [random] module. The draws are
    taken from an explicit random source that is threaded through the
    generator; nothing is assumed about the values it produces. *)

Class RandomSource (R : Type) : Type := {
  (** [random.randint(lo, hi)] *)
  randint : Z -> Z -> R -> Z * R;
  (** [random.shuffle(numbers)] *)
  shuffle : list Z -> R -> list Z * R
}.

(** ** class SudokuPuzzleGenerator *)

Module SudokuPuzzleGenerator.

(** [_find_empty_cell] *)
Definition _find_empty_cell (board : grid) : outcome (option (Z * Z)) :=
  first_m (fun row : Z =>
    first_m (fun col : Z =>
      v ← get_cell board row col;
      if v =? 0 then Ret (Some (row, col)) else Ret None)
    (py_range 0 9))
  (py_range 0 9).

(** [_is_valid] *)
Definition _is_valid (board : grid) (row col num : Z) : outcome bool :=
  r ← getitem board row;
  if bool_decide (num ∈ r) then Ret false else
  in_col ← any_m (fun r : Z => v ← get_cell board r col; Ret (v =? num))
                 (py_range 0 9);
  if in_col : bool then Ret false else
  let box_row := (row / 3) * 3 in
  let box_col := (col / 3) * 3 in
  in_box ← any_m (fun r : Z =>
              any_m (fun c : Z => v ← get_cell board r c; Ret (v =? num))
                    (py_range box_col (box_col + 3)))
            (py_range box_row (box_row + 3));
  if in_box : bool then Ret false else Ret true.

(** [difficulty_map] of [generate_puzzle] *)
Definition difficulty_map : gmap string Z :=
  <["Easy" := 30]> (<["Medium" := 40]> (<["Hard" := 50]>
    (<["Expert" := 60]> ∅))).

Section WithRandomSource.
Context {R : Type} `{!RandomSource R}.

(** The [for num in numbers] loop of [_fill_board_randomly]. *)
Fixpoint try_numbers (rec : R -> grid -> outcome (bool * grid * R))
    (row col : Z) (nums : list Z) (rng : R) (board : grid)
  : outcome (bool * grid * R) :=
  match nums with
  | [] => Ret (false, board, rng)
  | num :: nums' =>
      ok ← _is_valid board row col num;
      if ok : bool then
        board ← set_cell board row col num;
        '(filled, board, rng) ← rec rng board;
        if filled : bool then Ret (true, board, rng) else
        board ← set_cell board row col 0;
        try_numbers rec row col nums' rng board
      else try_numbers rec row col nums' rng board
  end.

(** [_fill_board_randomly] with its recursion depth bounded by [fuel]. *)
Fixpoint fill (fuel : nat) (rng : R) (board : grid)
  : outcome (bool * grid * R) :=
  match fuel with
  | O => OutOfFuel
  | S fuel' =>
      empty_cell ← _find_empty_cell board;
      match empty_cell with
      | None => Ret (true, board, rng)
      | Some (row, col) =>
          let '(numbers, rng) := shuffle (py_range 1 10) rng in
          try_numbers (fill fuel') row col numbers rng board
      end
  end.

(** [_fill_board_randomly] *)
Definition _fill_board_randomly (rng : R) (board : grid)
  : outcome (bool * grid * R) :=
  fill (S (empty_count board)) rng board.

(** The [while removed < cells_to_remove] loop of [generate_puzzle]; it has
    no bound of its own, [fuel] bounds the number of draws. *)
Fixpoint remove_cells (fuel : nat) (cells_to_remove removed : Z) (rng : R)
    (board : grid) : outcome (grid * R) :=
  if removed <? cells_to_remove then
    match fuel with
    | O => OutOfFuel
    | S fuel' =>
        let '(row, rng) := randint 0 8 rng in
        let '(col, rng) := randint 0 8 rng in
        v ← get_cell board row col;
        if negb (v =? 0) then
          board ← set_cell board row col 0;
          remove_cells fuel' cells_to_remove (removed + 1) rng board
        else remove_cells fuel' cells_to_remove removed rng board
    end
  else Ret (board, rng).

(** [generate_puzzle]; [fuel] bounds the draws of the removal loop. *)
Definition generate_puzzle (fuel : nat) (difficulty : string) (rng : R)
  : outcome (SudokuBoard.t * R) :=
  let board := empty_grid in
  '(_, board, rng) ← _fill_board_randomly rng board;
  let cells_to_remove := default 40 (difficulty_map !! difficulty) in
  '(board, rng) ← remove_cells fuel cells_to_remove 0 rng board;
  puzzle ← SudokuBoard.__init__ (Some board);
  Ret (puzzle, rng).

End WithRandomSource.

End SudokuPuzzleGenerator.

(** ** class AdvancedSudokuAISolver

    The solver object holds the board object in its field [board]; its
    methods only read it, so they are functions of the board object. *)

Module AdvancedSudokuAISolver.

(** [find_naked_singles] *)
Definition find_naked_singles (self_board : SudokuBoard.t)
  : outcome (list (Z * Z * Z)) :=
  '(possibilities, _) ← SudokuBoard.get_all_possibilities self_board;
  for_m (fun (item : Z * Z * gset Z) (singles : list (Z * Z * Z)) =>
           let '(row, col, poss_set) := item in
           if (size poss_set =? 1)%nat then
             num ← getitem (elements poss_set) 0;
             Ret (singles ++ [(row, col, num)])
           else Ret singles)
        possibilities [].

(** The inner [for] loop of both hidden-single searches: the positions of
    the unit whose cell is empty and has [num] among its possibilities. *)
Definition possible_positions (self_board : SudokuBoard.t) (num : Z)
    (cell_of : Z -> Z * Z) : outcome (list Z) :=
  for_m (fun (i : Z) (positions : list Z) =>
           let '(row, col) := cell_of i in
           v ← get_cell (SudokuBoard.board self_board) row col;
           if v =? 0 then
             '(possibilities, _) ←
               SudokuBoard.get_possibilities row col self_board;
             if bool_decide (num ∈ possibilities)
             then Ret (positions ++ [i])
             else Ret positions
           else Ret positions)
        (py_range 0 9) [].

(** [find_hidden_singles_in_row] *)
Definition find_hidden_singles_in_row (row : Z) (self_board : SudokuBoard.t)
  : outcome (list (Z * Z * Z)) :=
  for_m (fun (num : Z) (hidden_singles : list (Z * Z * Z)) =>
           r ← getitem (SudokuBoard.board self_board) row;
           if bool_decide (num ∈ r) then Ret hidden_singles else
           positions ← possible_positions self_board num
                         (fun col => (row, col));
           if (length positions =? 1)%nat then
             col ← getitem positions 0;
             Ret (hidden_singles ++ [(row, col, num)])
           else Ret hidden_singles)
        (py_range 1 10) [].

(** [find_hidden_singles_in_column] *)
Definition find_hidden_singles_in_column (col : Z)
    (self_board : SudokuBoard.t) : outcome (list (Z * Z * Z)) :=
  for_m (fun (num : Z) (hidden_singles : list (Z * Z * Z)) =>
           in_col ← any_m (fun r : Z =>
                       v ← get_cell (SudokuBoard.board self_board) r col;
                       Ret (v =? num))
                     (py_range 0 9);
           if in_col : bool then Ret hidden_singles else
           positions ← possible_positions self_board num
                         (fun row => (row, col));
           if (length positions =? 1)%nat then
             row ← getitem positions 0;
             Ret (hidden_singles ++ [(row, col, num)])
           else Ret hidden_singles)
        (py_range 1 10) [].

(** What [get_advanced_hint] has found when it returns a string. *)
Inductive deduction : Type :=
| NakedSingle (row col num : Z)
| HiddenSingleInRow (row_idx col_idx num : Z)
| HiddenSingleInColumn (row_idx col_idx num : Z).

(** The three f-strings of [get_advanced_hint]. *)
Definition hint_text (d : deduction) : string :=
  match d with
  | NakedSingle row col num =>
      "Naked Single: Cell (" +:+ pretty (row + 1) +:+ ", "
        +:+ pretty (col + 1) +:+ ") MUST be " +:+ pretty num
        +:+ " (only possibility)"
  | HiddenSingleInRow row_idx col_idx num =>
      "Hidden Single in Row " +:+ pretty (row_idx + 1) +:+ ": Number "
        +:+ pretty num +:+ " can only go at (" +:+ pretty (row_idx + 1)
        +:+ ", " +:+ pretty (col_idx + 1) +:+ ")"
  | HiddenSingleInColumn row_idx col_idx num =>
      "Hidden Single in Column " +:+ pretty (col_idx + 1) +:+ ": Number "
        +:+ pretty num +:+ " can only go at (" +:+ pretty (row_idx + 1)
        +:+ ", " +:+ pretty (col_idx + 1) +:+ ")"
  end.

(** The control flow of [get_advanced_hint], up to the choice of the
    deduction that is reported. *)
Definition advanced_deduction (self_board : SudokuBoard.t)
  : outcome (option deduction) :=
  naked_singles ← find_naked_singles self_board;
  match naked_singles with
  | (row, col, num) :: _ => Ret (Some (NakedSingle row col num))
  | [] =>
      in_rows ← first_m (fun row : Z =>
          hidden_singles ← find_hidden_singles_in_row row self_board;
          match hidden_singles with
          | (row_idx, col_idx, num) :: _ =>
              Ret (Some (HiddenSingleInRow row_idx col_idx num))
          | [] => Ret None
          end)
        (py_range 0 9);
      match in_rows with
      | Some d => Ret (Some d)
      | None =>
          first_m (fun col : Z =>
              hidden_singles ← find_hidden_singles_in_column col self_board;
              match hidden_singles with
              | (row_idx, col_idx, num) :: _ =>
                  Ret (Some (HiddenSingleInColumn row_idx col_idx num))
              | [] => Ret None
              end)
            (py_range 0 9)
      end
  end.

(** [get_advanced_hint] *)
Definition get_advanced_hint (self_board : SudokuBoard.t)
  : outcome (option string) :=
  found ← advanced_deduction self_board;
  match found with
  | Some d => Ret (Some (hint_text d))
  | None => Ret None
  end.

End AdvancedSudokuAISolver.

(** ** class SudokuAISolver

    The solver object holds the board object in its field [board]; its
    methods only read it, so they are functions of the board object. *)

Module SudokuAISolver.

(** [solve_with_suggestions] *)
Definition solve_with_suggestions (self_board : SudokuBoard.t)
  : outcome (dict (Z * Z) (gset Z) * SudokuBoard.t) :=
  SudokuBoard.get_all_possibilities self_board.

(** [get_hint_for_cell]: the set is empty exactly when it has no element to
    list, and [min] of a non-empty set of integers is its least member. *)
Definition get_hint_for_cell (row col : Z) (self_board : SudokuBoard.t)
  : outcome (option Z) :=
  '(possibilities, _) ← SudokuBoard.get_possibilities row col self_board;
  match elements possibilities with
  | [] => Ret None
  | x :: rest => Ret (Some (foldl Z.min x rest))
  end.

(** The sort key [len(x[1]) or float('inf')]. *)
Inductive sort_key : Type :=
| Finite (n : nat)
| Infinity.

(** [a < b] on sort keys. *)
Definition key_lt (a b : sort_key) : bool :=
  match a, b with
  | Finite m, Finite n => (m <? n)%nat
  | Finite _, Infinity => true
  | Infinity, _ => false
  end.

Definition possibilities_key (item : Z * Z * gset Z) : sort_key :=
  let n := size item.2 in
  if (n =? 0)%nat then Infinity else Finite n.

(** [min(best :: xs, key=key)]: an item replaces the best one so far only
    when its key is strictly smaller, so the first least item wins. *)
Fixpoint min_by {A} (key : A -> sort_key) (best : A) (xs : list A) : A :=
  match xs with
  | [] => best
  | x :: xs' => min_by key (if key_lt (key x) (key best) then x else best) xs'
  end.

(** [find_best_cell_to_fill] *)
Definition find_best_cell_to_fill (self_board : SudokuBoard.t)
  : outcome (option (Z * Z)) :=
  '(all_possibilities, _) ← SudokuBoard.get_all_possibilities self_board;
  match all_possibilities with
  | [] => Ret None
  | first :: rest =>
      let best_cell := min_by possibilities_key first rest in
      Ret (if bool_decide (best_cell.2 <> ∅) then Some best_cell.1 else None)
  end.

End SudokuAISolver.

(** ** class SudokuGame: the "Solve" action

    Of the game object only the fields that [solve_puzzle] reads or writes
    are kept; [ticks] is the value of [pygame.time.get_ticks()]. *)

Module SudokuGame.

Record t : Type := mk {
  board : SudokuBoard.t;
  won : bool;
  message : string;
  message_time : Z
}.

(** [solve_puzzle]: [if self.board.solution] is false for [None] and for an
    empty list. *)
Definition solve_puzzle (ticks : Z) (self : t) : t :=
  match SudokuBoard.solution (board self) with
  | Some (row :: rows) =>
      mk (SudokuBoard.with_board (board self) (row :: rows)) true
         "Puzzle solved by AI!" ticks
  | _ => mk (board self) (won self) (message self) ticks
  end.

End SudokuGame.

(** ** Vocabulary of the specification *)

(** Nine rows of nine cells. *)
Definition shape9 (g : grid) : Prop :=
  length g = 9%nat /\ Forall (fun r : list Z => length r = 9%nat) g.

(** Every cell holds an integer of [0..9]. *)
Definition digits (g : grid) : Prop :=
  Forall (Forall (fun v : Z => 0 <= v <= 9)) g.

(** The Grid of the data model: 9x9 with cells in [0..9]. *)
Definition well_formed (g : grid) : Prop := shape9 g /\ digits g.

Definition in_grid (r c : Z) : Prop := 0 <= r <= 8 /\ 0 <= c <= 8.

(** The cell [(r, c)] of a 9x9 grid. *)
Definition cell (g : grid) (r c : Z) : Z :=
  (g !!! Z.to_nat r) !!! Z.to_nat c.

(** The grid with the cell [(r, c)] replaced by [v]. *)
Definition grid_update (g : grid) (r c v : Z) : grid :=
  alter (fun row : list Z => <[Z.to_nat c := v]> row) (Z.to_nat r) g.

Definition same_box (r c r' c' : Z) : Prop :=
  r / 3 = r' / 3 /\ c / 3 = c' / 3.

(** Two cells lie in a common row, column or 3x3 box. *)
Definition shares_unit (r c r' c' : Z) : Prop :=
  r = r' \/ c = c' \/ same_box r c r' c'.

(** Some cell of the row, column or box of [(row, col)] holds [v]; the cell
    [(row, col)] itself counts. *)
Definition held_in_units (g : grid) (row col v : Z) : Prop :=
  exists r c, in_grid r c /\ shares_unit row col r c /\ cell g r c = v.

(** Some other cell of the row, column or box of [(row, col)] holds [v]. *)
Definition held_by_other (g : grid) (row col v : Z) : Prop :=
  exists r c, in_grid r c /\ (r, c) <> (row, col) /\
              shares_unit row col r c /\ cell g r c = v.

(** The 27 units, as lists of positions. *)
Definition row_positions (r : Z) : list (Z * Z) :=
  (fun c => (r, c)) <$> py_range 0 9.

Definition col_positions (c : Z) : list (Z * Z) :=
  (fun r => (r, c)) <$> py_range 0 9.

Definition box_positions (box_row box_col : Z) : list (Z * Z) :=
  r ← py_range box_row (box_row + 3);
  (fun c => (r, c)) <$> py_range box_col (box_col + 3).

Definition units : list (list (Z * Z)) :=
  (row_positions <$> py_range 0 9) ++ (col_positions <$> py_range 0 9) ++
  (br ← [0; 3; 6]; (fun bc => box_positions br bc) <$> [0; 3; 6]).

Definition all_positions : list (Z * Z) :=
  r ← py_range 0 9; (fun c => (r, c)) <$> py_range 0 9.

Definition unit_values (g : grid) (u : list (Z * Z)) : list Z :=
  (fun p : Z * Z => cell g p.1 p.2) <$> u.

(** A list of cell values has no duplicate non-zero digit. *)
Definition no_repeat (l : list Z) : Prop :=
  NoDup (filter (fun v : Z => v <> 0) l).

(** Each of the 27 units contains no duplicate non-zero digit. *)
Definition consistent (g : grid) : Prop :=
  Forall (fun u => no_repeat (unit_values g u)) units.

(** No cell is empty. *)
Definition complete (g : grid) : Prop :=
  forall r c, in_grid r c -> cell g r c <> 0.

(** [h] agrees with [g] on every non-zero cell of [g]. *)
Definition extends (g h : grid) : Prop :=
  forall r c, in_grid r c -> cell g r c <> 0 -> cell h r c = cell g r c.

(** [h] is a completion of [g] in which no row, column or box repeats a
    digit. *)
Definition valid_completion (g h : grid) : Prop :=
  well_formed h /\ complete h /\ consistent h /\ extends g h.

(** The candidate set of the specification: empty for a filled cell,
    otherwise {1..9} minus the values of the row, of the column, and of the
    box with origin [(row/3*3, col/3*3)]. *)
Definition candidates (g : grid) (row col : Z) : gset Z :=
  if decide (cell g row col <> 0) then ∅ else
  list_to_set (py_range 1 10)
    ∖ list_to_set (unit_values g (row_positions row))
    ∖ list_to_set (unit_values g (col_positions col))
    ∖ list_to_set (unit_values g (box_positions (row / 3 * 3) (col / 3 * 3))).

(** Naked single: an empty cell with exactly one candidate. *)
Definition naked_single (g : grid) (r c n : Z) : Prop :=
  in_grid r c /\ cell g r c = 0 /\ candidates g r c = {[n]}.

(** Hidden single of a row: a digit absent from the row that exactly one
    empty cell of the row has among its candidates. *)
Definition hidden_single_in_row (g : grid) (r c n : Z) : Prop :=
  in_grid r c /\ 1 <= n <= 9 /\
  (forall c', 0 <= c' <= 8 -> cell g r c' <> n) /\
  n ∈ candidates g r c /\
  (forall c', 0 <= c' <= 8 -> n ∈ candidates g r c' -> c' = c).

Definition hidden_single_in_column (g : grid) (r c n : Z) : Prop :=
  in_grid r c /\ 1 <= n <= 9 /\
  (forall r', 0 <= r' <= 8 -> cell g r' c <> n) /\
  n ∈ candidates g r c /\
  (forall r', 0 <= r' <= 8 -> n ∈ candidates g r' c -> r' = r).

(** Pairwise form of [consistent]: two distinct cells of a common unit never
    hold the same non-zero value. *)
Definition pairwise_consistent (g : grid) : Prop :=
  forall r c r' c', in_grid r c -> in_grid r' c' -> (r, c) <> (r', c') ->
    shares_unit r c r' c' -> cell g r c <> 0 -> cell g r c <> cell g r' c'.

(** ** Sample grids *)

(** A single 5 in the top-left corner. *)
Definition corner_five : grid :=
  [[5; 0; 0; 0; 0; 0; 0; 0; 0]] ++ replicate 8 (replicate 9 0).

(** Every cell holds 5. *)
Definition all_fives : grid := replicate 9 (replicate 9 5).

(** Every cell holds 10. *)
Definition all_tens : grid := replicate 9 (replicate 9 10).

(** Row 0 lacks only the digit 1, at its first cell. *)
Definition first_row_but_one : grid :=
  [[0; 2; 3; 4; 5; 6; 7; 8; 9]] ++ replicate 8 (replicate 9 0).

(** The cell (0,0) is empty and sees all nine digits: 1..8 in its row and 9
    in its column. *)
Definition dead_corner : grid :=
  [[0; 1; 2; 3; 4; 5; 6; 7; 8]; [9; 0; 0; 0; 0; 0; 0; 0; 0]]
    ++ replicate 7 (replicate 9 0).

Definition board_of (g : grid) : SudokuBoard.t := SudokuBoard.mk g g None.

(** The aggregate map of the specification, in row-major order: one entry
    for every empty cell whose candidate set is not empty. *)
Definition candidate_entries (g : grid) (ps : list (Z * Z))
  : dict (Z * Z) (gset Z) :=
  p ← ps;
  if decide (cell g p.1 p.2 = 0 /\ candidates g p.1 p.2 <> ∅)
  then [(p, candidates g p.1 p.2)] else [].

(** ** A sample random source

    A linear congruential generator; [shuffle] rotates the list by a drawn
    amount. It only serves to run the generator on an example. *)
Definition lcg_next (seed : Z) : Z :=
  (seed * 1103515245 + 12345) mod 2147483648.

#[global] Instance lcg_source : RandomSource Z := {
  randint lo hi seed :=
    let seed' := lcg_next seed in
    (lo + (seed' / 65536) mod (hi - lo + 1), seed');
  shuffle numbers seed :=
    let seed' := lcg_next seed in
    let k := Z.to_nat ((seed' / 65536) mod Z.of_nat (length numbers)) in
    (drop k numbers ++ take k numbers, seed')
}.

(** [h] fills the empty cells of the 9x9 grid [g], and nothing else, with
    digits of 1..9 none of which is repeated in its row, column or box. The
    cells that [g] already holds are taken as they are. *)
Definition fills (g h : grid) : Prop :=
  shape9 h /\ complete h /\ extends g h /\
  forall r c, in_grid r c -> cell g r c = 0 ->
    1 <= cell h r c <= 9 /\
    forall r' c', in_grid r' c' -> (r', c') <> (r, c) ->
      shares_unit r c r' c' -> cell h r' c' <> cell h r c.

(** The digit [n] is forced at the cell [(r, c)]: every valid completion of
    [g] holds it there. *)
Definition forced (g : grid) (r c n : Z) : Prop :=
  forall h, valid_completion g h -> cell h r c = n.

(** The cell and the digit that a deduction names. *)
Definition deduction_cell (d : AdvancedSudokuAISolver.deduction)
  : Z * Z * Z :=
  match d with
  | AdvancedSudokuAISolver.NakedSingle row col num => (row, col, num)
  | AdvancedSudokuAISolver.HiddenSingleInRow row_idx col_idx num =>
      (row_idx, col_idx, num)
  | AdvancedSudokuAISolver.HiddenSingleInColumn row_idx col_idx num =>
      (row_idx, col_idx, num)
  end.

(** Row 0 and column 0 are empty; the 1s of the other rows and columns
    leave the corner as the only place for a 1 in either. *)
Definition hidden_corner : grid :=
  [[0; 0; 0; 0; 0; 0; 0; 0; 0];
   [0; 0; 0; 1; 0; 0; 0; 0; 0];
   [0; 0; 0; 0; 0; 0; 1; 0; 0];
   [0; 1; 0; 0; 0; 0; 0; 0; 0];
   [0; 0; 0; 0; 0; 0; 0; 0; 0];
   [0; 0; 0; 0; 0; 0; 0; 0; 0];
   [0; 0; 1; 0; 0; 0; 0; 0; 0];
   [0; 0; 0; 0; 0; 0; 0; 0; 0];
   [0; 0; 0; 0; 0; 0; 0; 0; 0]].

(** What the generator needs of [random.shuffle]: the list it leaves is a
    rearrangement of the list it was given. *)
Definition shuffle_permutes (R : Type) `{!RandomSource R} : Prop :=
  forall (l : list Z) (rng : R), (shuffle l rng).1 ≡ₚ l.

(** A source that draws the same number every time and leaves lists in
    their order. *)
Definition one_cell_source : RandomSource unit := {|
  randint _ _ rng := (0, rng);
  shuffle numbers rng := (numbers, rng)
|}.


(** * Properties *)

Ltac div3 := Z.to_euclidean_division_equations; lia.

(** ** The outcome monad *)

Lemma bind_ret {A B} (a : A) (f : A -> outcome B) : (Ret a ≫= f) = f a.
Proof. reflexivity. Qed.

Lemma bind_returns {A B} (m : outcome A) (f : A -> outcome B) (b : B) :
  (m ≫= f) = Ret b -> exists a, m = Ret a /\ f a = Ret b.
Proof. destruct m as [a| |]; [|done..]. intros H. by exists a. Qed.

(** ** Indexing inside the bounds *)

Lemma py_index_in_range {A} (l : list A) (i : Z) :
  0 <= i < Z.of_nat (length l) -> py_index l i = Ret (Z.to_nat i).
Proof.
  intros Hi. unfold py_index.
  destruct (Z.ltb_spec i 0) as [?|_]; [lia|].
  destruct (Z.leb_spec 0 i); [|lia].
  destruct (Z.ltb_spec i (Z.of_nat (length l))); [|lia].
  reflexivity.
Qed.

Lemma getitem_in_range (l : list Z) (i : Z) :
  0 <= i < Z.of_nat (length l) -> getitem l i = Ret (l !!! Z.to_nat i).
Proof.
  intros Hi. unfold getitem. rewrite py_index_in_range by done. simpl.
  destruct (lookup_lt_is_Some_2 l (Z.to_nat i)) as [x Hx]; [lia|].
  rewrite Hx. by rewrite (list_lookup_total_correct _ _ _ Hx).
Qed.

Lemma getitem_row (g : grid) (r : Z) :
  shape9 g -> 0 <= r <= 8 -> getitem g r = Ret (g !!! Z.to_nat r).
Proof.
  intros [Hlen _] Hr. unfold getitem.
  rewrite py_index_in_range by lia. simpl.
  destruct (lookup_lt_is_Some_2 g (Z.to_nat r)) as [x Hx]; [lia|].
  rewrite Hx. by rewrite (list_lookup_total_correct _ _ _ Hx).
Qed.

Lemma shape9_row (g : grid) (r : Z) :
  shape9 g -> 0 <= r <= 8 -> length (g !!! Z.to_nat r) = 9%nat.
Proof.
  intros [Hlen Hrows] Hr.
  destruct (lookup_lt_is_Some_2 g (Z.to_nat r)) as [x Hx]; [lia|].
  rewrite (list_lookup_total_correct _ _ _ Hx).
  by eapply (Forall_lookup_1 _ _ _ _ Hrows Hx).
Qed.

Lemma get_cell_shape9 (g : grid) (r c : Z) :
  shape9 g -> in_grid r c -> get_cell g r c = Ret (cell g r c).
Proof.
  intros Hg [Hr Hc]. unfold get_cell, cell.
  rewrite getitem_row, bind_ret by done.
  apply getitem_in_range. rewrite shape9_row by done. lia.
Qed.

Lemma set_cell_shape9 (g : grid) (r c v : Z) :
  shape9 g -> in_grid r c -> set_cell g r c v = Ret (grid_update g r c v).
Proof.
  intros Hg [Hr Hc]. unfold set_cell, grid_update.
  rewrite getitem_row, bind_ret by done. unfold setitem.
  pose proof (shape9_row g r Hg Hr) as Hrow. pose proof (proj1 Hg) as Hlen'.
  rewrite !py_index_in_range by lia. rewrite !bind_ret.
  f_equal. destruct Hg as [Hlen _].
  destruct (lookup_lt_is_Some_2 g (Z.to_nat r)) as [x Hx]; [lia|].
  rewrite (list_lookup_total_correct _ _ _ Hx).
  apply list_eq. intros i. rewrite list_lookup_alter.
  destruct (decide (Z.to_nat r = i)) as [<-|Hne].
  - rewrite list_lookup_insert_eq by lia. by rewrite Hx.
  - by rewrite list_lookup_insert_ne.
Qed.

Lemma shape9_update (g : grid) (r c v : Z) :
  shape9 g -> shape9 (grid_update g r c v).
Proof.
  intros [Hlen Hrows]. unfold grid_update. split.
  - by rewrite length_alter.
  - apply Forall_alter; [done|]. intros x Hx Hl. by rewrite length_insert.
Qed.

Lemma cell_update (g : grid) (r c v r' c' : Z) :
  shape9 g -> in_grid r c -> in_grid r' c' ->
  cell (grid_update g r c v) r' c' =
  if decide ((r, c) = (r', c')) then v else cell g r' c'.
Proof.
  intros Hg [Hr Hc] [Hr' Hc']. unfold cell, grid_update.
  destruct (decide (Z.to_nat r = Z.to_nat r')) as [Hrr|Hrr].
  - assert (r = r') as <- by lia.
    rewrite list_lookup_total_alter_eq by (destruct Hg as [-> _]; lia).
    destruct (decide (Z.to_nat c = Z.to_nat c')) as [Hcc|Hcc].
    + assert (c = c') as <- by lia.
      rewrite list_lookup_total_insert_eq
        by (rewrite shape9_row by done; lia).
      by rewrite decide_True.
    + rewrite list_lookup_total_insert_ne by done.
      rewrite decide_False; [done|]. intros [= ]. lia.
  - rewrite list_lookup_total_alter_ne by done.
    rewrite decide_False; [done|]. intros [= ]. lia.
Qed.

(** ** Loops whose bodies return *)

Lemma any_m_ret {A} (body : A -> outcome bool) (f : A -> bool) (xs : list A) :
  (forall x, x ∈ xs -> body x = Ret (f x)) ->
  any_m body xs = Ret (existsb f xs).
Proof.
  induction xs as [|x xs IH]; intros Hbody; [done|]. simpl.
  rewrite Hbody, bind_ret by apply list_elem_of_here.
  destruct (f x); [done|]. simpl. apply IH.
  intros y Hy. apply Hbody. by apply list_elem_of_further.
Qed.

Lemma existsb_elem {A} (f : A -> bool) (xs : list A) :
  existsb f xs = true <-> exists x, x ∈ xs /\ f x = true.
Proof.
  rewrite existsb_exists. split; intros (x & Hx & Hf); exists x;
    (split; [by apply list_elem_of_In|done]).
Qed.

Lemma existsb_false_elem {A} (f : A -> bool) (xs : list A) (x : A) :
  existsb f xs = false -> x ∈ xs -> f x = false.
Proof.
  intros Hf Hx. destruct (f x) eqn:Hfx; [|done].
  rewrite <- Hf. symmetry. apply existsb_elem. eauto.
Qed.

Lemma elem_of_py_range (lo hi k : Z) : k ∈ py_range lo hi <-> lo <= k < hi.
Proof. unfold py_range. rewrite elem_of_seqZ. lia. Qed.

(** ** The placement rule *)

Lemma cell_elem_of_row (g : grid) (r c : Z) :
  shape9 g -> in_grid r c -> cell g r c ∈ g !!! Z.to_nat r.
Proof.
  intros Hg [Hr Hc]. unfold cell. apply list_elem_of_lookup_total_2.
  rewrite shape9_row by done. lia.
Qed.

Lemma elem_of_row_cell (g : grid) (r v : Z) :
  shape9 g -> 0 <= r <= 8 -> v ∈ g !!! Z.to_nat r ->
  exists c, 0 <= c <= 8 /\ cell g r c = v.
Proof.
  intros Hg Hr Hin. apply list_elem_of_lookup in Hin as [j Hj].
  pose proof (lookup_lt_Some _ _ _ Hj) as Hlt.
  rewrite shape9_row in Hlt by done.
  exists (Z.of_nat j). split; [lia|]. unfold cell. rewrite Nat2Z.id.
  by apply list_lookup_total_correct.
Qed.

(** On a 9x9 grid [_is_valid_placement] returns, and it answers [True]
    exactly when no cell of the three units, the target included, holds
    [num]. *)
Lemma is_valid_placement_shape9 (g : grid) (row col num : Z) :
  shape9 g -> in_grid row col ->
  exists b, SudokuBoard._is_valid_placement g row col num = Ret b /\
            (b = true <-> ~ held_in_units g row col num).
Proof.
  intros Hg [Hr Hc]. unfold SudokuBoard._is_valid_placement.
  rewrite getitem_row, bind_ret by done.
  case_bool_decide as Hin; [|rename Hin into Hnin].
  { exists false. split; [done|]. split; [done|]. intros Hn. destruct Hn.
    destruct (elem_of_row_cell g row num Hg Hr Hin) as (c & Hc' & Hv).
    exists row, c. repeat split; try lia; try done. by left. }
  rewrite (any_m_ret _ (fun r => cell g r col =? num) (py_range 0 9)),
    bind_ret.
  2:{ intros r Hr'. apply elem_of_py_range in Hr'. cbv beta.
      rewrite get_cell_shape9 by (done || split; lia). done. }
  destruct (existsb _ _) eqn:Hcol.
  { exists false. split; [done|]. split; [done|]. intros Hn. destruct Hn.
    apply existsb_elem in Hcol as (r & Hr' & Hv). apply Z.eqb_eq in Hv.
    apply elem_of_py_range in Hr'. exists r, col.
    repeat split; try lia. right. by left. }
  cbv zeta.
  rewrite (any_m_ret _ (fun r => existsb (fun c => cell g r c =? num)
             (py_range (col / 3 * 3) (col / 3 * 3 + 3)))), bind_ret.
  2:{ intros r Hr'. apply elem_of_py_range in Hr'. apply any_m_ret.
      intros c Hc'. apply elem_of_py_range in Hc'. cbv beta.
      rewrite get_cell_shape9 by (done || split; div3). done. }
  destruct (existsb _ (py_range (row / 3 * 3) _)) eqn:Hbox.
  { exists false. split; [done|]. split; [done|]. intros Hn. destruct Hn.
    apply existsb_elem in Hbox as (r & Hr' & Hv).
    apply existsb_elem in Hv as (c & Hc' & Hv). apply Z.eqb_eq in Hv.
    apply elem_of_py_range in Hr', Hc'. exists r, c.
    repeat split; try div3. right. right. split; div3. }
  exists true. split; [done|]. split; [|done]. intros _ (r & c & [Hr' Hc'] & Hsh & Hv).
  destruct Hsh as [<-|[<-|[Hb1 Hb2]]].
  - apply Hnin. rewrite <- Hv. by apply cell_elem_of_row.
  - apply (existsb_false_elem _ _ r) in Hcol; [|apply elem_of_py_range; lia].
    apply Z.eqb_neq in Hcol. done.
  - apply (existsb_false_elem _ _ r) in Hbox;
      [|apply elem_of_py_range; div3].
    apply (existsb_false_elem _ _ c) in Hbox;
      [|apply elem_of_py_range; div3].
    apply Z.eqb_neq in Hbox. done.
Qed.

(** ** [place_number] on a 9x9 board *)

Lemma place_number_zero (self : SudokuBoard.t) (row col : Z) :
  shape9 (SudokuBoard.board self) -> in_grid row col ->
  SudokuBoard.place_number row col 0 self =
  Ret (true, SudokuBoard.with_board self
               (grid_update (SudokuBoard.board self) row col 0)).
Proof.
  intros Hg Hin. unfold SudokuBoard.place_number. simpl.
  by rewrite set_cell_shape9, bind_ret.
Qed.

Lemma place_number_nonzero (self : SudokuBoard.t) (row col v : Z) :
  shape9 (SudokuBoard.board self) -> in_grid row col -> v <> 0 ->
  exists ok : bool,
    SudokuBoard.place_number row col v self =
    Ret (ok, if ok
             then SudokuBoard.with_board self
                    (grid_update (SudokuBoard.board self) row col v)
             else self) /\
    (ok = true <-> ~ held_in_units (SudokuBoard.board self) row col v).
Proof.
  intros Hg Hin Hv. unfold SudokuBoard.place_number.
  destruct (Z.eqb_spec v 0) as [?|_]; [done|].
  destruct (is_valid_placement_shape9 (SudokuBoard.board self) row col v)
    as (b & -> & Hb); [done..|].
  rewrite bind_ret. exists b. split; [|done]. destruct b; simpl; [|done].
  by rewrite set_cell_shape9, bind_ret.
Qed.

(** Closed decidable facts are settled by evaluation. *)
Ltac by_eval :=
  unfold consistent, no_repeat, well_formed, shape9, digits, in_grid,
    shares_unit, same_box;
  refine (bool_decide_unpack _ _); vm_compute; exact I.

Ltac enum_range r :=
  let H := fresh in
  assert (H : r = 0 \/ r = 1 \/ r = 2 \/ r = 3 \/ r = 4 \/ r = 5 \/
              r = 6 \/ r = 7 \/ r = 8) by lia;
  destruct H as [->|[->|[->|[->|[->|[->|[->|[->| ->]]]]]]]].

(** C1, as amended: on a 9x9 board and for a target inside the grid,
    [place_number] with a digit of 1..9 succeeds, writing the digit into the
    target cell and nothing else, if and only if no cell of the target's
    row, column or 3x3 box, the target cell itself included, holds the
    digit; when it is rejected it returns [False] and the board object is
    unchanged; and [place_number] with 0 always succeeds and clears the
    cell. *)
Theorem C1_place_number_rule (self : SudokuBoard.t) (row col v : Z) :
  shape9 (SudokuBoard.board self) -> in_grid row col -> 1 <= v <= 9 ->
  let g := SudokuBoard.board self in
  (exists ok self',
     SudokuBoard.place_number row col v self = Ret (ok, self') /\
     (ok = true <-> ~ held_in_units g row col v) /\
     (ok = true ->
      self' = SudokuBoard.with_board self (grid_update g row col v) /\
      cell (SudokuBoard.board self') row col = v /\
      forall r c, in_grid r c -> (r, c) <> (row, col) ->
                  cell (SudokuBoard.board self') r c = cell g r c) /\
     (ok = false -> self' = self)) /\
  SudokuBoard.place_number row col 0 self =
    Ret (true, SudokuBoard.with_board self (grid_update g row col 0)) /\
  cell (grid_update g row col 0) row col = 0.
Proof.
  intros Hg Hin Hv g. split; [|split].
  - destruct (place_number_nonzero self row col v Hg Hin)
      as (ok & Hrun & Hok); [lia|].
    eexists ok, _. split; [exact Hrun|]. split; [done|].
    split; intros ->; [|done]. split; [done|]. simpl. split.
    + rewrite cell_update by done. by rewrite decide_True.
    + intros r c Hrc Hne. rewrite cell_update by done.
      by rewrite decide_False.
  - by apply place_number_zero.
  - rewrite cell_update by done. by rewrite decide_True.
Qed.

Lemma C1_place_number_rule_witness :
  exists ok self',
    SudokuBoard.place_number 0 0 5 (board_of corner_five) = Ret (ok, self').
Proof.
  destruct (C1_place_number_rule (board_of corner_five) 0 0 5)
    as [(ok & self' & H & _) _].
  - by_eval.
  - by_eval.
  - lia.
  - by exists ok, self'.
Defined.

(** C1 as stated fails: in [corner_five] no other cell of the units of
    (0,0) holds 5, yet placing 5 at (0,0) is rejected, because the scan
    meets the 5 of the target cell itself. *)
Lemma C1_counterexample :
  ~ ((exists self', SudokuBoard.place_number 0 0 5 (board_of corner_five)
                    = Ret (true, self'))
     <-> ~ held_by_other corner_five 0 0 5).
Proof.
  intros [_ H]. destruct H as [self' H]; [|by vm_compute in H].
  intros (r & c & [Hr Hc] & Hne & _ & Hv).
  enum_range r; enum_range c; first [done | by vm_compute in Hv].
Qed.

Lemma held_in_units_other (g : grid) (row col v : Z) :
  cell g row col <> v -> held_in_units g row col v ->
  held_by_other g row col v.
Proof.
  intros Hne (r & c & Hin & Hsh & Hv). exists r, c.
  split; [done|]. split; [|done]. intros Heq. injection Heq as -> ->. done.
Qed.

(** C10: on a 9x9 board and for a target inside the grid, [place_number]
    with 0 returns [True] and clears the cell whatever the initial grid
    holds there (the initial grid is not consulted and stays as it is), and
    [place_number] with a digit [v] of 1..9 overwrites a cell that holds a
    different non-zero digit whenever [v] appears nowhere else in the row,
    column or 3x3 box of the cell. *)
Theorem C10_place_number_overwrites (self : SudokuBoard.t) (row col v : Z) :
  shape9 (SudokuBoard.board self) -> in_grid row col ->
  let g := SudokuBoard.board self in
  (exists self',
     SudokuBoard.place_number row col 0 self = Ret (true, self') /\
     cell (SudokuBoard.board self') row col = 0 /\
     SudokuBoard.initial_board self' = SudokuBoard.initial_board self) /\
  (1 <= v <= 9 -> cell g row col <> 0 -> cell g row col <> v ->
   ~ held_by_other g row col v ->
   exists self',
     SudokuBoard.place_number row col v self = Ret (true, self') /\
     cell (SudokuBoard.board self') row col = v).
Proof.
  intros Hg Hin g. split.
  - eexists. split; [by apply place_number_zero|]. simpl.
    rewrite cell_update by done. by rewrite decide_True.
  - intros Hv Hfilled Hdiff Hfree.
    destruct (place_number_nonzero self row col v Hg Hin)
      as (ok & Hrun & Hok); [lia|].
    assert (ok = true) as ->.
    { apply Hok. intros Hheld. apply Hfree.
      by apply held_in_units_other. }
    eexists. split; [exact Hrun|]. simpl.
    rewrite cell_update by done. by rewrite decide_True.
Qed.

Lemma C10_place_number_overwrites_witness :
  cell (SudokuBoard.initial_board (board_of corner_five)) 0 0 = 5 /\
  (exists self',
     SudokuBoard.place_number 0 0 0 (board_of corner_five)
       = Ret (true, self') /\
     cell (SudokuBoard.board self') 0 0 = 0) /\
  (exists self',
     SudokuBoard.place_number 0 0 7 (board_of corner_five)
       = Ret (true, self') /\
     cell (SudokuBoard.board self') 0 0 = 7).
Proof.
  destruct (C10_place_number_overwrites (board_of corner_five) 0 0 7)
    as [(s0 & H0 & Hc0 & _) H7].
  - by_eval.
  - by_eval.
  - split; [reflexivity|]. split; [by exists s0|].
    apply H7.
    + lia.
    + by vm_compute.
    + by vm_compute.
    + intros (r & c & [Hr Hc] & Hne & _ & Hv).
      enum_range r; enum_range c; first [done | by vm_compute in Hv].
Defined.

(** ** The 27 units, pairwise *)

Lemma no_repeat_fmap {A} (f : A -> Z) (ps : list A) :
  NoDup ps ->
  no_repeat (f <$> ps) <->
  (forall p q, p ∈ ps -> q ∈ ps -> p <> q -> f p <> 0 -> f p <> f q).
Proof.
  unfold no_repeat. induction ps as [|a ps IH]; intros Hnd.
  { split; [|intros _; apply NoDup_nil_2].
    intros _ p q Hp. by apply elem_of_nil in Hp. }
  apply NoDup_cons in Hnd as [Hna Hnd]. specialize (IH Hnd).
  rewrite fmap_cons, filter_cons. destruct (decide (f a <> 0)) as [Hfa|Hfa].
  - rewrite NoDup_cons, IH, list_elem_of_filter, list_elem_of_fmap. split.
    + intros [Hnin Hall] p q Hp Hq Hpq Hfp.
      apply elem_of_cons in Hp, Hq.
      destruct Hp as [->|Hp], Hq as [->|Hq]; [done| | |by apply Hall].
      * intros Heq. apply Hnin. split; [done|]. by exists q.
      * intros Heq. apply Hnin. split; [done|]. by exists p.
    + intros H. split.
      * intros [_ (q & Heq & Hq)].
        apply (H a q); [apply list_elem_of_here|by apply list_elem_of_further
                       |by intros ->|done|done].
      * intros p q Hp Hq. apply H; by apply list_elem_of_further.
  - rewrite IH. split.
    + intros Hall p q Hp Hq Hpq Hfp. apply elem_of_cons in Hp, Hq.
      destruct Hp as [->|Hp], Hq as [->|Hq]; [done|done| |by apply Hall].
      intros Heq. apply Hfa. by rewrite <- Heq.
    + intros H p q Hp Hq. apply H; by apply list_elem_of_further.
Qed.

Lemma units_NoDup : Forall (fun u : list (Z * Z) => NoDup u) units.
Proof. by_eval. Qed.

Lemma units_in_grid_share :
  Forall (fun u : list (Z * Z) =>
    Forall (fun p : Z * Z =>
      in_grid p.1 p.2 /\
      Forall (fun q : Z * Z => shares_unit p.1 p.2 q.1 q.2) u) u) units.
Proof. by_eval. Qed.

Lemma all_positions_share :
  Forall (fun p : Z * Z =>
    Forall (fun q : Z * Z =>
      shares_unit p.1 p.2 q.1 q.2 ->
      Exists (fun u : list (Z * Z) => p ∈ u /\ q ∈ u) units)
    all_positions) all_positions.
Proof. by_eval. Qed.

Lemma in_grid_all_positions (r c : Z) :
  in_grid r c <-> (r, c) ∈ all_positions.
Proof.
  unfold all_positions. rewrite list_elem_of_bind. split.
  - intros [Hr Hc]. exists r. rewrite list_elem_of_fmap, elem_of_py_range.
    split; [|lia]. exists c. split; [done|]. apply elem_of_py_range. lia.
  - intros (r' & Hin & Hr). apply list_elem_of_fmap in Hin as (c' & [= -> ->] & Hc).
    apply elem_of_py_range in Hr, Hc. split; lia.
Qed.

Lemma consistent_pairwise (g : grid) :
  consistent g <-> pairwise_consistent g.
Proof.
  unfold consistent, pairwise_consistent. rewrite Forall_forall. split.
  - intros H r c r' c' Hin Hin' Hne Hsh Hnz.
    pose proof all_positions_share as Hall.
    rewrite Forall_forall in Hall.
    apply in_grid_all_positions in Hin, Hin'.
    specialize (Hall _ Hin). rewrite Forall_forall in Hall.
    specialize (Hall _ Hin' Hsh). apply Exists_exists in Hall
      as (u & Hu & Hp & Hq).
    specialize (H u Hu). unfold unit_values in H.
    pose proof units_NoDup as Hnd. rewrite Forall_forall in Hnd.
    apply no_repeat_fmap with (p := (r, c)) (q := (r', c')) in H;
      auto.
  - intros H u Hu. unfold unit_values.
    pose proof units_NoDup as Hnd. rewrite Forall_forall in Hnd.
    apply no_repeat_fmap; [by apply Hnd|].
    intros [r c] [r' c'] Hp Hq Hne Hnz.
    pose proof units_in_grid_share as Hall.
    rewrite Forall_forall in Hall. specialize (Hall u Hu).
    rewrite Forall_forall in Hall. pose proof (Hall _ Hq) as [Hinq _].
    specialize (Hall _ Hp) as [Hinp Hsh].
    rewrite Forall_forall in Hsh. specialize (Hsh _ Hq).
    by apply H.
Qed.

Lemma shares_unit_sym (r c r' c' : Z) :
  shares_unit r c r' c' -> shares_unit r' c' r c.
Proof. unfold shares_unit, same_box. intuition. Qed.

(** Writing 0, or a value that no cell of the target's units holds, keeps
    the units free of repeats. *)
Lemma pairwise_update (g : grid) (row col v : Z) :
  shape9 g -> in_grid row col -> pairwise_consistent g ->
  v = 0 \/ ~ held_in_units g row col v ->
  pairwise_consistent (grid_update g row col v).
Proof.
  intros Hg Hin Hcons Hv r c r' c' Hp Hq Hne Hsh.
  rewrite !cell_update by done.
  destruct (decide ((row, col) = (r, c))) as [Hrc|Hrc];
    destruct (decide ((row, col) = (r', c'))) as [Hrc'|Hrc'].
  - congruence.
  - injection Hrc as <- <-. intros Hnz Heq.
    destruct Hv as [?|Hfree]; [done|]. apply Hfree. by exists r', c'.
  - injection Hrc' as <- <-. intros Hnz Heq.
    destruct Hv as [?|Hfree]; [congruence|]. apply Hfree. exists r, c.
    split; [done|]. split; [by apply shares_unit_sym|done].
  - by apply Hcons.
Qed.

(** C4: on a 9x9 board whose 27 units contain no duplicate non-zero digit,
    every successful [place_number] at a target inside the grid leaves a
    board whose 27 units contain no duplicate non-zero digit. *)
Theorem C4_place_number_keeps_units (self self' : SudokuBoard.t)
    (row col v : Z) :
  shape9 (SudokuBoard.board self) -> in_grid row col ->
  consistent (SudokuBoard.board self) ->
  SudokuBoard.place_number row col v self = Ret (true, self') ->
  consistent (SudokuBoard.board self').
Proof.
  intros Hg Hin Hcons Hrun. apply consistent_pairwise in Hcons.
  apply consistent_pairwise. destruct (decide (v = 0)) as [->|Hv].
  - rewrite place_number_zero in Hrun by done. injection Hrun as <-.
    simpl. apply pairwise_update; auto.
  - destruct (place_number_nonzero self row col v Hg Hin Hv)
      as (ok & Hrun' & Hok).
    rewrite Hrun' in Hrun. injection Hrun as -> <-. simpl.
    apply pairwise_update; [done..|]. right. by apply Hok.
Qed.

Lemma C4_place_number_keeps_units_witness :
  consistent (grid_update corner_five 0 1 3).
Proof.
  apply (C4_place_number_keeps_units (board_of corner_five)
           (SudokuBoard.with_board (board_of corner_five)
              (grid_update corner_five 0 1 3)) 0 1 3).
  - by_eval.
  - by_eval.
  - by_eval.
  - reflexivity.
Defined.

(** ** Candidates *)

Lemma discard_cell_shape9 (g : grid) (r c : Z) (s : gset Z) :
  shape9 g -> in_grid r c ->
  SudokuBoard.discard_cell g r c s =
  Ret (if cell g r c =? 0 then s else s ∖ {[cell g r c]}).
Proof.
  intros Hg Hin. unfold SudokuBoard.discard_cell.
  rewrite get_cell_shape9, bind_ret by done.
  by destruct (cell g r c =? 0).
Qed.

(** A [discard] loop over the cells [pos x], [x] in [xs], removes the
    non-zero values of those cells. *)
Lemma for_m_discard {A} (g : grid) (pos : A -> Z * Z)
    (body : A -> gset Z -> outcome (gset Z)) (xs : list A) (s : gset Z) :
  shape9 g ->
  (forall x, x ∈ xs -> in_grid (pos x).1 (pos x).2) ->
  (forall x s, body x s = SudokuBoard.discard_cell g (pos x).1 (pos x).2 s) ->
  exists s', for_m body xs s = Ret s' /\
    forall v, v ∈ s' <->
              v ∈ s /\ ~ (v <> 0 /\ v ∈ unit_values g (pos <$> xs)).
Proof.
  intros Hg Hpos Hbody. revert s.
  induction xs as [|x xs IH]; intros s.
  { exists s. split; [done|]. intros v. split; [|by intros [? _]].
    intros Hv. split; [done|]. intros [_ Hin]. by apply elem_of_nil in Hin. }
  cbn [for_m]. rewrite Hbody, discard_cell_shape9, bind_ret
    by (done || apply Hpos, list_elem_of_here).
  destruct (IH (fun y Hy => Hpos y (list_elem_of_further _ _ _ Hy))
              (if cell g (pos x).1 (pos x).2 =? 0 then s
               else s ∖ {[cell g (pos x).1 (pos x).2]}))
    as (s' & -> & Hs').
  exists s'. split; [done|]. intros v. rewrite Hs'.
  unfold unit_values. rewrite !fmap_cons, elem_of_cons.
  destruct (Z.eqb_spec (cell g (pos x).1 (pos x).2) 0) as [Hz|Hz].
  - rewrite Hz. intuition congruence.
  - rewrite elem_of_difference, elem_of_singleton.
    destruct (decide (v = 0)); intuition congruence.
Qed.

(** The nested [discard] loops over a box. *)
Lemma for_m_discard_box (g : grid) (rows cols : list Z) (s : gset Z) :
  shape9 g ->
  (forall r c, r ∈ rows -> c ∈ cols -> in_grid r c) ->
  exists s',
    for_m (fun r => for_m (fun c => SudokuBoard.discard_cell g r c) cols)
          rows s = Ret s' /\
    forall v, v ∈ s' <->
      v ∈ s /\
      ~ (v <> 0 /\
         v ∈ unit_values g (r ← rows; (fun c => (r, c)) <$> cols)).
Proof.
  intros Hg Hin. revert s. induction rows as [|r rows IH]; intros s.
  { exists s. split; [done|]. intros v. split; [|by intros [? _]].
    intros Hv. split; [done|]. intros [_ H]. by apply elem_of_nil in H. }
  cbn [for_m].
  destruct (for_m_discard g (fun c => (r, c))
              (fun c => SudokuBoard.discard_cell g r c) cols s Hg)
    as (s1 & -> & Hs1).
  { intros c Hc. apply Hin; [apply list_elem_of_here|done]. }
  { done. }
  rewrite bind_ret.
  destruct (IH (fun r' c Hr' Hc => Hin r' c (list_elem_of_further _ _ _ Hr') Hc)
              s1) as (s' & -> & Hs').
  exists s'. split; [done|]. intros v. rewrite Hs', Hs1.
  unfold unit_values. rewrite bind_cons, fmap_app, elem_of_app.
  cbn [fst snd]. tauto.
Qed.

Lemma get_possibilities_shape9 (self : SudokuBoard.t) (row col : Z) :
  shape9 (SudokuBoard.board self) -> in_grid row col ->
  SudokuBoard.get_possibilities row col self =
  Ret (candidates (SudokuBoard.board self) row col, self).
Proof.
  intros Hg Hin. unfold SudokuBoard.get_possibilities, candidates.
  set (g := SudokuBoard.board self) in *.
  rewrite get_cell_shape9, bind_ret by done.
  destruct (Z.eqb_spec (cell g row col) 0) as [Hz|Hz]; cbn [negb];
    [rewrite decide_False by tauto|by rewrite decide_True].
  destruct Hin as [Hr Hc].
  destruct (for_m_discard g (fun c => (row, c))
              (fun c => SudokuBoard.discard_cell g row c) (py_range 0 9)
              (list_to_set (py_range 1 10)) Hg) as (s1 & -> & Hs1).
  { intros c Hc'. apply elem_of_py_range in Hc'. split; simpl; lia. }
  { done. }
  rewrite bind_ret.
  destruct (for_m_discard g (fun r => (r, col))
              (fun r => SudokuBoard.discard_cell g r col) (py_range 0 9)
              s1 Hg) as (s2 & -> & Hs2).
  { intros r Hr'. apply elem_of_py_range in Hr'. split; simpl; lia. }
  { done. }
  rewrite bind_ret. cbv zeta.
  destruct (for_m_discard_box g
              (py_range (row / 3 * 3) (row / 3 * 3 + 3))
              (py_range (col / 3 * 3) (col / 3 * 3 + 3)) s2 Hg)
    as (s3 & -> & Hs3).
  { intros r c Hr' Hc'. apply elem_of_py_range in Hr', Hc'. split; div3. }
  rewrite bind_ret. f_equal. f_equal. apply leibniz_equiv, set_equiv.
  intros v. rewrite Hs3, Hs2, Hs1, !elem_of_difference, !elem_of_list_to_set.
  rewrite elem_of_py_range.
  unfold row_positions, col_positions, box_positions.
  intuition lia.
Qed.

(** C5: on a 9x9 board and for a cell inside the grid, [get_possibilities]
    returns the empty set when the cell is filled and otherwise {1..9}
    minus the values of the row, minus the values of the column, minus the
    values of the 3x3 box with origin (row/3*3, col/3*3); the board object
    it leaves is the one it was given. *)
Theorem C5_get_possibilities (self : SudokuBoard.t) (row col : Z) :
  shape9 (SudokuBoard.board self) -> in_grid row col ->
  let g := SudokuBoard.board self in
  exists s : gset Z,
    SudokuBoard.get_possibilities row col self = Ret (s, self) /\
    (cell g row col <> 0 -> s = ∅) /\
    (cell g row col = 0 ->
     s = list_to_set (py_range 1 10)
           ∖ list_to_set (unit_values g (row_positions row))
           ∖ list_to_set (unit_values g (col_positions col))
           ∖ list_to_set (unit_values g
                            (box_positions (row / 3 * 3) (col / 3 * 3)))).
Proof.
  intros Hg Hin g. exists (candidates g row col).
  split; [by apply get_possibilities_shape9|]. unfold candidates.
  split; intros Hc.
  - by rewrite decide_True.
  - rewrite decide_False; [done|]. by intros [].
Qed.

Lemma C5_get_possibilities_witness :
  exists s : gset Z,
    SudokuBoard.get_possibilities 0 0 (board_of first_row_but_one)
      = Ret (s, board_of first_row_but_one) /\
    elements s = [1].
Proof.
  destruct (C5_get_possibilities (board_of first_row_but_one) 0 0)
    as (s & Hrun & _ & Hs).
  - by_eval.
  - by_eval.
  - exists s. split; [exact Hrun|]. rewrite Hs by reflexivity.
    by vm_compute.
Defined.

(** ** The aggregate candidate map *)

Lemma for_m_app {A S} (body : A -> S -> outcome S) (xs ys : list A) (s : S) :
  for_m body (xs ++ ys) s = (s' ← for_m body xs s; for_m body ys s').
Proof.
  revert s. induction xs as [|x xs IH]; intros s; [done|].
  cbn [for_m app]. destruct (body x s) as [s'| |]; [|done..].
  rewrite !bind_ret. apply IH.
Qed.

Lemma for_m_fmap {A B S} (f : A -> B) (body : B -> S -> outcome S)
    (xs : list A) (s : S) :
  for_m body (f <$> xs) s = for_m (fun x => body (f x)) xs s.
Proof.
  revert s. induction xs as [|x xs IH]; intros s; [done|].
  rewrite fmap_cons. cbn [for_m]. destruct (body (f x) s); [|done..].
  rewrite !bind_ret. apply IH.
Qed.

(** Two nested [for] loops are one loop over the pairs, in the same
    order. *)
Lemma for_m_nested {A B S} (body : A -> B -> S -> outcome S)
    (rows : list A) (cols : list B) (s : S) :
  for_m (fun r => for_m (fun c => body r c) cols) rows s =
  for_m (fun p => body p.1 p.2) (r ← rows; (fun c => (r, c)) <$> cols) s.
Proof.
  revert s. induction rows as [|r rows IH]; intros s; [done|].
  rewrite bind_cons, for_m_app, for_m_fmap. cbn [for_m fst snd].
  destruct (for_m _ cols s); [|done..]. rewrite !bind_ret. apply IH.
Qed.

Lemma dict_set_fresh {K V} `{EqDecision K} (d : dict K V) (k : K) (v : V) :
  k ∉ d.*1 -> dict_set d k v = d ++ [(k, v)].
Proof.
  induction d as [|[k' v'] d IH]; intros Hk; [done|].
  rewrite fmap_cons, not_elem_of_cons in Hk. destruct Hk as [Hne Hk].
  cbn [dict_set]. rewrite decide_False by done. cbn [app]. by rewrite IH.
Qed.

Lemma get_all_possibilities_loop (self : SudokuBoard.t) (ps : list (Z * Z))
    (d : dict (Z * Z) (gset Z)) :
  shape9 (SudokuBoard.board self) ->
  (forall p, p ∈ ps -> in_grid p.1 p.2) ->
  NoDup ((d.*1) ++ ps) ->
  for_m (fun (p : Z * Z) (st : dict (Z * Z) (gset Z) * SudokuBoard.t) =>
           let '(possibilities, self) := st in
           v ← get_cell (SudokuBoard.board self) p.1 p.2;
           if v =? 0 then
             '(poss, self) ← SudokuBoard.get_possibilities p.1 p.2 self;
             if bool_decide (poss <> ∅)
             then Ret (dict_set possibilities (p.1, p.2) poss, self)
             else Ret (possibilities, self)
           else Ret (possibilities, self))
        ps (d, self) =
  Ret (d ++ candidate_entries (SudokuBoard.board self) ps, self).
Proof.
  intros Hg. revert d. induction ps as [|[r c] ps IH]; intros d Hin Hnd.
  { cbn [for_m]. unfold candidate_entries. cbn [mbind list_bind].
    by rewrite app_nil_r. }
  assert (in_grid r c) as Hrc by apply (Hin (r, c)), list_elem_of_here.
  assert (forall p, p ∈ ps -> in_grid p.1 p.2) as Hin'
    by (intros p Hp; by apply Hin, list_elem_of_further).
  cbn [for_m fst snd]. rewrite get_cell_shape9, bind_ret by done.
  unfold candidate_entries. rewrite bind_cons. cbn [fst snd].
  fold (candidate_entries (SudokuBoard.board self) ps).
  assert (((r, c) ∉ (d.*1)) /\ NoDup ((d.*1) ++ ps)) as [Hfresh Hnd'].
  { apply NoDup_app in Hnd as (Hd & Hdis & Hps).
    apply NoDup_cons in Hps as [Hnin Hps]. split.
    - intros Hk. apply (Hdis _ Hk), list_elem_of_here.
    - apply NoDup_app. split; [done|]. split; [|done].
      intros x Hx Hx'. apply (Hdis _ Hx). by apply list_elem_of_further. }
  destruct (Z.eqb_spec (cell (SudokuBoard.board self) r c) 0) as [Hz|Hz].
  - rewrite get_possibilities_shape9, bind_ret by done.
    case_bool_decide as Hne.
    + rewrite decide_True by done. rewrite dict_set_fresh by done.
      rewrite bind_ret, IH; [by rewrite <- app_assoc|done|].
      rewrite fmap_app. cbn [fmap list_fmap fst].
      rewrite <- app_assoc. cbn [app].
      apply NoDup_app in Hnd as (Hd & Hdis & Hps).
      apply NoDup_app. done.
    + rewrite decide_False by tauto. rewrite bind_ret. by apply IH.
  - rewrite decide_False by tauto. rewrite bind_ret. by apply IH.
Qed.

Lemma all_positions_NoDup : NoDup all_positions.
Proof. by_eval. Qed.

Lemma get_all_possibilities_shape9 (self : SudokuBoard.t) :
  shape9 (SudokuBoard.board self) ->
  SudokuBoard.get_all_possibilities self =
  Ret (candidate_entries (SudokuBoard.board self) all_positions, self).
Proof.
  intros Hg. unfold SudokuBoard.get_all_possibilities.
  rewrite (for_m_nested
    (fun (row col : Z) (st : dict (Z * Z) (gset Z) * SudokuBoard.t) =>
       let '(possibilities, self) := st in
       v ← get_cell (SudokuBoard.board self) row col;
       if v =? 0 then
         '(poss, self) ← SudokuBoard.get_possibilities row col self;
         if bool_decide (poss <> ∅)
         then Ret (dict_set possibilities (row, col) poss, self)
         else Ret (possibilities, self)
       else Ret (possibilities, self))).
  cbv beta. fold all_positions.
  apply (get_all_possibilities_loop self all_positions []); [done| |].
  - intros [r c] Hp. by apply in_grid_all_positions.
  - apply all_positions_NoDup.
Qed.

Lemma candidate_entries_keys (g : grid) (ps : list (Z * Z)) (k : Z * Z) :
  k ∈ (candidate_entries g ps).*1 -> k ∈ ps.
Proof.
  unfold candidate_entries. induction ps as [|p ps IH]; [done|].
  rewrite bind_cons, fmap_app, elem_of_app, elem_of_cons.
  intros [Hk|Hk]; [|right; by apply IH]. left. case_decide; simpl in Hk.
  - by apply list_elem_of_singleton in Hk.
  - by apply elem_of_nil in Hk.
Qed.

Lemma candidate_entries_NoDup (g : grid) (ps : list (Z * Z)) :
  NoDup ps -> NoDup (candidate_entries g ps).*1.
Proof.
  induction ps as [|p ps IH]; intros Hnd; [apply NoDup_nil_2|].
  apply NoDup_cons in Hnd as [Hp Hnd]. unfold candidate_entries.
  rewrite bind_cons, fmap_app. fold (candidate_entries g ps).
  case_decide; simpl; [|by apply IH].
  apply NoDup_cons. split; [|by apply IH].
  intros Hk. by apply candidate_entries_keys in Hk.
Qed.

Lemma dict_get_candidate_entries (g : grid) (ps : list (Z * Z))
    (k : Z * Z) (s : gset Z) :
  dict_get (candidate_entries g ps) k = Some s <->
  k ∈ ps /\ cell g k.1 k.2 = 0 /\ candidates g k.1 k.2 <> ∅ /\
  s = candidates g k.1 k.2.
Proof.
  unfold candidate_entries. induction ps as [|p ps IH].
  { split; [done|]. intros [Hk _]. by apply elem_of_nil in Hk. }
  rewrite bind_cons, elem_of_cons. case_decide as Hp; cbn [app dict_get].
  - destruct (decide (p = k)) as [->|Hne].
    + split; [intros [= <-]; tauto|]. intros (_ & _ & _ & ->). done.
    + rewrite IH. split; [tauto|]. intros ([?|?] & ?); [congruence|tauto].
  - rewrite IH. split; [tauto|].
    intros ([->|?] & ? & ? & ?); [tauto|tauto].
Qed.

(** C9: on a 9x9 board the keys of the dictionary returned by
    [get_all_possibilities] are exactly the empty cells whose candidate set
    is not empty (each key present once), every key maps to the set that
    [get_possibilities] returns for that cell, and the board object is left
    as it was; an empty cell with no candidate has no entry. *)
Theorem C9_get_all_possibilities (self : SudokuBoard.t) :
  shape9 (SudokuBoard.board self) ->
  let g := SudokuBoard.board self in
  exists d : dict (Z * Z) (gset Z),
    SudokuBoard.get_all_possibilities self = Ret (d, self) /\
    NoDup (d.*1) /\
    (forall r c s,
       dict_get d (r, c) = Some s <->
       in_grid r c /\ cell g r c = 0 /\ s <> ∅ /\
       SudokuBoard.get_possibilities r c self = Ret (s, self)) /\
    (forall r c,
       in_grid r c -> cell g r c = 0 ->
       SudokuBoard.get_possibilities r c self = Ret (∅, self) ->
       dict_get d (r, c) = None).
Proof.
  intros Hg g. exists (candidate_entries g all_positions).
  split; [by apply get_all_possibilities_shape9|].
  split; [apply candidate_entries_NoDup, all_positions_NoDup|].
  assert (forall r c s,
    dict_get (candidate_entries g all_positions) (r, c) = Some s <->
    in_grid r c /\ cell g r c = 0 /\ s <> ∅ /\
    SudokuBoard.get_possibilities r c self = Ret (s, self)) as Hkeys.
  { intros r c s. rewrite dict_get_candidate_entries.
    rewrite <- in_grid_all_positions. cbn [fst snd]. split.
    - intros (Hin & Hz & Hne & ->).
      by rewrite get_possibilities_shape9.
    - intros (Hin & Hz & Hne & Hrun).
      rewrite get_possibilities_shape9 in Hrun by done.
      injection Hrun as <-. done. }
  split; [exact Hkeys|]. intros r c Hin Hz Hrun.
  destruct (dict_get _ (r, c)) as [s|] eqn:Hget; [|done].
  apply Hkeys in Hget as (_ & _ & Hne & Hrun').
  rewrite Hrun in Hrun'. injection Hrun' as <-. done.
Qed.

Lemma C9_get_all_possibilities_witness :
  exists d : dict (Z * Z) (gset Z),
    SudokuBoard.get_all_possibilities (board_of dead_corner)
      = Ret (d, board_of dead_corner) /\
    dict_get d (0, 0) = None.
Proof.
  destruct (C9_get_all_possibilities (board_of dead_corner))
    as (d & Hrun & _ & _ & Hnone).
  - by_eval.
  - exists d. split; [exact Hrun|]. apply Hnone.
    + by_eval.
    + vm_compute. reflexivity.
    + vm_compute. reflexivity.
Defined.

(** ** Naked and hidden singles *)

Lemma size_1_singleton (s : gset Z) :
  size s = 1%nat <-> exists n, s = {[n]}.
Proof.
  split.
  - intros Hs. apply size_1_elem_of in Hs as [n Hn]. exists n.
    by apply leibniz_equiv.
  - intros [n ->]. apply size_singleton.
Qed.

Lemma dict_get_elem_of {K V} `{EqDecision K} (d : dict K V) (k : K) (v : V) :
  NoDup (d.*1) -> dict_get d k = Some v <-> (k, v) ∈ d.
Proof.
  induction d as [|[k' v'] d IH]; intros Hnd.
  { split; [done|]. intros H. by apply elem_of_nil in H. }
  rewrite fmap_cons in Hnd. apply NoDup_cons in Hnd as [Hk Hnd].
  cbn [dict_get]. rewrite elem_of_cons, <- IH by done.
  case_decide as Heq.
  - subst k'. split; [intros [= ->]; by left|].
    intros [[= ->]|Hget]; [done|]. destruct Hk.
    apply IH in Hget; [|done]. apply list_elem_of_fmap. by exists (k, v).
  - split; [tauto|]. intros [[= -> ->]|?]; [done|done].
Qed.

Lemma triple_singleton_inv (r c n r' c' n' : Z) :
  (r, c, ({[n]} : gset Z)) = (r', c', {[n']}) -> r = r' /\ c = c' /\ n = n'.
Proof.
  intros Heq.
  pose proof (f_equal (fun x : Z * Z * gset Z => x.1.1) Heq) as H1.
  pose proof (f_equal (fun x : Z * Z * gset Z => x.1.2) Heq) as H2.
  pose proof (f_equal snd Heq) as H3. cbn [fst snd] in *.
  split; [done|]. split; [done|].
  assert (n ∈ ({[n']} : gset Z)) as Hn by (rewrite <- H3; set_solver).
  by apply elem_of_singleton in Hn.
Qed.

Lemma find_naked_singles_loop (d : dict (Z * Z) (gset Z))
    (acc : list (Z * Z * Z)) :
  exists l,
    for_m (fun (item : Z * Z * gset Z) (singles : list (Z * Z * Z)) =>
             let '(row, col, poss_set) := item in
             if (size poss_set =? 1)%nat then
               num ← getitem (elements poss_set) 0;
               Ret (singles ++ [(row, col, num)])
             else Ret singles) d acc = Ret (acc ++ l) /\
    (forall r c n, (r, c, n) ∈ l <-> (r, c, ({[n]} : gset Z)) ∈ d) /\
    (l.*1) `sublist_of` (d.*1).
Proof.
  revert acc. induction d as [|[[r c] s] d IH]; intros acc.
  { exists []. split; [by rewrite app_nil_r|]. split; [|done]. intros r c n.
    split; intros H; by apply elem_of_nil in H. }
  cbn [for_m]. destruct (Nat.eqb_spec (size s) 1) as [Hs|Hs].
  - apply size_1_singleton in Hs as [n ->]. rewrite elements_singleton.
    change (getitem [n] 0) with (Ret n). rewrite !bind_ret.
    destruct (IH (acc ++ [(r, c, n)])) as (l & -> & Hl & Hsub).
    exists ((r, c, n) :: l). split; [by rewrite <- app_assoc|].
    split; [|by apply sublist_skip].
    intros r' c' n'. rewrite !elem_of_cons, Hl. split.
    + intros [[= -> -> ->]|?]; tauto.
    + intros [Heq|?]; [|tauto]. left.
      apply triple_singleton_inv in Heq as (-> & -> & ->). done.
  - rewrite bind_ret. destruct (IH acc) as (l & -> & Hl & Hsub).
    exists l. split; [done|]. split; [|by apply sublist_cons].
    intros r' c' n'. rewrite elem_of_cons, Hl.
    split; [tauto|]. intros [Heq|?]; [|done].
    apply (f_equal snd) in Heq. cbn [snd] in Heq. subst s.
    by rewrite size_singleton in Hs.
Qed.

Lemma candidate_entries_sublist (g : grid) (ps : list (Z * Z)) :
  ((candidate_entries g ps).*1) `sublist_of` ps.
Proof.
  unfold candidate_entries. induction ps as [|p ps IH]; [done|].
  rewrite bind_cons, fmap_app. case_decide; cbn [fmap list_fmap app fst].
  - by apply sublist_skip.
  - by apply sublist_cons.
Qed.



(** [find_naked_singles] lists the naked singles of the board, and only
    them, in row-major order. *)
Lemma find_naked_singles_ordered (self : SudokuBoard.t) :
  shape9 (SudokuBoard.board self) ->
  exists l,
    AdvancedSudokuAISolver.find_naked_singles self = Ret l /\
    (forall r c n,
       (r, c, n) ∈ l <-> naked_single (SudokuBoard.board self) r c n) /\
    (l.*1) `sublist_of` all_positions.
Proof.
  intros Hg. unfold AdvancedSudokuAISolver.find_naked_singles.
  rewrite get_all_possibilities_shape9, bind_ret by done.
  destruct (find_naked_singles_loop
              (candidate_entries (SudokuBoard.board self) all_positions) [])
    as (l & -> & Hl & Hsub).
  exists l. split; [done|]. split.
  2:{ etrans; [exact Hsub|]. apply candidate_entries_sublist. }
  intros r c n. rewrite Hl.
  rewrite <- dict_get_elem_of
    by apply candidate_entries_NoDup, all_positions_NoDup.
  rewrite dict_get_candidate_entries. cbn [fst snd].
  unfold naked_single. rewrite in_grid_all_positions. split.
  - intros (Hp & Hz & _ & Hs). done.
  - intros (Hp & Hz & Hs). rewrite Hs. split; [done|]. split; [done|].
    split; [|done]. apply non_empty_singleton_L.
Qed.

Lemma find_naked_singles_shape9 (self : SudokuBoard.t) :
  shape9 (SudokuBoard.board self) ->
  exists l,
    AdvancedSudokuAISolver.find_naked_singles self = Ret l /\
    forall r c n,
      (r, c, n) ∈ l <-> naked_single (SudokuBoard.board self) r c n.
Proof.
  intros Hg. destruct (find_naked_singles_ordered self Hg) as (l & ? & ? & _).
  by exists l.
Qed.

Lemma filter_singleton_iff (P : Z -> Prop) `{!forall x, Decision (P x)}
    (l : list Z) (c : Z) :
  NoDup l ->
  filter P l = [c] <-> c ∈ l /\ P c /\ forall c', c' ∈ l -> P c' -> c' = c.
Proof.
  intros Hnd. split.
  - intros Hf.
    assert (forall x, x ∈ filter P l <-> x = c) as Hmem
      by (intros x; rewrite Hf; apply list_elem_of_singleton).
    setoid_rewrite list_elem_of_filter in Hmem.
    destruct (proj2 (Hmem c) eq_refl) as [HP Hin].
    split; [done|]. split; [done|]. intros c' Hc' HP'. by apply Hmem.
  - intros (Hin & HP & Huniq).
    assert (NoDup (filter P l)) as Hnd' by by apply NoDup_filter.
    assert (c ∈ filter P l) as Hc by by apply list_elem_of_filter.
    assert (forall x, x ∈ filter P l -> x = c) as Hall.
    { intros x Hx. apply list_elem_of_filter in Hx as [? ?]. by apply Huniq. }
    destruct (filter P l) as [|x [|y l']].
    + by apply elem_of_nil in Hc.
    + f_equal. apply Hall, list_elem_of_here.
    + apply NoDup_cons in Hnd' as [Hx _]. destruct Hx.
      rewrite (Hall x), (Hall y);
        [apply list_elem_of_here
        |apply list_elem_of_further, list_elem_of_here
        |apply list_elem_of_here].
Qed.

(** The inner loop of the hidden-single searches keeps the positions whose
    cell has [num] among its candidates. *)
Lemma possible_positions_loop (self : SudokuBoard.t) (num : Z)
    (cell_of : Z -> Z * Z) (xs acc : list Z) :
  shape9 (SudokuBoard.board self) ->
  (forall i, i ∈ xs -> in_grid (cell_of i).1 (cell_of i).2) ->
  for_m (fun (i : Z) (positions : list Z) =>
           let '(row, col) := cell_of i in
           v ← get_cell (SudokuBoard.board self) row col;
           if v =? 0 then
             '(possibilities, _) ←
               SudokuBoard.get_possibilities row col self;
             if bool_decide (num ∈ possibilities)
             then Ret (positions ++ [i])
             else Ret positions
           else Ret positions) xs acc =
  Ret (acc ++ filter (fun i => num ∈ candidates (SudokuBoard.board self)
                                       (cell_of i).1 (cell_of i).2) xs).
Proof.
  intros Hg. revert acc. induction xs as [|i xs IH]; intros acc Hin.
  { by rewrite filter_nil, app_nil_r. }
  cbn [for_m]. pose proof (Hin i (list_elem_of_here _ _)) as Hi.
  assert (forall i0, i0 ∈ xs -> in_grid (cell_of i0).1 (cell_of i0).2)
    as Hin' by (intros i0 Hi0; by apply Hin, list_elem_of_further).
  rewrite filter_cons.
  destruct (cell_of i) as [r c] eqn:Hci. cbn [fst snd] in *.
  rewrite get_cell_shape9, bind_ret by done.
  destruct (Z.eqb_spec (cell (SudokuBoard.board self) r c) 0) as [Hz|Hz].
  - rewrite get_possibilities_shape9, bind_ret by done.
    case_bool_decide as Hn.
    + rewrite decide_True by done. rewrite bind_ret, IH by done.
      by rewrite <- app_assoc.
    + rewrite decide_False by done. rewrite bind_ret. by apply IH.
  - rewrite decide_False.
    + rewrite bind_ret. by apply IH.
    + unfold candidates. rewrite decide_True by done. set_solver.
Qed.

Lemma possible_positions_shape9 (self : SudokuBoard.t) (num : Z)
    (cell_of : Z -> Z * Z) :
  shape9 (SudokuBoard.board self) ->
  (forall i, 0 <= i <= 8 -> in_grid (cell_of i).1 (cell_of i).2) ->
  AdvancedSudokuAISolver.possible_positions self num cell_of =
  Ret (filter (fun i => num ∈ candidates (SudokuBoard.board self)
                                 (cell_of i).1 (cell_of i).2)
              (py_range 0 9)).
Proof.
  intros Hg Hcell. unfold AdvancedSudokuAISolver.possible_positions.
  rewrite possible_positions_loop; [done..|].
  intros i Hi. apply elem_of_py_range in Hi. apply Hcell. lia.
Qed.

Lemma py_range_NoDup (lo hi : Z) : NoDup (py_range lo hi).
Proof. apply NoDup_seqZ. Qed.

Lemma length_1_inv {A} (l : list A) : length l = 1%nat -> exists x, l = [x].
Proof. destruct l as [|x [|y l]]; try done. by exists x. Qed.

(** The outer loop of the two hidden-single searches: [present] is the test
    that skips a digit the unit already holds, [cell_of] maps a position of
    the unit to its cell and [tuple] builds the reported triple. *)
Lemma hidden_singles_loop (self : SudokuBoard.t) (cell_of : Z -> Z * Z)
    (tuple : Z -> Z -> Z * Z * Z) (present : Z -> bool)
    (body : Z -> list (Z * Z * Z) -> outcome (list (Z * Z * Z)))
    (nums : list Z) (acc : list (Z * Z * Z)) :
  shape9 (SudokuBoard.board self) ->
  (forall i, 0 <= i <= 8 -> in_grid (cell_of i).1 (cell_of i).2) ->
  (forall i n, (tuple i n).2 = n) ->
  (forall num hs,
     body num hs =
     if present num then Ret hs else
     positions ← AdvancedSudokuAISolver.possible_positions self num cell_of;
     if (length positions =? 1)%nat then
       i ← getitem positions 0;
       Ret (hs ++ [tuple i num])
     else Ret hs) ->
  exists l,
    for_m body nums acc = Ret (acc ++ l) /\
    (forall t, t ∈ l <->
      exists i n,
        t = tuple i n /\ n ∈ nums /\ present n = false /\ 0 <= i <= 8 /\
        n ∈ candidates (SudokuBoard.board self) (cell_of i).1 (cell_of i).2 /\
        forall j, 0 <= j <= 8 ->
          n ∈ candidates (SudokuBoard.board self) (cell_of j).1 (cell_of j).2 ->
          j = i) /\
    (l.*2) `sublist_of` nums.
Proof.
  intros Hg Hcell Htuple Hbody. revert acc.
  induction nums as [|num nums IH]; intros acc.
  { exists []. split; [by rewrite app_nil_r|]. split; [|done].
    intros t. split.
    - intros H. by apply elem_of_nil in H.
    - intros (i & n & _ & H & _). by apply elem_of_nil in H. }
  cbn [for_m]. rewrite Hbody.
  set (P := fun i : Z => num ∈ candidates (SudokuBoard.board self)
                                 (cell_of i).1 (cell_of i).2).
  assert (forall c, filter P (py_range 0 9) = [c] <->
            0 <= c <= 8 /\ P c /\ forall j, 0 <= j <= 8 -> P j -> j = c)
    as Hsingle.
  { intros c. rewrite filter_singleton_iff by apply py_range_NoDup.
    rewrite elem_of_py_range. split.
    - intros (? & ? & Hu). split; [lia|]. split; [done|].
      intros j Hj. apply Hu, elem_of_py_range. lia.
    - intros (? & ? & Hu). split; [lia|]. split; [done|].
      intros j Hj. apply Hu. apply elem_of_py_range in Hj. lia. }
  destruct (present num) eqn:Hpres.
  { rewrite bind_ret. destruct (IH acc) as (l & -> & Hl & Hsub). exists l.
    split; [done|]. split; [|by apply sublist_cons].
    intros t. rewrite Hl. split.
    - intros (i & n & ? & ? & ?). exists i, n.
      split; [done|]. split; [by apply list_elem_of_further|done].
    - intros (i & n & ? & Hn & Hp & ?). exists i, n.
      apply elem_of_cons in Hn as [->|Hn]; [congruence|done]. }
  rewrite possible_positions_shape9, bind_ret by done. fold P.
  destruct (Nat.eqb_spec (length (filter P (py_range 0 9))) 1) as [Hlen|Hlen].
  - apply length_1_inv in Hlen as [c Hc]. rewrite Hc.
    change (getitem [c] 0) with (Ret c). rewrite !bind_ret.
    destruct (IH (acc ++ [tuple c num])) as (l & -> & Hl & Hsub).
    exists (tuple c num :: l). split; [by rewrite <- app_assoc|].
    split; [|rewrite fmap_cons, Htuple; by apply sublist_skip].
    apply Hsingle in Hc as (Hc & HPc & Hu).
    intros t. rewrite elem_of_cons, Hl. split.
    + intros [->|(i & n & ? & ? & ?)].
      * exists c, num. split; [done|]. split; [apply list_elem_of_here|].
        done.
      * exists i, n. split; [done|].
        split; [by apply list_elem_of_further|done].
    + intros (i & n & -> & Hn & Hp & Hi & Hcand & Hu').
      apply elem_of_cons in Hn as [->|Hn].
      * left. f_equal. symmetry. by apply Hu'.
      * right. by exists i, n.
  - rewrite bind_ret. destruct (IH acc) as (l & -> & Hl & Hsub). exists l.
    split; [done|]. split; [|by apply sublist_cons].
    intros t. rewrite Hl. split.
    + intros (i & n & ? & ? & ?). exists i, n.
      split; [done|]. split; [by apply list_elem_of_further|done].
    + intros (i & n & -> & Hn & Hp & Hi & Hcand & Hu').
      apply elem_of_cons in Hn as [->|Hn]; [|by exists i, n].
      destruct Hlen. by rewrite (proj2 (Hsingle i)).
Qed.

(** [find_hidden_singles_in_row] lists the hidden singles of the row, and
    only them, by increasing digit. *)
Lemma find_hidden_singles_in_row_ordered (self : SudokuBoard.t) (row : Z) :
  shape9 (SudokuBoard.board self) -> 0 <= row <= 8 ->
  exists l,
    AdvancedSudokuAISolver.find_hidden_singles_in_row row self = Ret l /\
    (forall r c n,
       (r, c, n) ∈ l <->
       r = row /\ hidden_single_in_row (SudokuBoard.board self) row c n) /\
    (l.*2) `sublist_of` py_range 1 10.
Proof.
  intros Hg Hrow. unfold AdvancedSudokuAISolver.find_hidden_singles_in_row.
  set (g := SudokuBoard.board self) in *.
  destruct (hidden_singles_loop self (fun col => (row, col))
              (fun col num => (row, col, num))
              (fun num => bool_decide (num ∈ g !!! Z.to_nat row))
              (fun (num : Z) (hidden_singles : list (Z * Z * Z)) =>
                 r ← getitem g row;
                 if bool_decide (num ∈ r) then Ret hidden_singles else
                 positions ← AdvancedSudokuAISolver.possible_positions
                               self num (fun col => (row, col));
                 if (length positions =? 1)%nat then
                   col ← getitem positions 0;
                   Ret (hidden_singles ++ [(row, col, num)])
                 else Ret hidden_singles)
              (py_range 1 10) [] Hg) as (l & Hrun & Hl & Hsub).
  { intros i Hi. split; simpl; lia. }
  { done. }
  { intros num hs. by rewrite getitem_row, bind_ret. }
  exists l. split; [exact Hrun|]. split; [|exact Hsub].
  intros r c n. rewrite Hl.
  unfold hidden_single_in_row, in_grid. cbn [fst snd]. split.
  - intros (i & n' & [= -> -> ->] & Hn & Hp & Hi & Hcand & Hu).
    apply elem_of_py_range in Hn. apply bool_decide_eq_false in Hp.
    split; [done|]. repeat split; try lia; try done.
    intros c' Hc' Heq. apply Hp. rewrite <- Heq.
    apply cell_elem_of_row; [done|]. split; lia.
  - intros (-> & [_ Hc] & Hn & Habs & Hcand & Hu). exists c, n.
    split; [done|]. split; [apply elem_of_py_range; lia|].
    split; [|done]. apply bool_decide_eq_false. intros Hin.
    destruct (elem_of_row_cell g row n Hg Hrow Hin) as (c' & Hc' & Hv).
    by apply (Habs c').
Qed.

Lemma find_hidden_singles_in_row_shape9 (self : SudokuBoard.t) (row : Z) :
  shape9 (SudokuBoard.board self) -> 0 <= row <= 8 ->
  exists l,
    AdvancedSudokuAISolver.find_hidden_singles_in_row row self = Ret l /\
    forall r c n,
      (r, c, n) ∈ l <->
      r = row /\ hidden_single_in_row (SudokuBoard.board self) row c n.
Proof.
  intros Hg Hrow.
  destruct (find_hidden_singles_in_row_ordered self row Hg Hrow)
    as (l & ? & ? & _).
  by exists l.
Qed.

(** [find_hidden_singles_in_column] lists the hidden singles of the column,
    and only them, by increasing digit. *)
Lemma find_hidden_singles_in_column_ordered (self : SudokuBoard.t)
    (col : Z) :
  shape9 (SudokuBoard.board self) -> 0 <= col <= 8 ->
  exists l,
    AdvancedSudokuAISolver.find_hidden_singles_in_column col self = Ret l /\
    (forall r c n,
       (r, c, n) ∈ l <->
       c = col /\ hidden_single_in_column (SudokuBoard.board self) r col n) /\
    (l.*2) `sublist_of` py_range 1 10.
Proof.
  intros Hg Hcol.
  unfold AdvancedSudokuAISolver.find_hidden_singles_in_column.
  set (g := SudokuBoard.board self) in *.
  destruct (hidden_singles_loop self (fun row => (row, col))
              (fun row num => (row, col, num))
              (fun num => existsb (fun r => cell g r col =? num)
                                  (py_range 0 9))
              (fun (num : Z) (hidden_singles : list (Z * Z * Z)) =>
                 in_col ← any_m (fun r : Z =>
                             v ← get_cell g r col; Ret (v =? num))
                           (py_range 0 9);
                 if in_col : bool then Ret hidden_singles else
                 positions ← AdvancedSudokuAISolver.possible_positions
                               self num (fun row => (row, col));
                 if (length positions =? 1)%nat then
                   row ← getitem positions 0;
                   Ret (hidden_singles ++ [(row, col, num)])
                 else Ret hidden_singles)
              (py_range 1 10) [] Hg) as (l & Hrun & Hl & Hsub).
  { intros i Hi. split; simpl; lia. }
  { done. }
  { intros num hs.
    rewrite (any_m_ret _ (fun r => cell g r col =? num)), bind_ret; [done|].
    intros r Hr. apply elem_of_py_range in Hr. cbv beta.
    rewrite get_cell_shape9 by (done || split; lia). done. }
  exists l. split; [exact Hrun|]. split; [|exact Hsub].
  intros r c n. rewrite Hl.
  unfold hidden_single_in_column, in_grid. cbn [fst snd]. split.
  - intros (i & n' & [= -> -> ->] & Hn & Hp & Hi & Hcand & Hu).
    apply elem_of_py_range in Hn.
    split; [done|]. repeat split; try lia; try done.
    intros r' Hr' Heq.
    apply (existsb_false_elem _ _ r') in Hp; [|apply elem_of_py_range; lia].
    apply Z.eqb_neq in Hp. done.
  - intros (-> & [Hr _] & Hn & Habs & Hcand & Hu). exists r, n.
    split; [done|]. split; [apply elem_of_py_range; lia|].
    split; [|done]. destruct (existsb _ _) eqn:Hex; [|done].
    apply existsb_elem in Hex as (r' & Hr' & Hv).
    apply elem_of_py_range in Hr'. apply Z.eqb_eq in Hv.
    destruct (Habs r'); [lia|done].
Qed.

Lemma find_hidden_singles_in_column_shape9 (self : SudokuBoard.t) (col : Z) :
  shape9 (SudokuBoard.board self) -> 0 <= col <= 8 ->
  exists l,
    AdvancedSudokuAISolver.find_hidden_singles_in_column col self = Ret l /\
    forall r c n,
      (r, c, n) ∈ l <->
      c = col /\ hidden_single_in_column (SudokuBoard.board self) r col n.
Proof.
  intros Hg Hcol.
  destruct (find_hidden_singles_in_column_ordered self col Hg Hcol)
    as (l & ? & ? & _).
  by exists l.
Qed.


(** A search loop over [lo, lo+1, ...] stops at the first index where its
    body finds something. *)
Lemma first_m_seqZ {B} (body : Z -> outcome (option B))
    (Q : Z -> option B -> Prop) (lo : Z) (n : nat) :
  (forall x, lo <= x < lo + Z.of_nat n -> exists o, body x = Ret o /\ Q x o) ->
  exists res,
    first_m body (seqZ lo (Z.of_nat n)) = Ret res /\
    match res with
    | Some b =>
        exists x, lo <= x < lo + Z.of_nat n /\ Q x (Some b) /\
                  forall y, lo <= y < x -> Q y None
    | None => forall x, lo <= x < lo + Z.of_nat n -> Q x None
    end.
Proof.
  revert lo. induction n as [|n IH]; intros lo Hbody.
  { exists None. split; [done|]. intros x Hx. lia. }
  rewrite seqZ_cons by lia.
  replace (Z.pred (Z.of_nat (S n))) with (Z.of_nat n) by lia.
  cbn [first_m]. destruct (Hbody lo) as (o & -> & Ho); [lia|].
  rewrite bind_ret. destruct o as [b|].
  - exists (Some b). split; [done|]. exists lo.
    split; [lia|]. split; [done|]. intros y Hy. lia.
  - destruct (IH (Z.succ lo)) as (res & -> & Hres).
    { intros x Hx. apply Hbody. lia. }
    exists res. split; [done|]. destruct res as [b|].
    + destruct Hres as (x & Hx & HQ & Hbefore). exists x.
      split; [lia|]. split; [done|]. intros y Hy.
      destruct (decide (y = lo)) as [->|Hne]; [done|]. apply Hbefore. lia.
    + intros x Hx. destruct (decide (x = lo)) as [->|Hne]; [done|].
      apply Hres. lia.
Qed.




(** ** Grids of any shape: reading, writing and writing back *)

Lemma py_index_length {A B} (l : list A) (l' : list B) (i : Z) :
  length l = length l' -> py_index l' i = py_index l i.
Proof. intros Hlen. unfold py_index. by rewrite Hlen. Qed.

Lemma py_index_lt {A} (l : list A) (i : Z) (k : nat) :
  py_index l i = Ret k -> (k < length l)%nat.
Proof.
  unfold py_index. destruct (_ && _) eqn:Hb; [|done]. intros [= <-].
  apply andb_prop in Hb as [H1 H2]. lia.
Qed.

Lemma get_cell_inv (g : grid) (r c v : Z) :
  get_cell g r c = Ret v ->
  exists i j row,
    py_index g r = Ret i /\ g !! i = Some row /\
    py_index row c = Ret j /\ row !! j = Some v.
Proof.
  unfold get_cell, getitem. intros H.
  apply bind_returns in H as (row & H & Hc).
  apply bind_returns in H as (i & Hi & Hrow).
  apply bind_returns in Hc as (j & Hj & Hv).
  destruct (g !! i) as [row'|] eqn:Hgi; [|done]. injection Hrow as ->.
  destruct (row !! j) as [v'|] eqn:Hrj; [|done]. injection Hv as ->.
  by exists i, j, row.
Qed.

Lemma filter_zero_insert (row : list Z) (j : nat) (w : Z) :
  row !! j = Some 0 -> w <> 0 ->
  S (length (filter (fun v => v = 0) (<[j:=w]> row)))
  = length (filter (fun v => v = 0) row).
Proof.
  intros Hj Hw. rewrite insert_take_drop by by eapply lookup_lt_Some.
  rewrite <- (take_drop_middle row j 0) at 3 by done.
  rewrite !filter_app, !length_app, !filter_cons.
  rewrite decide_False by done. rewrite decide_True by done. simpl. lia.
Qed.

Lemma empty_count_insert (g : grid) (i : nat) (row row' : list Z) :
  g !! i = Some row ->
  S (length (filter (fun v => v = 0) row'))
  = length (filter (fun v => v = 0) row) ->
  S (empty_count (<[i:=row']> g)) = empty_count g.
Proof.
  intros Hi Hlen. unfold empty_count.
  rewrite insert_take_drop by by eapply lookup_lt_Some.
  rewrite <- (take_drop_middle g i row) at 3 by done.
  rewrite !concat_app, !concat_cons, !filter_app, !length_app. lia.
Qed.

(** A cell that can be read can be written; the written value is read back,
    cells keep their places, and writing the old value back restores the
    grid. Filling an empty cell leaves one empty cell less. *)
Lemma set_cell_get_cell (g : grid) (r c v w : Z) :
  get_cell g r c = Ret v ->
  exists g',
    set_cell g r c w = Ret g' /\
    get_cell g' r c = Ret w /\
    set_cell g' r c v = Ret g /\
    (v = 0 -> w <> 0 -> S (empty_count g') = empty_count g).
Proof.
  intros H. apply get_cell_inv in H as (i & j & row & Hi & Hgi & Hj & Hrj).
  pose proof (py_index_lt _ _ _ Hi) as Hilt.
  pose proof (py_index_lt _ _ _ Hj) as Hjlt.
  exists (<[i := <[j := w]> row]> g).
  assert (forall (g0 : grid) (row0 : list Z) x,
            length g0 = length g -> g0 !! i = Some row0 ->
            length row0 = length row ->
            set_cell g0 r c x = Ret (<[i := <[j := x]> row0]> g0)) as Hset.
  { intros g0 row0 x Hl0 Hg0 Hr0. unfold set_cell, getitem, setitem.
    rewrite (py_index_length g g0), Hi, !bind_ret by done.
    rewrite Hg0, bind_ret.
    rewrite (py_index_length row row0), Hj, !bind_ret by done. done. }
  split; [by apply Hset|]. split; [|split].
  - unfold get_cell, getitem.
    rewrite (py_index_length g), Hi, !bind_ret by by rewrite length_insert.
    rewrite list_lookup_insert_eq, bind_ret by done.
    rewrite (py_index_length row), Hj, !bind_ret by by rewrite length_insert.
    by rewrite list_lookup_insert_eq.
  - rewrite (Hset _ (<[j:=w]> row));
      [|by rewrite length_insert|by rewrite list_lookup_insert_eq
       |by rewrite length_insert].
    f_equal. rewrite list_insert_insert_eq.
    rewrite list_insert_insert_eq.
    rewrite (list_insert_id row) by done. by apply list_insert_id.
  - intros -> Hw. apply (empty_count_insert g i row); [done|].
    by apply filter_zero_insert.
Qed.

(** ** Nothing but the two searches needs fuel *)

Lemma finishes_bind {A B} (m : outcome A) (f : A -> outcome B) :
  finishes m -> (forall a, m = Ret a -> finishes (f a)) -> finishes (m ≫= f).
Proof. destruct m as [a| |]; [|done..]. intros _ Hf. by apply Hf. Qed.

Lemma finishes_py_index {A} (l : list A) (i : Z) : finishes (py_index l i).
Proof. unfold py_index. by destruct (_ && _). Qed.

Lemma finishes_getitem {A} (l : list A) (i : Z) : finishes (getitem l i).
Proof.
  apply finishes_bind; [apply finishes_py_index|].
  intros k _. by destruct (l !! k).
Qed.

Lemma finishes_get_cell (g : grid) (r c : Z) : finishes (get_cell g r c).
Proof.
  apply finishes_bind; [apply finishes_getitem|].
  intros row _. apply finishes_getitem.
Qed.

Lemma finishes_any_m {A} (body : A -> outcome bool) (xs : list A) :
  (forall x, finishes (body x)) -> finishes (any_m body xs).
Proof.
  intros Hbody. induction xs as [|x xs IH]; [done|]. cbn [any_m].
  apply finishes_bind; [done|]. by intros [|] _.
Qed.

Lemma finishes_first_m {A B} (body : A -> outcome (option B)) (xs : list A) :
  (forall x, finishes (body x)) -> finishes (first_m body xs).
Proof.
  intros Hbody. induction xs as [|x xs IH]; [done|]. cbn [first_m].
  apply finishes_bind; [done|]. by intros [b|] _.
Qed.

Lemma finishes_find_empty_cell (g : grid) :
  finishes (SudokuBoard._find_empty_cell g).
Proof.
  apply finishes_first_m. intros row. apply finishes_first_m. intros col.
  apply finishes_bind; [apply finishes_get_cell|].
  intros v _. by destruct (v =? 0).
Qed.

Lemma finishes_is_valid_placement (g : grid) (row col num : Z) :
  finishes (SudokuBoard._is_valid_placement g row col num).
Proof.
  apply finishes_bind; [apply finishes_getitem|]. intros r _.
  case_bool_decide; [done|].
  apply finishes_bind.
  { apply finishes_any_m. intros x.
    apply finishes_bind; [apply finishes_get_cell|]. done. }
  intros [|] _; [done|]. cbv zeta. apply finishes_bind.
  { apply finishes_any_m. intros x. apply finishes_any_m. intros y.
    apply finishes_bind; [apply finishes_get_cell|]. done. }
  by intros [|] _.
Qed.

Lemma first_m_Some {A B} (body : A -> outcome (option B)) (xs : list A)
    (b : B) :
  first_m body xs = Ret (Some b) -> exists x, x ∈ xs /\ body x = Ret (Some b).
Proof.
  induction xs as [|x xs IH]; [done|]. cbn [first_m]. intros H.
  apply bind_returns in H as (o & Hx & H). destruct o as [b'|].
  - injection H as ->. exists x. split; [apply list_elem_of_here|done].
  - destruct (IH H) as (y & Hy & Hb). exists y.
    split; [by apply list_elem_of_further|done].
Qed.

(** The cell that [_find_empty_cell] returns lies in the grid and reads 0. *)
Lemma find_empty_cell_Some (g : grid) (r c : Z) :
  SudokuBoard._find_empty_cell g = Ret (Some (r, c)) ->
  in_grid r c /\ get_cell g r c = Ret 0.
Proof.
  intros H. apply first_m_Some in H as (row & Hrow & H).
  apply first_m_Some in H as (col & Hcol & H).
  apply elem_of_py_range in Hrow, Hcol.
  apply bind_returns in H as (v & Hv & H).
  destruct (Z.eqb_spec v 0) as [->|_]; [|done].
  injection H as <- <-. split; [split; lia|done].
Qed.

(** A digit that passes the placement rule at an empty cell is not 0. *)
Lemma valid_placement_nonzero (g : grid) (r c num : Z) :
  get_cell g r c = Ret 0 ->
  SudokuBoard._is_valid_placement g r c num = Ret true -> num <> 0.
Proof.
  intros Hz Hv ->. apply get_cell_inv in Hz as (i & j & row & Hi & Hgi & Hj & Hrj).
  unfold SudokuBoard._is_valid_placement, getitem in Hv.
  rewrite Hi, bind_ret, Hgi, bind_ret in Hv.
  rewrite bool_decide_eq_true_2 in Hv; [done|].
  by eapply list_elem_of_lookup_2.
Qed.

(** ** The searches terminate and undo what they tried *)

(** The generator's private helpers are copies of the board's. *)
Lemma generator_find_empty_cell (g : grid) :
  SudokuPuzzleGenerator._find_empty_cell g = SudokuBoard._find_empty_cell g.
Proof. reflexivity. Qed.

Lemma generator_is_valid (g : grid) (row col num : Z) :
  SudokuPuzzleGenerator._is_valid g row col num
  = SudokuBoard._is_valid_placement g row col num.
Proof. reflexivity. Qed.

Lemma try_numbers_frame (rec : grid -> outcome (bool * grid)) (n : nat)
    (r c : Z) (nums : list Z) (g : grid) :
  (forall g1, (empty_count g1 < n)%nat ->
     match rec g1 with
     | Ret (ok, g2) => ok = false -> g2 = g1
     | Raise _ => True
     | OutOfFuel => False
     end) ->
  get_cell g r c = Ret 0 -> (empty_count g <= n)%nat ->
  match SudokuBoard.try_numbers rec r c nums g with
  | Ret (ok, g') => ok = false -> g' = g
  | Raise _ => True
  | OutOfFuel => False
  end.
Proof.
  intros Hrec Hz Hn. induction nums as [|num nums IH]; [done|].
  cbn [SudokuBoard.try_numbers].
  pose proof (finishes_is_valid_placement g r c num) as Hfin.
  destruct (SudokuBoard._is_valid_placement g r c num) as [[|]|e|] eqn:Hv;
    [|by rewrite bind_ret|done|done].
  rewrite bind_ret.
  destruct (set_cell_get_cell g r c 0 num Hz) as (g1 & -> & _ & Hback & Hcnt).
  rewrite bind_ret. specialize (Hcnt eq_refl (valid_placement_nonzero _ _ _ _ Hz Hv)).
  specialize (Hrec g1 ltac:(lia)).
  destruct (rec g1) as [[[|] g2]|e|]; [done| |done|done].
  rewrite bind_ret. rewrite (Hrec eq_refl), Hback, bind_ret. exact IH.
Qed.

Lemma solve_frame (fuel : nat) (g : grid) :
  (empty_count g < fuel)%nat ->
  match SudokuBoard.solve fuel g with
  | Ret (ok, g') => ok = false -> g' = g
  | Raise _ => True
  | OutOfFuel => False
  end.
Proof.
  revert g. induction fuel as [|fuel IH]; intros g Hfuel; [lia|].
  cbn [SudokuBoard.solve].
  pose proof (finishes_find_empty_cell g) as Hfin.
  destruct (SudokuBoard._find_empty_cell g) as [[[r c]|]|e|] eqn:Hfind;
    [|done|done|done].
  rewrite bind_ret. apply find_empty_cell_Some in Hfind as [_ Hz].
  apply (try_numbers_frame _ fuel); [exact IH|done|lia].
Qed.

Section GeneratorFrame.
Context {R : Type} `{!RandomSource R}.

Lemma generator_try_numbers_frame
    (rec : R -> grid -> outcome (bool * grid * R)) (n : nat)
    (r c : Z) (nums : list Z) (rng : R) (g : grid) :
  (forall rng1 g1, (empty_count g1 < n)%nat ->
     match rec rng1 g1 with
     | Ret (ok, g2, _) => ok = false -> g2 = g1
     | Raise _ => True
     | OutOfFuel => False
     end) ->
  get_cell g r c = Ret 0 -> (empty_count g <= n)%nat ->
  match SudokuPuzzleGenerator.try_numbers rec r c nums rng g with
  | Ret (ok, g', _) => ok = false -> g' = g
  | Raise _ => True
  | OutOfFuel => False
  end.
Proof.
  intros Hrec Hz Hn. revert rng.
  induction nums as [|num nums IH]; intros rng; [done|].
  cbn [SudokuPuzzleGenerator.try_numbers]. rewrite generator_is_valid.
  pose proof (finishes_is_valid_placement g r c num) as Hfin.
  destruct (SudokuBoard._is_valid_placement g r c num) as [[|]|e|] eqn:Hv;
    [|rewrite bind_ret; apply IH|done|done].
  rewrite bind_ret.
  destruct (set_cell_get_cell g r c 0 num Hz) as (g1 & -> & _ & Hback & Hcnt).
  rewrite bind_ret. specialize (Hcnt eq_refl (valid_placement_nonzero _ _ _ _ Hz Hv)).
  specialize (Hrec rng g1 ltac:(lia)).
  destruct (rec rng g1) as [[[[|] g2] rng2]|e|]; [done| |done|done].
  rewrite bind_ret. rewrite (Hrec eq_refl), Hback, bind_ret. apply IH.
Qed.

Lemma fill_frame (fuel : nat) (rng : R) (g : grid) :
  (empty_count g < fuel)%nat ->
  match SudokuPuzzleGenerator.fill fuel rng g with
  | Ret (ok, g', _) => ok = false -> g' = g
  | Raise _ => True
  | OutOfFuel => False
  end.
Proof.
  revert rng g. induction fuel as [|fuel IH]; intros rng g Hfuel; [lia|].
  cbn [SudokuPuzzleGenerator.fill]. rewrite generator_find_empty_cell.
  pose proof (finishes_find_empty_cell g) as Hfin.
  destruct (SudokuBoard._find_empty_cell g) as [[[r c]|]|e|] eqn:Hfind;
    [|done|done|done].
  rewrite bind_ret. apply find_empty_cell_Some in Hfind as [_ Hz].
  destruct (shuffle (py_range 1 10) rng) as [numbers rng'].
  apply (generator_try_numbers_frame _ fuel); [exact IH|done|lia].
Qed.

End GeneratorFrame.



(** ** The solver on a 9x9 grid *)

Lemma find_empty_cell_shape9 (g : grid) :
  shape9 g ->
  exists o, SudokuBoard._find_empty_cell g = Ret o /\
    match o with
    | Some (r, c) => in_grid r c /\ cell g r c = 0
    | None => complete g
    end.
Proof.
  intros Hg. unfold SudokuBoard._find_empty_cell.
  change (py_range 0 9) with (seqZ 0 (Z.of_nat 9)).
  destruct (first_m_seqZ
    (fun row : Z =>
       first_m (fun col : Z =>
                  v ← get_cell g row col;
                  if v =? 0 then Ret (Some (row, col)) else Ret None)
               (seqZ 0 (Z.of_nat 9)))
    (fun row o =>
       match o with
       | Some (r, c) => in_grid r c /\ cell g r c = 0
       | None => forall c, 0 <= c <= 8 -> cell g row c <> 0
       end) 0 9) as (o & -> & Ho).
  { intros row Hrow.
    destruct (first_m_seqZ
      (fun col : Z =>
         v ← get_cell g row col;
         if v =? 0 then Ret (Some (row, col)) else Ret None)
      (fun col o =>
         match o with
         | Some (r, c) => in_grid r c /\ cell g r c = 0
         | None => cell g row col <> 0
         end) 0 9) as (o & -> & Ho).
    { intros col Hcol. rewrite get_cell_shape9, bind_ret by (done || split; lia).
      destruct (Z.eqb_spec (cell g row col) 0) as [Hz|Hz].
      - eexists. split; [done|]. split; [split; lia|done].
      - by eexists. }
    exists o. split; [done|]. destruct o as [[r c]|].
    - by destruct Ho as (x & _ & Hx & _).
    - intros c Hc. apply Ho. lia. }
  exists o. split; [done|]. destruct o as [[r c]|].
  - by destruct Ho as (x & _ & Hx & _).
  - intros r c [Hr Hc]. apply Ho; lia.
Qed.

Lemma grid_update_fill (g : grid) (r c num : Z) :
  shape9 g -> in_grid r c -> cell g r c = 0 -> num <> 0 ->
  S (empty_count (grid_update g r c num)) = empty_count g /\
  grid_update (grid_update g r c num) r c 0 = g.
Proof.
  intros Hg Hin Hz Hnum.
  assert (get_cell g r c = Ret 0) as Hget
    by by rewrite get_cell_shape9, Hz.
  destruct (set_cell_get_cell g r c 0 num Hget) as (g1 & Hset & _ & Hback & Hcnt).
  rewrite set_cell_shape9 in Hset by done. injection Hset as <-.
  rewrite set_cell_shape9 in Hback by (done || by apply shape9_update).
  injection Hback as Hback. split; [by apply Hcnt|done].
Qed.

Lemma fills_step (g g2 : grid) (r c num : Z) :
  shape9 g -> in_grid r c -> cell g r c = 0 -> 1 <= num <= 9 ->
  ~ held_in_units g r c num ->
  fills (grid_update g r c num) g2 -> fills g g2.
Proof.
  intros Hg Hin Hz Hnum Hfree (Hs2 & Hc2 & He2 & Hf2).
  assert (cell g2 r c = num) as Hrc.
  { rewrite (He2 r c Hin); rewrite cell_update, decide_True by done;
      [done|lia]. }
  split; [done|]. split; [done|]. split.
  - intros r0 c0 Hin0 Hnz. rewrite (He2 r0 c0 Hin0);
      rewrite cell_update by done; rewrite decide_False; try done;
      intros [= -> ->]; done.
  - intros r0 c0 Hin0 Hz0.
    destruct (decide ((r0, c0) = (r, c))) as [[= -> ->]|Hne].
    + rewrite Hrc. split; [done|]. intros r' c' Hin' Hne' Hsh.
      destruct (decide (cell g r' c' = 0)) as [Hz'|Hnz'].
      * destruct (Hf2 r' c' Hin') as [_ Hno].
        { rewrite cell_update by done. rewrite decide_False by done. done. }
        rewrite <- Hrc. intros Heq. apply (Hno r c Hin); [done| |done].
        by apply shares_unit_sym.
      * rewrite (He2 r' c' Hin');
          rewrite cell_update by done; rewrite decide_False by done;
          [|done].
        intros Heq. apply Hfree. by exists r', c'.
    + apply Hf2; [done|]. rewrite cell_update by done.
      rewrite decide_False; [done|]. by intros [= -> ->].
Qed.

Lemma fills_restrict (g h : grid) (r c : Z) :
  shape9 g -> in_grid r c -> cell g r c = 0 ->
  fills g h -> fills (grid_update g r c (cell h r c)) h.
Proof.
  intros Hg Hin Hz (Hs & Hc & He & Hf).
  split; [done|]. split; [done|]. split.
  - intros r0 c0 Hin0. rewrite cell_update by done.
    destruct (decide ((r, c) = (r0, c0))) as [[= <- <-]|Hne]; [done|].
    by apply He.
  - intros r0 c0 Hin0. rewrite cell_update by done.
    destruct (decide ((r, c) = (r0, c0))) as [[= <- <-]|Hne].
    + intros Heq. by destruct (Hc r c Hin).
    + by apply Hf.
Qed.

Lemma fills_not_held (g h : grid) (r c : Z) :
  in_grid r c -> cell g r c = 0 -> fills g h ->
  ~ held_in_units g r c (cell h r c).
Proof.
  intros Hin Hz (Hs & Hc & He & Hf) (r' & c' & Hin' & Hsh & Hv).
  destruct (Hf r c Hin Hz) as [_ Hno].
  apply (Hno r' c' Hin'); [|done|].
  - intros [= -> ->]. rewrite Hz in Hv. by destruct (Hc r c Hin).
  - rewrite (He r' c' Hin'); [done|]. rewrite Hv. by apply Hc.
Qed.

Lemma try_numbers_shape9 (rec : grid -> outcome (bool * grid)) (n : nat)
    (r c : Z) (nums : list Z) (g : grid) :
  (forall g1, shape9 g1 -> (empty_count g1 < n)%nat ->
     exists ok g2, rec g1 = Ret (ok, g2) /\
       (ok = true -> fills g1 g2) /\
       (ok = false -> g2 = g1 /\ forall h, ~ fills g1 h)) ->
  shape9 g -> in_grid r c -> cell g r c = 0 -> (empty_count g <= n)%nat ->
  Forall (fun num => 1 <= num <= 9) nums ->
  exists ok g',
    SudokuBoard.try_numbers rec r c nums g = Ret (ok, g') /\
    (ok = true -> fills g g') /\
    (ok = false -> g' = g /\ forall h, fills g h -> cell h r c ∉ nums).
Proof.
  intros Hrec Hg Hin Hz Hn Hnums.
  induction nums as [|num nums IH].
  { exists false, g. split; [done|]. split; [done|]. intros _.
    split; [done|]. intros h _ H. by apply elem_of_nil in H. }
  apply Forall_cons in Hnums as [Hnum Hnums]. specialize (IH Hnums).
  cbn [SudokuBoard.try_numbers].
  destruct (is_valid_placement_shape9 g r c num Hg Hin) as (b & -> & Hb).
  rewrite bind_ret. destruct b.
  - assert (~ held_in_units g r c num) as Hfree by by apply Hb.
    rewrite set_cell_shape9, bind_ret by done.
    destruct (grid_update_fill g r c num Hg Hin Hz) as [Hcnt Hback]; [lia|].
    destruct (Hrec (grid_update g r c num)) as (ok1 & g2 & -> & Ht & Hf);
      [by apply shape9_update|lia|].
    rewrite bind_ret. destruct ok1.
    + exists true, g2. split; [done|]. split; [|done]. intros _.
      apply (fills_step g g2 r c num); auto.
    + destruct (Hf eq_refl) as [-> Hnone].
      rewrite set_cell_shape9, bind_ret by (done || by apply shape9_update).
      rewrite Hback. destruct IH as (ok & g' & -> & Ht' & Hf').
      exists ok, g'. split; [done|]. split; [done|]. intros ->.
      destruct (Hf' eq_refl) as [-> Hnot]. split; [done|].
      intros h Hh. apply not_elem_of_cons. split; [|by apply Hnot].
      intros Heq. apply (Hnone h). rewrite <- Heq.
      by apply fills_restrict.
  - destruct IH as (ok & g' & -> & Ht' & Hf').
    exists ok, g'. split; [done|]. split; [done|]. intros ->.
    destruct (Hf' eq_refl) as [-> Hnot]. split; [done|].
    intros h Hh. apply not_elem_of_cons. split; [|by apply Hnot].
    intros Heq. pose proof (fills_not_held g h r c Hin Hz Hh) as Hnh.
    rewrite Heq in Hnh. by apply Hb in Hnh.
Qed.

Lemma fills_complete (g : grid) : shape9 g -> complete g -> fills g g.
Proof.
  intros Hg Hc. split; [done|]. split; [done|]. split; [by intros r c|].
  intros r c Hin Hz. by destruct (Hc r c Hin).
Qed.

(** With enough fuel the solver returns on every 9x9 grid, whatever the
    cells hold: with [True] and a filling of the empty cells, or with
    [False], the grid as it was, and no filling existing. *)
Lemma solve_shape9 (fuel : nat) (g : grid) :
  shape9 g -> (empty_count g < fuel)%nat ->
  exists ok g',
    SudokuBoard.solve fuel g = Ret (ok, g') /\
    (ok = true -> fills g g') /\
    (ok = false -> g' = g /\ forall h, ~ fills g h).
Proof.
  revert g. induction fuel as [|fuel IH]; intros g Hg Hfuel; [lia|].
  cbn [SudokuBoard.solve].
  destruct (find_empty_cell_shape9 g Hg) as (o & -> & Ho).
  rewrite bind_ret. destruct o as [[r c]|].
  - destruct Ho as [Hin Hz].
    destruct (try_numbers_shape9 (SudokuBoard.solve fuel) fuel r c
                (py_range 1 10) g) as (ok & g' & -> & Ht & Hf);
      [exact IH|done|done|done|lia| |].
    { apply Forall_forall. intros x Hx. apply elem_of_py_range in Hx. lia. }
    exists ok, g'. split; [done|]. split; [done|]. intros ->.
    destruct (Hf eq_refl) as [-> Hnot]. split; [done|]. intros h Hh.
    apply (Hnot h Hh). apply elem_of_py_range.
    destruct Hh as (_ & _ & _ & Hfill). destruct (Hfill r c Hin Hz). lia.
  - exists true, g. split; [done|]. split; [|done]. intros _.
    by apply fills_complete.
Qed.

Lemma solve_with_backtracking_shape9 (g : grid) :
  shape9 g ->
  exists ok g',
    SudokuBoard._solve_with_backtracking g = Ret (ok, g') /\
    (ok = true -> fills g g') /\
    (ok = false -> g' = g /\ forall h, ~ fills g h).
Proof. intros Hg. apply solve_shape9; [done|lia]. Qed.

(** ** Construction *)

Lemma generate_solution_fields (self self' : SudokuBoard.t) (ok : bool) :
  SudokuBoard._generate_solution self = Ret (ok, self') ->
  SudokuBoard.board self' = SudokuBoard.board self /\
  SudokuBoard.initial_board self' = SudokuBoard.initial_board self.
Proof.
  unfold SudokuBoard._generate_solution.
  generalize (SudokuBoard._solve_with_backtracking (SudokuBoard.board self)).
  intros m H. apply bind_returns in H as ([[|] sol] & _ & H);
    by injection H as _ <-.
Qed.

Lemma init_fields (g : grid) (b : SudokuBoard.t) :
  SudokuBoard.__init__ (Some g) = Ret b ->
  SudokuBoard.board b = g /\ SudokuBoard.initial_board b = g.
Proof.
  unfold SudokuBoard.__init__. intros H.
  apply bind_returns in H as ([ok b'] & H & Hb). injection Hb as ->.
  by apply generate_solution_fields in H.
Qed.

Lemma init_shape9 (g : grid) :
  shape9 g -> exists b, SudokuBoard.__init__ (Some g) = Ret b.
Proof.
  intros Hg. unfold SudokuBoard.__init__, SudokuBoard._generate_solution.
  cbn [SudokuBoard.board].
  destruct (solve_with_backtracking_shape9 g Hg) as (ok & g' & -> & _).
  rewrite bind_ret. destruct ok; by eexists.
Qed.

Lemma init_default :
  SudokuBoard.__init__ None = SudokuBoard.__init__ (Some empty_grid).
Proof. unfold SudokuBoard.__init__. reflexivity. Qed.

Lemma empty_grid_shape9 : shape9 empty_grid.
Proof. by_eval. Qed.

(** C3, as amended: the constructor makes no check of the grid it is given.
    With no grid, and with any grid of nine rows of nine integers, whatever
    the integers are (so for every well-formed grid, and also for a 9x9
    grid with cells outside 0..9), it produces a board whose cells and
    initial grid are the given grid (the all-empty grid when none is
    given); it can fail only on a grid that is not 9x9, and fuel never runs
    out. *)
Theorem C3_constructor_accepts_9x9 :
  (exists b, SudokuBoard.__init__ None = Ret b /\
             SudokuBoard.board b = empty_grid /\
             SudokuBoard.initial_board b = empty_grid) /\
  (forall g, shape9 g ->
     exists b, SudokuBoard.__init__ (Some g) = Ret b /\
               SudokuBoard.board b = g /\
               SudokuBoard.initial_board b = g) /\
  (forall g, well_formed g -> exists b, SudokuBoard.__init__ (Some g) = Ret b) /\
  (forall g e, SudokuBoard.__init__ (Some g) = Raise e ->
     e = IndexError /\ ~ shape9 g) /\
  (forall arg, finishes (SudokuBoard.__init__ arg)).
Proof.
  assert (forall g, shape9 g ->
     exists b, SudokuBoard.__init__ (Some g) = Ret b /\
               SudokuBoard.board b = g /\
               SudokuBoard.initial_board b = g) as Hsome.
  { intros g Hg. destruct (init_shape9 g Hg) as [b Hb]. exists b.
    split; [done|]. by apply init_fields in Hb. }
  split; [|split; [exact Hsome|split; [|split]]].
  - rewrite init_default. apply Hsome, empty_grid_shape9.
  - intros g [Hg _]. destruct (Hsome g Hg) as (b & Hb & _). by exists b.
  - intros g e H. split; [by destruct e|]. intros Hg.
    destruct (init_shape9 g Hg) as [b Hb]. congruence.
  - intros arg. unfold SudokuBoard.__init__, SudokuBoard._generate_solution,
      SudokuBoard._solve_with_backtracking.
    set (g := match arg with None => empty_grid | Some g0 => g0 end).
    cbn [SudokuBoard.board].
    pose proof (solve_frame (S (empty_count g)) g ltac:(lia)) as Hf.
    destruct (SudokuBoard.solve _ g) as [[[|] g']|e|]; done.
Qed.

Lemma C3_constructor_accepts_9x9_witness :
  (exists b, SudokuBoard.__init__ (Some first_row_but_one) = Ret b /\
             SudokuBoard.initial_board b = first_row_but_one) /\
  (exists b, SudokuBoard.__init__ (Some all_tens) = Ret b).
Proof.
  destruct C3_constructor_accepts_9x9 as (_ & Hsome & _).
  split.
  - destruct (Hsome first_row_but_one) as (b & Hb & _ & Hi); [by_eval|].
    exists b. split; [exact Hb|exact Hi].
  - destruct (Hsome all_tens) as (b & Hb & _); [by_eval|].
    exists b. exact Hb.
Defined.

(** C3 as stated fails: [all_tens] is malformed (every cell is 10), yet
    the constructor returns a board for it. *)
Lemma C3_counterexample :
  ~ ((~ exists b, SudokuBoard.__init__ (Some all_tens) = Ret b)
     <-> ~ well_formed all_tens).
Proof.
  intros [_ H]. apply H.
  - intros [_ Hd]. unfold digits, all_tens in Hd.
    apply Forall_cons in Hd as [Hd _]. apply Forall_cons in Hd as [Hd _]. lia.
  - eexists. by vm_compute.
Qed.

(** ** The generator *)

Section GeneratorShape.
Context {R : Type} `{!RandomSource R}.

Lemma generator_try_numbers_shape9
    (rec : R -> grid -> outcome (bool * grid * R)) (r c : Z) :
  (forall rng1 g1 ok g2 rng2, shape9 g1 ->
     rec rng1 g1 = Ret (ok, g2, rng2) ->
     shape9 g2 /\ (ok = true -> complete g2)) ->
  in_grid r c ->
  forall nums rng g ok g' rng', shape9 g ->
    SudokuPuzzleGenerator.try_numbers rec r c nums rng g = Ret (ok, g', rng') ->
    shape9 g' /\ (ok = true -> complete g').
Proof.
  intros Hrec Hin. induction nums as [|num nums IH];
    intros rng g ok g' rng' Hg H.
  { injection H as <- <- _. done. }
  cbn [SudokuPuzzleGenerator.try_numbers] in H.
  rewrite generator_is_valid in H.
  destruct (is_valid_placement_shape9 g r c num Hg Hin) as (b & Hb & _).
  rewrite Hb, bind_ret in H. destruct b; [|by eapply IH].
  rewrite set_cell_shape9, bind_ret in H by done.
  apply bind_returns in H as ([[ok1 g2] rng2] & Hcall & H).
  destruct (Hrec _ _ _ _ _ (shape9_update g r c num Hg) Hcall) as [Hg2 Hc2].
  destruct ok1.
  - injection H as <- <- _. done.
  - rewrite set_cell_shape9, bind_ret in H by done.
    eapply (IH rng2 (grid_update g2 r c 0)); [|exact H].
    by apply shape9_update.
Qed.

Lemma fill_shape9 (fuel : nat) :
  forall rng g ok g' rng', shape9 g ->
    SudokuPuzzleGenerator.fill fuel rng g = Ret (ok, g', rng') ->
    shape9 g' /\ (ok = true -> complete g').
Proof.
  induction fuel as [|fuel IH]; intros rng g ok g' rng' Hg H; [done|].
  cbn [SudokuPuzzleGenerator.fill] in H.
  rewrite generator_find_empty_cell in H.
  destruct (find_empty_cell_shape9 g Hg) as (o & Ho & Hspec).
  rewrite Ho, bind_ret in H. destruct o as [[r c]|].
  - destruct (shuffle (py_range 1 10) rng) as [numbers rng1].
    destruct Hspec as [Hin _].
    by eapply (generator_try_numbers_shape9
                 (SudokuPuzzleGenerator.fill fuel) r c IH Hin
                 numbers rng1 g).
  - injection H as <- <- _. done.
Qed.

(** Clearing a filled cell makes one more empty cell. *)
Lemma clear_cell_count (g : grid) (r c v : Z) :
  get_cell g r c = Ret v -> v <> 0 ->
  exists g1, set_cell g r c 0 = Ret g1 /\
             empty_count g1 = S (empty_count g).
Proof.
  intros Hget Hv.
  destruct (set_cell_get_cell g r c v 0 Hget) as (g1 & Hset & Hget1 & Hback & _).
  exists g1. split; [done|].
  destruct (set_cell_get_cell g1 r c 0 v Hget1) as (g2 & Hset2 & _ & _ & Hcnt).
  rewrite Hback in Hset2. injection Hset2 as <-.
  symmetry. by apply Hcnt.
Qed.

(** When the removal loop returns, it has cleared exactly the cells that
    were still to be removed. *)
Lemma remove_cells_count (fuel : nat) (target : Z) :
  forall removed rng g g' rng',
    SudokuPuzzleGenerator.remove_cells fuel target removed rng g
      = Ret (g', rng') ->
    removed <= target ->
    Z.of_nat (empty_count g') = Z.of_nat (empty_count g) + (target - removed).
Proof.
  induction fuel as [|fuel IH]; intros removed rng g g' rng' H Hle.
  - cbn [SudokuPuzzleGenerator.remove_cells] in H.
    destruct (Z.ltb_spec removed target); [done|].
    injection H as <- _. lia.
  - cbn [SudokuPuzzleGenerator.remove_cells] in H.
    destruct (Z.ltb_spec removed target); [|injection H as <- _; lia].
    destruct (randint 0 8 rng) as [row rng1].
    destruct (randint 0 8 rng1) as [col rng2].
    apply bind_returns in H as (v & Hget & H).
    destruct (Z.eqb_spec v 0) as [->|Hv]; cbn [negb] in H.
    + apply IH in H; lia.
    + destruct (clear_cell_count g row col v Hget Hv) as (g1 & Hset & Hcnt).
      rewrite Hset, bind_ret in H. apply IH in H; lia.
Qed.

(** On a grid without a filled cell the removal loop never returns. *)
Lemma remove_cells_stuck (fuel : nat) (target : Z) (g : grid) :
  (forall r c v, get_cell g r c = Ret v -> v = 0) ->
  forall removed rng res, removed < target ->
    SudokuPuzzleGenerator.remove_cells fuel target removed rng g <> Ret res.
Proof.
  intros Hzero. induction fuel as [|fuel IH]; intros removed rng res Hlt H.
  - cbn [SudokuPuzzleGenerator.remove_cells] in H.
    destruct (Z.ltb_spec removed target); [done|lia].
  - cbn [SudokuPuzzleGenerator.remove_cells] in H.
    destruct (Z.ltb_spec removed target); [|lia].
    destruct (randint 0 8 rng) as [row rng1].
    destruct (randint 0 8 rng1) as [col rng2].
    apply bind_returns in H as (v & Hget & H).
    rewrite (Hzero _ _ _ Hget) in H. cbn [Z.eqb negb] in H.
    by apply IH in H.
Qed.

End GeneratorShape.

Lemma empty_grid_zero (r c v : Z) : get_cell empty_grid r c = Ret v -> v = 0.
Proof.
  intros H. apply get_cell_inv in H as (i & j & row & _ & Hi & _ & Hj).
  unfold empty_grid in Hi. apply lookup_replicate in Hi as [-> _].
  by apply lookup_replicate in Hj as [-> _].
Qed.

Lemma complete_empty_count (g : grid) :
  shape9 g -> complete g -> empty_count g = 0%nat.
Proof.
  intros Hg Hc. unfold empty_count.
  destruct (filter _ (concat g)) as [|x l] eqn:Hf; [done|].
  assert (x ∈ filter (fun v => v = 0) (concat g)) as Hx
    by (rewrite Hf; apply list_elem_of_here).
  apply list_elem_of_filter in Hx as [-> Hx].
  apply list_elem_of_In, in_concat in Hx as (row & Hrow & Hx).
  apply list_elem_of_In, list_elem_of_lookup in Hrow as [i Hi].
  apply list_elem_of_In, list_elem_of_lookup in Hx as [j Hj].
  pose proof (lookup_lt_Some _ _ _ Hi) as Hilt.
  pose proof (lookup_lt_Some _ _ _ Hj) as Hjlt.
  destruct Hg as [Hlen Hrows].
  rewrite (Forall_lookup_1 _ _ _ _ Hrows Hi) in Hjlt.
  destruct (Hc (Z.of_nat i) (Z.of_nat j)); [split; lia|].
  unfold cell. rewrite !Nat2Z.id.
  rewrite (list_lookup_total_correct _ _ _ Hi).
  by rewrite (list_lookup_total_correct _ _ _ Hj).
Qed.

(** Whenever [generate_puzzle] returns, the initial grid of its board has
    as many empty cells as the removal budget of the label. *)
Lemma generate_puzzle_count {R : Type} `{!RandomSource R} (fuel : nat)
    (difficulty : string) (rng rng' : R) (puzzle : SudokuBoard.t) :
  SudokuPuzzleGenerator.generate_puzzle fuel difficulty rng
    = Ret (puzzle, rng') ->
  0 < default 40 (SudokuPuzzleGenerator.difficulty_map !! difficulty) ->
  Z.of_nat (empty_count (SudokuBoard.initial_board puzzle))
  = default 40 (SudokuPuzzleGenerator.difficulty_map !! difficulty).
Proof.
  unfold SudokuPuzzleGenerator.generate_puzzle,
    SudokuPuzzleGenerator._fill_board_randomly.
  generalize (default 40 (SudokuPuzzleGenerator.difficulty_map !! difficulty)).
  intros target H Htarget. cbv zeta in H.
  pose proof (fill_frame (S (empty_count empty_grid)) rng empty_grid
                ltac:(lia)) as Hframe.
  apply bind_returns in H as ([[ok g1] rng1] & Hfill & H).
  rewrite Hfill in Hframe.
  destruct (fill_shape9 _ _ _ _ _ _ empty_grid_shape9 Hfill) as [Hg1 Hc1].
  apply bind_returns in H as ([g2 rng2] & Hremove & H).
  apply bind_returns in H as (b & Hinit & H). injection H as <- _.
  apply init_fields in Hinit as [_ ->].
  destruct ok.
  - apply remove_cells_count in Hremove; [|lia].
    rewrite (complete_empty_count g1) in Hremove by auto. lia.
  - rewrite (Hframe eq_refl) in Hremove.
    by apply remove_cells_stuck in Hremove; [|apply empty_grid_zero|].
Qed.

(** C6: for each of the labels Easy, Medium, Hard and Expert, whenever
    [generate_puzzle] returns, whatever the random source has drawn, the
    initial grid of the returned board has exactly 30, 40, 50 and 60 empty
    cells respectively. *)
Theorem C6_generate_puzzle_empty_cells (R : Type) (src : RandomSource R)
    (fuel : nat) (difficulty : string) (n : nat) (rng rng' : R)
    (puzzle : SudokuBoard.t) :
  (difficulty, n) ∈ [("Easy", 30%nat); ("Medium", 40%nat);
                     ("Hard", 50%nat); ("Expert", 60%nat)] ->
  SudokuPuzzleGenerator.generate_puzzle fuel difficulty rng
    = Ret (puzzle, rng') ->
  empty_count (SudokuBoard.initial_board puzzle) = n.
Proof.
  intros Hlabel Hrun.
  assert (default 40 (SudokuPuzzleGenerator.difficulty_map !! difficulty)
          = Z.of_nat n) as Hmap.
  { repeat (apply elem_of_cons in Hlabel as [[= -> ->]|Hlabel];
            [by vm_compute|]).
    by apply elem_of_nil in Hlabel. }
  apply generate_puzzle_count in Hrun; rewrite Hmap in *; [lia|].
  repeat (apply elem_of_cons in Hlabel as [[= -> ->]|Hlabel]; [lia|]).
  by apply elem_of_nil in Hlabel.
Qed.

Lemma C6_generate_puzzle_empty_cells_witness :
  exists puzzle rng',
    SudokuPuzzleGenerator.generate_puzzle 1000 "Easy" 2025
      = Ret (puzzle, rng') /\
    empty_count (SudokuBoard.initial_board puzzle) = 30%nat.
Proof.
  assert (exists puzzle rng',
            SudokuPuzzleGenerator.generate_puzzle 1000 "Easy" 2025
            = Ret (puzzle, rng')) as (puzzle & rng' & Hrun)
    by (eexists _, _; vm_compute; reflexivity).
  exists puzzle, rng'. split; [exact Hrun|].
  apply (C6_generate_puzzle_empty_cells Z lcg_source 1000 "Easy" 30
           2025 rng' puzzle); [|exact Hrun].
  apply list_elem_of_here.
Defined.

(** ** Fillings and valid completions *)

Lemma elem_of_grid_cell (g : grid) (row : list Z) (x : Z) :
  shape9 g -> row ∈ g -> x ∈ row ->
  exists r c, in_grid r c /\ cell g r c = x.
Proof.
  intros [Hlen Hrows] Hrow Hx.
  apply list_elem_of_lookup in Hrow as [i Hi].
  apply list_elem_of_lookup in Hx as [j Hj].
  pose proof (lookup_lt_Some _ _ _ Hi) as Hilt.
  pose proof (lookup_lt_Some _ _ _ Hj) as Hjlt.
  rewrite (Forall_lookup_1 _ _ _ _ Hrows Hi) in Hjlt.
  exists (Z.of_nat i), (Z.of_nat j). split; [split; lia|].
  unfold cell. rewrite !Nat2Z.id.
  rewrite (list_lookup_total_correct _ _ _ Hi).
  by rewrite (list_lookup_total_correct _ _ _ Hj).
Qed.

Lemma digits_cell (g : grid) (r c : Z) :
  shape9 g -> digits g -> in_grid r c -> 0 <= cell g r c <= 9.
Proof.
  intros Hg Hd Hin. pose proof (cell_elem_of_row g r c Hg Hin) as Hc.
  destruct Hin as [Hr _]. destruct Hg as [Hlen _].
  destruct (lookup_lt_is_Some_2 g (Z.to_nat r)) as [row Hrow]; [lia|].
  rewrite (list_lookup_total_correct _ _ _ Hrow) in Hc.
  pose proof (Forall_lookup_1 _ _ _ _ Hd Hrow) as Hd'.
  rewrite Forall_forall in Hd'. by apply Hd'.
Qed.

Lemma cells_digits (g : grid) :
  shape9 g -> (forall r c, in_grid r c -> 0 <= cell g r c <= 9) -> digits g.
Proof.
  intros Hg Hcells. apply Forall_forall. intros row Hrow.
  apply Forall_forall. intros x Hx.
  destruct (elem_of_grid_cell g row x Hg Hrow Hx) as (r & c & Hin & <-).
  by apply Hcells.
Qed.

Lemma fills_valid_completion (g h : grid) :
  well_formed g -> consistent g -> fills g h -> valid_completion g h.
Proof.
  intros [Hg Hd] Hcons (Hs & Hc & He & Hf).
  apply consistent_pairwise in Hcons.
  split; [|split; [done|split; [|done]]].
  - split; [done|]. apply cells_digits; [done|]. intros r c Hin.
    destruct (decide (cell g r c = 0)) as [Hz|Hnz].
    + destruct (Hf r c Hin Hz). lia.
    + rewrite (He r c Hin Hnz). by apply digits_cell.
  - apply consistent_pairwise. intros r c r' c' Hin Hin' Hne Hsh Hnz.
    destruct (decide (cell g r c = 0)) as [Hz|Hgnz].
    { destruct (Hf r c Hin Hz) as [_ Hno]. intros Heq.
      apply (Hno r' c' Hin'); [congruence|done|done]. }
    destruct (decide (cell g r' c' = 0)) as [Hz'|Hgnz'].
    { destruct (Hf r' c' Hin' Hz') as [_ Hno].
      apply (Hno r c Hin); [done|]. by apply shares_unit_sym. }
    rewrite (He r c Hin Hgnz), (He r' c' Hin' Hgnz'). by apply Hcons.
Qed.

Lemma valid_completion_fills (g h : grid) :
  valid_completion g h -> fills g h.
Proof.
  intros ([Hs Hd] & Hc & Hcons & He).
  apply consistent_pairwise in Hcons.
  split; [done|]. split; [done|]. split; [done|].
  intros r c Hin Hz. split.
  - pose proof (digits_cell h r c Hs Hd Hin). pose proof (Hc r c Hin). lia.
  - intros r' c' Hin' Hne Hsh.
    apply Hcons; [done|done|done|by apply shares_unit_sym|by apply Hc].
Qed.

(** ** [is_valid_complete] accepts a complete grid without repeats *)

Lemma for_m_collect {A} (body : A -> outcome Z) (f : A -> Z) (xs : list A)
    (acc : list Z) :
  (forall x, x ∈ xs -> body x = Ret (f x)) ->
  for_m (fun (x : A) (acc : list Z) => v ← body x; Ret (acc ++ [v])) xs acc
  = Ret (acc ++ (f <$> xs)).
Proof.
  revert acc. induction xs as [|x xs IH]; intros acc Hbody.
  { by rewrite fmap_nil, app_nil_r. }
  cbn [for_m]. rewrite Hbody, !bind_ret by apply list_elem_of_here.
  rewrite IH by (intros y Hy; by apply Hbody, list_elem_of_further).
  by rewrite fmap_cons, <- app_assoc.
Qed.

Lemma units_length : Forall (fun u : list (Z * Z) => length u = 9%nat) units.
Proof. by_eval. Qed.

Lemma filter_nonzero_id (l : list Z) :
  Forall (fun v : Z => v <> 0) l -> filter (fun v : Z => v <> 0) l = l.
Proof.
  induction 1 as [|v l Hv _ IH]; [done|].
  rewrite filter_cons, decide_True by done. by rewrite IH.
Qed.

(** In a complete grid without repeats every unit holds nine distinct
    values. *)
Lemma unit_values_distinct (h : grid) (u : list (Z * Z)) :
  shape9 h -> complete h -> consistent h -> u ∈ units ->
  size (list_to_set (unit_values h u) : gset Z) = 9%nat.
Proof.
  intros Hs Hc Hcons Hu.
  pose proof units_length as Hlen. rewrite Forall_forall in Hlen.
  pose proof units_in_grid_share as Hin. rewrite Forall_forall in Hin.
  unfold consistent in Hcons. rewrite Forall_forall in Hcons.
  specialize (Hcons u Hu). specialize (Hin u Hu). unfold no_repeat in Hcons.
  rewrite Forall_forall in Hin.
  rewrite filter_nonzero_id in Hcons.
  - rewrite size_list_to_set by done.
    unfold unit_values. rewrite length_fmap. by apply Hlen.
  - apply Forall_forall. intros v Hv. unfold unit_values in Hv.
    apply list_elem_of_fmap in Hv as (p & -> & Hp).
    apply Hc. by destruct (Hin p Hp).
Qed.

Lemma unit_values_row (g : grid) (r : Z) :
  shape9 g -> 0 <= r <= 8 ->
  unit_values g (row_positions r) = g !!! Z.to_nat r.
Proof.
  intros Hg Hr. pose proof (shape9_row g r Hg Hr) as Hlen.
  unfold unit_values, row_positions. rewrite <- list_fmap_compose.
  unfold compose, cell. cbn [fst snd].
  generalize dependent (g !!! Z.to_nat r). intros row Hlen.
  do 10 (destruct row as [|? row]; try done).
Qed.

Lemma row_positions_unit (r : Z) : 0 <= r <= 8 -> row_positions r ∈ units.
Proof.
  intros Hr. unfold units. apply elem_of_app. left.
  apply list_elem_of_fmap. exists r. split; [done|].
  apply elem_of_py_range. lia.
Qed.

Lemma col_positions_unit (c : Z) : 0 <= c <= 8 -> col_positions c ∈ units.
Proof.
  intros Hc. unfold units. apply elem_of_app. right.
  apply elem_of_app. left.
  apply list_elem_of_fmap. exists c. split; [done|].
  apply elem_of_py_range. lia.
Qed.

Lemma box_positions_unit (br bc : Z) :
  br ∈ [0; 3; 6] -> bc ∈ [0; 3; 6] -> box_positions br bc ∈ units.
Proof.
  intros Hbr Hbc. unfold units. apply elem_of_app. right.
  apply elem_of_app. right. apply list_elem_of_bind. exists br.
  split; [|done]. apply list_elem_of_fmap. by exists bc.
Qed.

Lemma existsb_false_intro {A} (f : A -> bool) (xs : list A) :
  (forall x, x ∈ xs -> f x = false) -> existsb f xs = false.
Proof.
  intros H. destruct (existsb f xs) eqn:Hex; [|done].
  apply existsb_elem in Hex as (x & Hx & Hfx). by rewrite H in Hfx.
Qed.

Lemma is_valid_complete_shape9 (self : SudokuBoard.t) :
  shape9 (SudokuBoard.board self) -> complete (SudokuBoard.board self) ->
  consistent (SudokuBoard.board self) ->
  SudokuBoard.is_valid_complete self = Ret true.
Proof.
  intros Hs Hc Hcons. unfold SudokuBoard.is_valid_complete.
  set (h := SudokuBoard.board self) in *.
  assert (forall row, row ∈ h -> 0 ∉ row) as Hrows.
  { intros row Hrow H0.
    destruct (elem_of_grid_cell h row 0 Hs Hrow H0) as (r & c & Hin & Hz).
    by apply (Hc r c). }
  assert (SudokuBoard.is_complete self = true) as ->.
  { unfold SudokuBoard.is_complete. fold h. apply forallb_forall.
    intros row Hrow. apply list_elem_of_In in Hrow.
    by rewrite bool_decide_eq_false_2 by by apply Hrows. }
  cbn [negb]. rewrite existsb_false_intro.
  2:{ intros row Hrow. rewrite (bool_decide_eq_false_2 _ (Hrows row Hrow)).
      rewrite orb_false_r.
      apply list_elem_of_lookup in Hrow as [i Hi].
      pose proof (lookup_lt_Some _ _ _ Hi) as Hilt.
      destruct Hs as [Hlen Hall]. rewrite Hlen in Hilt.
      assert (row = h !!! Z.to_nat (Z.of_nat i)) as ->.
      { rewrite Nat2Z.id. symmetry. by apply list_lookup_total_correct. }
      rewrite <- unit_values_row by (done || lia).
      rewrite unit_values_distinct; [done..|].
      apply row_positions_unit. lia. }
  rewrite (any_m_ret _ (fun col => false) (py_range 0 9)), bind_ret.
  2:{ intros col Hcol. apply elem_of_py_range in Hcol. cbv beta.
      rewrite (for_m_collect (fun row => get_cell h row col)
                 (fun row => cell h row col)), bind_ret.
      2:{ intros row Hrow. apply elem_of_py_range in Hrow.
          by rewrite get_cell_shape9 by (done || split; lia). }
      rewrite app_nil_l.
      replace ((fun row => cell h row col) <$> py_range 0 9)
        with (unit_values h (col_positions col)).
      2:{ unfold unit_values, col_positions.
          by rewrite <- list_fmap_compose. }
      rewrite unit_values_distinct; [done..|].
      apply col_positions_unit. lia. }
  replace (existsb (fun _ : Z => false) (py_range 0 9)) with false
    by (symmetry; by apply existsb_false_intro).
  rewrite (any_m_ret _ (fun box_row => false)), bind_ret.
  2:{ intros br Hbr. cbv beta.
      rewrite (any_m_ret _ (fun box_col => false)).
      2:{ intros bc Hbc. cbv beta.
          rewrite (for_m_nested
            (fun (r c : Z) (acc : list Z) =>
               v ← get_cell h r c; Ret (acc ++ [v]))).
          fold (box_positions br bc). cbv beta.
          rewrite (for_m_collect (fun p : Z * Z => get_cell h p.1 p.2)
                     (fun p : Z * Z => cell h p.1 p.2)), bind_ret.
          2:{ intros p Hp.
              pose proof units_in_grid_share as Hin.
              rewrite Forall_forall in Hin.
              specialize (Hin _ (box_positions_unit br bc Hbr Hbc)).
              rewrite Forall_forall in Hin. destruct (Hin p Hp) as [Hp' _].
              by rewrite get_cell_shape9. }
          rewrite app_nil_l. fold (unit_values h (box_positions br bc)).
          by rewrite unit_values_distinct
            by (done || by apply box_positions_unit). }
      done. }
  replace (existsb (fun _ : Z => false) [0; 3; 6]) with false by done.
  done.
Qed.

(** ** The solver is sound and complete on consistent clues *)

Lemma init_solution_extends (g : grid) (b : SudokuBoard.t) (s : grid) :
  shape9 g -> SudokuBoard.__init__ (Some g) = Ret b ->
  SudokuBoard.solution b = Some s ->
  fills (SudokuBoard.initial_board b) s.
Proof.
  intros Hg. unfold SudokuBoard.__init__, SudokuBoard._generate_solution.
  cbn [SudokuBoard.board SudokuBoard.initial_board].
  destruct (solve_with_backtracking_shape9 g Hg) as (ok & g' & -> & Ht & _).
  rewrite bind_ret. destruct ok; rewrite bind_ret; intros [= <-]; [|done].
  cbn [SudokuBoard.solution SudokuBoard.initial_board]. intros [= <-].
  by apply Ht.
Qed.

(** C2, as amended: for every well-formed 9x9 grid whose non-zero cells
    repeat no digit in any row, column or box, the backtracking solver
    returns, and it returns success if and only if the grid has a
    completion in which no row, column or box repeats a digit; when it
    succeeds the resulting grid is complete, is accepted by
    [is_valid_complete] and agrees with the given grid on every non-zero
    cell; when it fails the grid is as it was given. The solution that the
    constructor stores for a 9x9 grid always extends the initial grid. And
    solving the all-empty grid succeeds with a grid that
    [is_valid_complete] accepts. *)
Theorem C2_solver_correct :
  (forall g, well_formed g -> consistent g ->
     exists ok g',
       SudokuBoard._solve_with_backtracking g = Ret (ok, g') /\
       (ok = true <-> exists h, valid_completion g h) /\
       (ok = true ->
        complete g' /\ extends g g' /\ valid_completion g g' /\
        forall self, SudokuBoard.board self = g' ->
                     SudokuBoard.is_valid_complete self = Ret true) /\
       (ok = false -> g' = g)) /\
  (forall g b s, shape9 g ->
     SudokuBoard.__init__ (Some g) = Ret b ->
     SudokuBoard.solution b = Some s ->
     complete s /\ extends (SudokuBoard.initial_board b) s) /\
  (exists g',
     SudokuBoard._solve_with_backtracking empty_grid = Ret (true, g') /\
     SudokuBoard.is_valid_complete (board_of g') = Ret true).
Proof.
  split; [|split].
  - intros g Hwf Hcons.
    destruct (solve_with_backtracking_shape9 g (proj1 Hwf))
      as (ok & g' & Hrun & Ht & Hf).
    exists ok, g'. split; [exact Hrun|]. split; [|split].
    + split.
      * intros Hok. exists g'. by apply fills_valid_completion, Ht.
      * intros [h Hh]. destruct ok; [done|].
        destruct (Hf eq_refl) as [_ Hnone].
        destruct (Hnone h). by apply valid_completion_fills.
    + intros Hok.
      pose proof (fills_valid_completion g g' Hwf Hcons (Ht Hok)) as Hv.
      destruct Hv as ([Hs Hd] & Hc & Hcons' & He).
      split; [done|]. split; [done|]. split; [done|].
      intros self <-. by apply is_valid_complete_shape9.
    + intros Hok. by destruct (Hf Hok).
  - intros g b s Hg Hb Hs.
    destruct (init_solution_extends g b s Hg Hb Hs) as (_ & Hc & He & _).
    done.
  - eexists. split; vm_compute; reflexivity.
Qed.

Lemma C2_solver_correct_witness :
  exists g',
    SudokuBoard._solve_with_backtracking first_row_but_one = Ret (true, g') /\
    valid_completion first_row_but_one g' /\
    SudokuBoard.is_valid_complete (board_of g') = Ret true.
Proof.
  destruct C2_solver_correct as (Hsolve & _ & _).
  destruct (Hsolve first_row_but_one) as (ok & g' & Hrun & _ & Hgood & _).
  - by_eval.
  - by_eval.
  - assert (exists g1, SudokuBoard._solve_with_backtracking first_row_but_one
                       = Ret (true, g1)) as [g1 H1]
      by (eexists; vm_compute; reflexivity).
    destruct ok; [|rewrite H1 in Hrun; discriminate Hrun].
    exists g'. split; [exact Hrun|].
    destruct (Hgood eq_refl) as (_ & _ & Hv & Hvalid).
    split; [exact Hv|]. apply Hvalid. reflexivity.
Defined.

(** C2 as stated fails: [all_fives] is a 9x9 grid with every cell in 0..9
    and no empty cell, so the solver returns success at once, yet no
    completion without repeats exists since row 0 already repeats 5. *)
Lemma C2_counterexample :
  ~ ((exists g', SudokuBoard._solve_with_backtracking all_fives
                 = Ret (true, g'))
     <-> exists h, valid_completion all_fives h).
Proof.
  intros [H _]. destruct H as [h (Hwf & _ & Hcons & He)].
  { eexists. vm_compute. reflexivity. }
  apply consistent_pairwise in Hcons.
  apply (Hcons 0 0 0 1).
  - split; lia.
  - split; lia.
  - done.
  - by left.
  - rewrite (He 0 0); [done|split; lia|done].
  - rewrite (He 0 0), (He 0 1); [done|split; lia|done|split; lia|done].
Qed.

(** * Further properties of the engine *)

(** ** Candidates and the placement rule agree *)

Lemma elem_of_unit_values (g : grid) (u : list (Z * Z)) (v : Z) :
  v ∈ unit_values g u <-> exists r c, (r, c) ∈ u /\ cell g r c = v.
Proof.
  unfold unit_values. rewrite list_elem_of_fmap. split.
  - intros ([r c] & -> & Hp). by exists r, c.
  - intros (r & c & Hp & <-). by exists (r, c).
Qed.

Lemma elem_of_row_positions (r r' c' : Z) :
  (r', c') ∈ row_positions r <-> r' = r /\ 0 <= c' <= 8.
Proof.
  unfold row_positions. rewrite list_elem_of_fmap. split.
  - intros (c & [= -> ->] & Hc). apply elem_of_py_range in Hc. lia.
  - intros [-> Hc]. exists c'. split; [done|]. apply elem_of_py_range. lia.
Qed.

Lemma elem_of_col_positions (c r' c' : Z) :
  (r', c') ∈ col_positions c <-> c' = c /\ 0 <= r' <= 8.
Proof.
  unfold col_positions. rewrite list_elem_of_fmap. split.
  - intros (r & [= -> ->] & Hr). apply elem_of_py_range in Hr. lia.
  - intros [-> Hr]. exists r'. split; [done|]. apply elem_of_py_range. lia.
Qed.

Lemma elem_of_box_positions (br bc r' c' : Z) :
  (r', c') ∈ box_positions br bc <->
  br <= r' < br + 3 /\ bc <= c' < bc + 3.
Proof.
  unfold box_positions. rewrite list_elem_of_bind. split.
  - intros (r & Hin & Hr). apply list_elem_of_fmap in Hin as (c & [= -> ->] & Hc).
    apply elem_of_py_range in Hr, Hc. lia.
  - intros [Hr Hc]. exists r'. split; [|apply elem_of_py_range; lia].
    apply list_elem_of_fmap. exists c'. split; [done|].
    apply elem_of_py_range. lia.
Qed.

(** A digit is a candidate of a cell exactly when the cell is empty, the
    digit is one of 1..9 and no cell of the three units holds it. *)
Lemma candidates_spec (g : grid) (r c n : Z) :
  in_grid r c ->
  n ∈ candidates g r c <->
  cell g r c = 0 /\ 1 <= n <= 9 /\ ~ held_in_units g r c n.
Proof.
  intros [Hr Hc]. unfold candidates.
  destruct (decide (cell g r c <> 0)) as [Hnz|Hz].
  { split; [set_solver|]. intros [? _]. done. }
  assert (cell g r c = 0) as Hz' by lia.
  rewrite !elem_of_difference, !elem_of_list_to_set, elem_of_py_range.
  rewrite !elem_of_unit_values. split.
  - intros [[[Hn Hrow] Hcol] Hbox]. split; [done|]. split; [lia|].
    intros (r' & c' & [Hr' Hc'] & Hsh & Hv).
    destruct Hsh as [<-|[<-|[Hb1 Hb2]]].
    + apply Hrow. exists r, c'. split; [|done].
      by apply elem_of_row_positions.
    + apply Hcol. exists r', c. split; [|done].
      by apply elem_of_col_positions.
    + apply Hbox. exists r', c'. split; [|done].
      apply elem_of_box_positions. split; div3.
  - intros (_ & Hn & Hfree).
    split; [split; [split; [lia|]|]|];
      intros (r' & c' & Hp & Hv); apply Hfree; exists r', c'.
    + apply elem_of_row_positions in Hp as [-> Hc'].
      split; [done|]. split; [by left|done].
    + apply elem_of_col_positions in Hp as [-> Hr'].
      split; [done|]. split; [right; by left|done].
    + apply elem_of_box_positions in Hp as [Hr' Hc'].
      split; [split; div3|]. split; [|done].
      right. right. split; div3.
Qed.

(** X1: on a 9x9 board, for an empty cell inside the grid,
    [get_possibilities] returns exactly the digits of 1..9 that
    [place_number] accepts at that cell. *)
Theorem X1_possibilities_are_the_placeable_digits (self : SudokuBoard.t)
    (row col n : Z) :
  shape9 (SudokuBoard.board self) -> in_grid row col ->
  cell (SudokuBoard.board self) row col = 0 ->
  exists (s : gset Z) (ok : bool) (self' : SudokuBoard.t),
    SudokuBoard.get_possibilities row col self = Ret (s, self) /\
    SudokuBoard.place_number row col n self = Ret (ok, self') /\
    (n ∈ s <-> 1 <= n <= 9 /\ ok = true).
Proof.
  intros Hg Hin Hz. exists (candidates (SudokuBoard.board self) row col).
  rewrite get_possibilities_shape9 by done.
  destruct (decide (n = 0)) as [->|Hn].
  - rewrite place_number_zero by done. eexists _, _.
    split; [done|]. split; [done|]. rewrite candidates_spec by done. lia.
  - destruct (place_number_nonzero self row col n Hg Hin Hn)
      as (ok & -> & Hok).
    eexists ok, _. split; [done|]. split; [done|].
    rewrite candidates_spec by done. rewrite Hok. tauto.
Qed.

Lemma X1_possibilities_are_the_placeable_digits_witness :
  exists (s : gset Z) (self' : SudokuBoard.t),
    SudokuBoard.get_possibilities 0 0 (board_of first_row_but_one)
      = Ret (s, board_of first_row_but_one) /\
    SudokuBoard.place_number 0 0 1 (board_of first_row_but_one)
      = Ret (true, self') /\
    1 ∈ s.
Proof.
  destruct (X1_possibilities_are_the_placeable_digits
              (board_of first_row_but_one) 0 0 1)
    as (s & ok & self' & Hs & Hp & Hiff).
  - by_eval.
  - by_eval.
  - vm_compute. reflexivity.
  - assert (exists b, SudokuBoard.place_number 0 0 1
                        (board_of first_row_but_one) = Ret (true, b))
      as [b Hb] by (eexists; vm_compute; reflexivity).
    destruct ok; [|rewrite Hb in Hp; discriminate Hp].
    exists s, self'. split; [exact Hs|]. split; [exact Hp|].
    apply Hiff. split; [lia|reflexivity].
Defined.

(** ** The solver on grids with arbitrary clues *)

(** X2: on every 9x9 grid, whatever its cells hold, the solver returns
    without raising. It returns [True] with a grid that keeps every non-zero
    cell of the given grid and fills each empty cell with a digit of 1..9
    that no other cell of its row, column or box holds; or it returns
    [False] with the grid as given, and then no such filling exists. Clues
    that conflict with each other are never examined. *)
Theorem X2_solver_on_any_9x9_grid (g : grid) :
  shape9 g ->
  exists ok g',
    SudokuBoard._solve_with_backtracking g = Ret (ok, g') /\
    (ok = true -> fills g g') /\
    (ok = false -> g' = g /\ forall h, ~ fills g h).
Proof. apply solve_with_backtracking_shape9. Qed.

Lemma X2_solver_on_any_9x9_grid_witness :
  exists ok g', SudokuBoard._solve_with_backtracking all_tens = Ret (ok, g').
Proof.
  destruct (X2_solver_on_any_9x9_grid all_tens) as (ok & g' & H & _).
  - by_eval.
  - exists ok, g'. exact H.
Defined.

Lemma solve_complete (g : grid) :
  shape9 g -> complete g ->
  SudokuBoard._solve_with_backtracking g = Ret (true, g).
Proof.
  intros Hg Hc. unfold SudokuBoard._solve_with_backtracking.
  cbn [SudokuBoard.solve].
  destruct (find_empty_cell_shape9 g Hg) as (o & -> & Ho).
  rewrite bind_ret. destruct o as [[r c]|]; [|done].
  destruct Ho as [Hin Hz]. by destruct (Hc r c Hin).
Qed.

(** X3: a 9x9 grid without an empty cell is returned as it is, with
    [True], whether or not it is a valid solution; and the grid of a
    successful solve is a fixed point: solving it again returns it
    unchanged. *)
Theorem X3_solver_fixed_points (g g' : grid) :
  shape9 g ->
  (complete g -> SudokuBoard._solve_with_backtracking g = Ret (true, g)) /\
  (SudokuBoard._solve_with_backtracking g = Ret (true, g') ->
   SudokuBoard._solve_with_backtracking g' = Ret (true, g')).
Proof.
  intros Hg. split; [by apply solve_complete|]. intros Hrun.
  destruct (solve_with_backtracking_shape9 g Hg) as (ok & g1 & Hrun' & Ht & _).
  rewrite Hrun in Hrun'. injection Hrun' as <- <-.
  destruct (Ht eq_refl) as (Hs & Hc & _). by apply solve_complete.
Qed.

Lemma X3_solver_fixed_points_witness :
  SudokuBoard._solve_with_backtracking all_fives = Ret (true, all_fives).
Proof.
  destruct (X3_solver_fixed_points all_fives all_fives) as [H _].
  - by_eval.
  - apply H. intros r c [Hr Hc].
    enum_range r; enum_range c; by vm_compute.
Defined.

(** X4: when some empty cell of a 9x9 grid has no candidate (all of 1..9
    occur in its row, column and box), the solver reports failure and
    leaves the grid as it was, and the constructor stores no solution. *)
Theorem X4_dead_cell_is_unsolvable (g : grid) (row col : Z) :
  shape9 g -> in_grid row col -> cell g row col = 0 ->
  SudokuBoard.get_possibilities row col (board_of g) = Ret (∅, board_of g) ->
  SudokuBoard._solve_with_backtracking g = Ret (false, g) /\
  SudokuBoard.__init__ (Some g) = Ret (SudokuBoard.mk g g None).
Proof.
  intros Hg Hin Hz Hposs.
  rewrite get_possibilities_shape9 in Hposs by done.
  injection Hposs as Hposs. cbn [SudokuBoard.board board_of] in Hposs.
  assert (SudokuBoard._solve_with_backtracking g = Ret (false, g)) as Hrun.
  { destruct (solve_with_backtracking_shape9 g Hg) as (ok & g' & -> & Ht & Hf).
    destruct ok; [|by destruct (Hf eq_refl) as [-> _]].
    pose proof (Ht eq_refl) as Hfill.
    pose proof (fills_not_held g g' row col Hin Hz Hfill) as Hfree.
    destruct Hfill as (_ & _ & _ & Hcells).
    destruct (Hcells row col Hin Hz) as [Hd _].
    assert (cell g' row col ∈ candidates g row col) as Hmem
      by by apply candidates_spec.
    rewrite Hposs in Hmem. set_solver. }
  split; [done|].
  unfold SudokuBoard.__init__, SudokuBoard._generate_solution.
  cbn [SudokuBoard.board]. by rewrite Hrun.
Qed.

Lemma X4_dead_cell_is_unsolvable_witness :
  SudokuBoard._solve_with_backtracking dead_corner = Ret (false, dead_corner).
Proof.
  apply (X4_dead_cell_is_unsolvable dead_corner 0 0).
  - by_eval.
  - by_eval.
  - vm_compute. reflexivity.
  - vm_compute. reflexivity.
Defined.

(** ** The scan for the next empty cell *)

Lemma find_empty_cell_first (g : grid) :
  shape9 g ->
  exists o, SudokuBoard._find_empty_cell g = Ret o /\
    match o with
    | Some (r, c) =>
        in_grid r c /\ cell g r c = 0 /\
        forall r' c', in_grid r' c' -> r' < r \/ (r' = r /\ c' < c) ->
                      cell g r' c' <> 0
    | None => complete g
    end.
Proof.
  intros Hg. unfold SudokuBoard._find_empty_cell.
  change (py_range 0 9) with (seqZ 0 (Z.of_nat 9)).
  destruct (first_m_seqZ
    (fun row : Z =>
       first_m (fun col : Z =>
                  v ← get_cell g row col;
                  if v =? 0 then Ret (Some (row, col)) else Ret None)
               (seqZ 0 (Z.of_nat 9)))
    (fun row o =>
       match o with
       | Some (r, c) =>
           r = row /\ 0 <= c <= 8 /\ cell g r c = 0 /\
           forall c', 0 <= c' < c -> cell g row c' <> 0
       | None => forall c, 0 <= c <= 8 -> cell g row c <> 0
       end) 0 9) as (o & -> & Ho).
  { intros row Hrow.
    destruct (first_m_seqZ
      (fun col : Z =>
         v ← get_cell g row col;
         if v =? 0 then Ret (Some (row, col)) else Ret None)
      (fun col o =>
         match o with
         | Some p => p = (row, col) /\ cell g row col = 0
         | None => cell g row col <> 0
         end) 0 9) as (o & -> & Ho).
    { intros col Hcol. rewrite get_cell_shape9, bind_ret by (done || split; lia).
      destruct (Z.eqb_spec (cell g row col) 0) as [Hz|Hz]; by eexists. }
    exists o. split; [done|]. destruct o as [[r c]|].
    - destruct Ho as (x & Hx & [[= -> ->] Hz] & Hbefore).
      split; [done|]. split; [lia|]. split; [done|].
      intros c' Hc'. apply Hbefore. lia.
    - intros c Hc. apply Ho. lia. }
  exists o. split; [done|]. destruct o as [[r c]|].
  - destruct Ho as (x & Hx & (-> & Hc & Hz & Hcols) & Hbefore).
    split; [split; lia|]. split; [done|].
    intros r' c' [Hr' Hc'] [Hlt|[-> Hlt]].
    + apply (Hbefore r'); lia.
    + apply Hcols. lia.
  - intros r c [Hr Hc]. apply Ho; lia.
Qed.

(** X5: on a 9x9 grid [_find_empty_cell], of the board and of the
    generator alike, returns [None] exactly when no cell is empty, and
    otherwise the first empty cell in row-major order. *)
Theorem X5_find_empty_cell_is_row_major_first (g : grid) :
  shape9 g ->
  exists o,
    SudokuBoard._find_empty_cell g = Ret o /\
    SudokuPuzzleGenerator._find_empty_cell g = Ret o /\
    (o = None <-> complete g) /\
    (forall r c, o = Some (r, c) ->
       in_grid r c /\ cell g r c = 0 /\
       forall r' c', in_grid r' c' -> r' < r \/ (r' = r /\ c' < c) ->
                     cell g r' c' <> 0).
Proof.
  intros Hg. destruct (find_empty_cell_first g Hg) as (o & Hrun & Ho).
  exists o. split; [exact Hrun|]. split; [exact Hrun|]. split.
  - destruct o as [[r c]|]; [|done]. split; [done|]. intros Hc.
    destruct Ho as (Hin & Hz & _). by destruct (Hc r c Hin).
  - intros r c ->. exact Ho.
Qed.

Lemma X5_find_empty_cell_is_row_major_first_witness :
  SudokuBoard._find_empty_cell corner_five = Ret (Some (0, 1)).
Proof.
  destruct (X5_find_empty_cell_is_row_major_first corner_five)
    as (o & Hrun & _).
  - by_eval.
  - rewrite Hrun. vm_compute in Hrun. injection Hrun as <-. reflexivity.
Defined.

(** ** Placing, clearing and resetting *)

Lemma place_number_inv (self self' : SudokuBoard.t) (row col num : Z)
    (ok : bool) :
  SudokuBoard.place_number row col num self = Ret (ok, self') ->
  (ok = false /\ self' = self) \/
  (ok = true /\ exists g',
     set_cell (SudokuBoard.board self) row col num = Ret g' /\
     self' = SudokuBoard.with_board self g').
Proof.
  unfold SudokuBoard.place_number. destruct (Z.eqb_spec num 0) as [->|Hn].
  - intros H. apply bind_returns in H as (g' & Hset & H).
    injection H as <- <-. right. split; [done|]. by exists g'.
  - intros H. apply bind_returns in H as (b & Hv & H). destruct b; simpl in H.
    + apply bind_returns in H as (g' & Hset & H). injection H as <- <-.
      right. split; [done|]. by exists g'.
    + injection H as <- <-. by left.
Qed.

(** X6: whatever [place_number] did, on a board of any shape, [reset] gives
    the same board object as resetting before the placement: the cells are
    the initial grid again, and the initial grid and the stored solution
    are untouched. Resetting twice is resetting once. *)
Theorem X6_reset_undoes_placements (self self' : SudokuBoard.t)
    (row col num : Z) (ok : bool) :
  SudokuBoard.place_number row col num self = Ret (ok, self') ->
  SudokuBoard.reset self' = SudokuBoard.reset self /\
  SudokuBoard.board (SudokuBoard.reset self')
    = SudokuBoard.initial_board self /\
  SudokuBoard.reset (SudokuBoard.reset self') = SudokuBoard.reset self'.
Proof.
  intros H. apply place_number_inv in H as [[_ ->]|[_ (g' & _ & ->)]]; done.
Qed.

Lemma X6_reset_undoes_placements_witness :
  exists self',
    SudokuBoard.place_number 0 1 3 (board_of corner_five) = Ret (true, self') /\
    SudokuBoard.board (SudokuBoard.reset self') = corner_five.
Proof.
  assert (exists self', SudokuBoard.place_number 0 1 3 (board_of corner_five)
                        = Ret (true, self')) as [self' Hrun]
    by (eexists; vm_compute; reflexivity).
  exists self'. split; [exact Hrun|].
  exact (proj1 (proj2 (X6_reset_undoes_placements _ _ _ _ _ _ Hrun))).
Defined.

(** X7: on a board of any shape, a successful placement into a cell that
    reads 0 is undone by clearing the cell: [place_number] with 0 then
    succeeds and gives back the board object as it was before. *)
Theorem X7_clear_undoes_place (self self1 : SudokuBoard.t) (row col v : Z) :
  get_cell (SudokuBoard.board self) row col = Ret 0 ->
  SudokuBoard.place_number row col v self = Ret (true, self1) ->
  SudokuBoard.place_number row col 0 self1 = Ret (true, self).
Proof.
  intros Hz H.
  apply place_number_inv in H as [[? _]|[_ (g' & Hset & ->)]]; [done|].
  destruct (set_cell_get_cell _ row col 0 v Hz) as (g1 & Hset' & _ & Hback & _).
  rewrite Hset in Hset'. injection Hset' as <-.
  unfold SudokuBoard.place_number. cbn [Z.eqb SudokuBoard.with_board
    SudokuBoard.board]. rewrite Hback, bind_ret. by destruct self.
Qed.

Lemma X7_clear_undoes_place_witness :
  exists self1,
    SudokuBoard.place_number 0 1 3 (board_of corner_five) = Ret (true, self1) /\
    SudokuBoard.place_number 0 1 0 self1 = Ret (true, board_of corner_five).
Proof.
  assert (exists self1, SudokuBoard.place_number 0 1 3 (board_of corner_five)
                        = Ret (true, self1)) as [self1 Hrun]
    by (eexists; vm_compute; reflexivity).
  exists self1. split; [exact Hrun|].
  apply (X7_clear_undoes_place (board_of corner_five) self1 0 1 3);
    [|exact Hrun].
  vm_compute. reflexivity.
Defined.

(** ** Completeness checks *)

Lemma row_has_zero (row : list Z) :
  0 ∈ row <-> filter (fun v : Z => v = 0) row <> [].
Proof.
  induction row as [|x row IH]; [by rewrite elem_of_nil|].
  rewrite elem_of_cons, filter_cons. destruct (decide (x = 0)) as [->|Hx].
  - split; [done|]. by left.
  - rewrite IH. split; [intros [?|?]; done|by right].
Qed.

Lemma is_complete_empty_count (self : SudokuBoard.t) :
  SudokuBoard.is_complete self = true <->
  empty_count (SudokuBoard.board self) = 0%nat.
Proof.
  unfold SudokuBoard.is_complete, empty_count.
  induction (SudokuBoard.board self) as [|row g IH]; [done|].
  cbn [forallb concat]. rewrite andb_true_iff, IH, filter_app, length_app.
  rewrite negb_true_iff, bool_decide_eq_false, row_has_zero.
  rewrite Nat.eq_add_0, (length_zero_iff_nil (filter _ row)).
  split; intros [H1 H2]; (split; [|done]).
  - by destruct (filter _ row); [|destruct H1].
  - by intros ?.
Qed.

(** X8: [is_complete] answers [True] exactly when the count of empty cells
    that [get_difficulty_level] uses is zero, on a board of any shape. *)
Theorem X8_is_complete_iff_no_empty_cell (self : SudokuBoard.t) :
  SudokuBoard.is_complete self = true <->
  empty_count (SudokuBoard.board self) = 0%nat.
Proof. apply is_complete_empty_count. Qed.

Lemma size_list_to_set_le (l : list Z) :
  (size (list_to_set l : gset Z) <= length l)%nat.
Proof.
  induction l as [|x l IH]; [done|]. rewrite list_to_set_cons, size_union_alt.
  rewrite size_singleton. cbn [length].
  pose proof (subseteq_size (list_to_set l ∖ {[x]} : gset Z) (list_to_set l)
                (subseteq_difference_l _ _ _ (reflexivity _))). lia.
Qed.

(** A list with as many distinct values as elements repeats none. *)
Lemma size_list_to_set_NoDup (l : list Z) :
  size (list_to_set l : gset Z) = length l -> NoDup l.
Proof.
  induction l as [|x l IH]; [intros _; apply NoDup_nil_2|].
  rewrite list_to_set_cons. cbn [length]. intros Hsize.
  pose proof (size_list_to_set_le l) as Hle.
  destruct (decide (x ∈ l)) as [Hx|Hx].
  - rewrite (subseteq_union_1_L ({[x]} : gset Z) (list_to_set l)) in Hsize
      by (by apply singleton_subseteq_l, elem_of_list_to_set).
    lia.
  - rewrite size_union, size_singleton in Hsize
      by (by apply disjoint_singleton_l; rewrite elem_of_list_to_set).
    apply NoDup_cons. split; [done|]. apply IH. lia.
Qed.

Lemma is_complete_cells (self : SudokuBoard.t) :
  shape9 (SudokuBoard.board self) ->
  SudokuBoard.is_complete self = true -> complete (SudokuBoard.board self).
Proof.
  intros Hg Hc r c Hin Hz. unfold SudokuBoard.is_complete in Hc.
  rewrite forallb_forall in Hc.
  pose proof (cell_elem_of_row _ r c Hg Hin) as Hmem. rewrite Hz in Hmem.
  destruct Hin as [Hr _]. destruct Hg as [Hlen _].
  destruct (lookup_lt_is_Some_2 (SudokuBoard.board self) (Z.to_nat r))
    as [row Hrow]; [lia|].
  rewrite (list_lookup_total_correct _ _ _ Hrow) in Hmem.
  specialize (Hc row). rewrite negb_true_iff, bool_decide_eq_false in Hc.
  apply Hc; [|done]. apply list_elem_of_In. by eapply list_elem_of_lookup_2.
Qed.

(** The value of [is_valid_complete] on a 9x9 board, check by check. *)
Lemma is_valid_complete_eval (self : SudokuBoard.t) :
  shape9 (SudokuBoard.board self) ->
  let h := SudokuBoard.board self in
  let bad (u : list (Z * Z)) :=
    negb (size (list_to_set (unit_values h u) : gset Z) =? 9)%nat in
  SudokuBoard.is_valid_complete self =
  Ret (SudokuBoard.is_complete self
       && negb (existsb (fun row : list Z =>
                  negb (size (list_to_set row : gset Z) =? 9)%nat
                  || bool_decide (0 ∈ row)) h)
       && negb (existsb (fun col => bad (col_positions col)) (py_range 0 9))
       && negb (existsb (fun br =>
                  existsb (fun bc => bad (box_positions br bc)) [0; 3; 6])
                [0; 3; 6])).
Proof.
  intros Hs h bad. unfold SudokuBoard.is_valid_complete. fold h.
  destruct (SudokuBoard.is_complete self); [|done]. cbn [negb andb].
  destruct (existsb _ h); [done|]. cbn [negb].
  rewrite (any_m_ret _ (fun col => bad (col_positions col)) (py_range 0 9)),
    bind_ret.
  2:{ intros col Hcol. apply elem_of_py_range in Hcol. cbv beta.
      rewrite (for_m_collect (fun row => get_cell h row col)
                 (fun row => cell h row col)), bind_ret.
      2:{ intros row Hrow. apply elem_of_py_range in Hrow.
          by rewrite get_cell_shape9 by (done || split; lia). }
      rewrite app_nil_l. unfold bad, unit_values, col_positions.
      by rewrite <- list_fmap_compose. }
  destruct (existsb _ (py_range 0 9)); [done|]. cbn [negb].
  rewrite (any_m_ret _ (fun br =>
             existsb (fun bc => bad (box_positions br bc)) [0; 3; 6])),
    bind_ret.
  2:{ intros br Hbr. cbv beta. apply any_m_ret. intros bc Hbc. cbv beta.
      rewrite (for_m_nested
        (fun (r c : Z) (acc : list Z) =>
           v ← get_cell h r c; Ret (acc ++ [v]))).
      fold (box_positions br bc). cbv beta.
      rewrite (for_m_collect (fun p : Z * Z => get_cell h p.1 p.2)
                 (fun p : Z * Z => cell h p.1 p.2)), bind_ret.
      2:{ intros p Hp.
          pose proof units_in_grid_share as Hin.
          rewrite Forall_forall in Hin.
          specialize (Hin _ (box_positions_unit br bc Hbr Hbc)).
          rewrite Forall_forall in Hin. destruct (Hin p Hp) as [Hp' _].
          by rewrite get_cell_shape9. }
      by rewrite app_nil_l. }
  by destruct (existsb _ [0; 3; 6]).
Qed.

Lemma size_9_no_repeat (h : grid) (u : list (Z * Z)) :
  length u = 9%nat ->
  size (list_to_set (unit_values h u) : gset Z) = 9%nat ->
  no_repeat (unit_values h u).
Proof.
  intros Hlen Hsize. apply NoDup_filter, size_list_to_set_NoDup.
  unfold unit_values in *. by rewrite length_fmap, Hlen.
Qed.

Lemma is_valid_complete_spec (self : SudokuBoard.t) :
  shape9 (SudokuBoard.board self) ->
  exists b : bool,
    SudokuBoard.is_valid_complete self = Ret b /\
    (b = true <->
     complete (SudokuBoard.board self) /\
     consistent (SudokuBoard.board self)).
Proof.
  intros Hs. pose proof (is_valid_complete_eval self Hs) as Heval.
  cbv zeta in Heval. eexists. split; [exact Heval|]. split.
  - intros Hb. apply andb_prop in Hb as [Hb Hbox].
    apply andb_prop in Hb as [Hb Hcol]. apply andb_prop in Hb as [Hc Hrow].
    apply negb_true_iff in Hrow, Hcol, Hbox.
    split; [by apply is_complete_cells|].
    unfold consistent, units. rewrite !Forall_app. split; [|split].
    + apply Forall_fmap, Forall_forall. intros r Hr.
      apply elem_of_py_range in Hr. cbn [compose].
      apply size_9_no_repeat; [done|].
      rewrite unit_values_row by (done || lia).
      destruct Hs as [Hlen Hall].
      destruct (lookup_lt_is_Some_2 (SudokuBoard.board self) (Z.to_nat r))
        as [row Hrow']; [lia|].
      rewrite (list_lookup_total_correct _ _ _ Hrow').
      apply (existsb_false_elem _ _ row) in Hrow;
        [|by eapply list_elem_of_lookup_2].
      apply orb_false_elim in Hrow as [Hrow _].
      apply negb_false_iff, Nat.eqb_eq in Hrow. done.
    + apply Forall_fmap, Forall_forall. intros c Hc'. cbn [compose].
      apply size_9_no_repeat; [done|].
      apply (existsb_false_elem _ _ c) in Hcol; [|done].
      by apply negb_false_iff, Nat.eqb_eq in Hcol.
    + apply Forall_forall. intros u Hu.
      apply list_elem_of_bind in Hu as (br & Hu & Hbr).
      apply list_elem_of_fmap in Hu as (bc & -> & Hbc).
      apply (existsb_false_elem _ _ br) in Hbox; [|done].
      apply (existsb_false_elem _ _ bc) in Hbox; [|done].
      apply negb_false_iff, Nat.eqb_eq in Hbox.
      apply size_9_no_repeat; [|done].
      pose proof units_length as Hlen. rewrite Forall_forall in Hlen.
      by apply Hlen, box_positions_unit.
  - intros [Hc Hcons].
    pose proof (is_valid_complete_shape9 self Hs Hc Hcons) as Htrue.
    rewrite Heval in Htrue. by injection Htrue.
Qed.

(** X9: on a 9x9 board [is_valid_complete] returns without raising, and it
    answers [True] exactly when no cell is empty and no row, column or 3x3
    box repeats a value. It does not ask the values to be digits of
    1..9. *)
Theorem X9_is_valid_complete_characterised (self : SudokuBoard.t) :
  shape9 (SudokuBoard.board self) ->
  exists b : bool,
    SudokuBoard.is_valid_complete self = Ret b /\
    (b = true <->
     complete (SudokuBoard.board self) /\
     consistent (SudokuBoard.board self)).
Proof.
  apply is_valid_complete_spec.
Qed.

Lemma X9_is_valid_complete_characterised_witness :
  SudokuBoard.is_valid_complete (board_of all_fives) = Ret false.
Proof.
  destruct (X9_is_valid_complete_characterised (board_of all_fives))
    as (b & Hrun & Hb).
  - by_eval.
  - rewrite Hrun. destruct b; [|reflexivity].
    vm_compute in Hrun. discriminate Hrun.
Defined.

(** ** The label of a generated puzzle *)

Lemma generate_puzzle_board {R : Type} `{!RandomSource R} (fuel : nat)
    (difficulty : string) (rng rng' : R) (puzzle : SudokuBoard.t) :
  SudokuPuzzleGenerator.generate_puzzle fuel difficulty rng
    = Ret (puzzle, rng') ->
  SudokuBoard.board puzzle = SudokuBoard.initial_board puzzle.
Proof.
  unfold SudokuPuzzleGenerator.generate_puzzle. cbv zeta. intros H.
  apply bind_returns in H as ([[ok g1] rng1] & _ & H).
  apply bind_returns in H as ([g2 rng2] & _ & H).
  apply bind_returns in H as (b & Hinit & H). injection H as <- _.
  apply init_fields in Hinit as [-> ->]. done.
Qed.

(** X10: whenever [generate_puzzle] returns, for any random source,
    [get_difficulty_level] of the new board is the label that was asked
    for, for each of Easy, Medium, Hard and Expert; a label that is not in
    the table gives a Medium puzzle. *)
Theorem X10_generated_puzzle_has_its_label (R : Type) (src : RandomSource R)
    (fuel : nat) (difficulty : string) (rng rng' : R)
    (puzzle : SudokuBoard.t) :
  SudokuPuzzleGenerator.generate_puzzle fuel difficulty rng
    = Ret (puzzle, rng') ->
  (difficulty ∈ ["Easy"; "Medium"; "Hard"; "Expert"] ->
   SudokuBoard.get_difficulty_level puzzle = difficulty) /\
  (SudokuPuzzleGenerator.difficulty_map !! difficulty = None ->
   SudokuBoard.get_difficulty_level puzzle = "Medium").
Proof.
  intros Hrun. pose proof (generate_puzzle_board _ _ _ _ _ Hrun) as Hboard.
  pose proof (generate_puzzle_count _ _ _ _ _ Hrun) as Hcount.
  unfold SudokuBoard.get_difficulty_level. rewrite Hboard.
  split.
  - intros Hlabel.
    repeat (apply elem_of_cons in Hlabel as [->|Hlabel];
      [rewrite Hcount by (by vm_compute);
       vm_compute; reflexivity|]).
    by apply elem_of_nil in Hlabel.
  - intros Hnone. rewrite Hnone in Hcount. cbn [default] in Hcount.
    rewrite Hcount by lia. reflexivity.
Qed.

Lemma X10_generated_puzzle_has_its_label_witness :
  exists puzzle rng',
    SudokuPuzzleGenerator.generate_puzzle 1000 "Easy" 2025
      = Ret (puzzle, rng') /\
    SudokuBoard.get_difficulty_level puzzle = "Easy".
Proof.
  assert (exists puzzle rng',
            SudokuPuzzleGenerator.generate_puzzle 1000 "Easy" 2025
            = Ret (puzzle, rng')) as (puzzle & rng' & Hrun)
    by (eexists _, _; vm_compute; reflexivity).
  exists puzzle, rng'. split; [exact Hrun|].
  apply (X10_generated_puzzle_has_its_label Z lcg_source 1000 "Easy"
           2025 rng' puzzle Hrun).
  apply list_elem_of_here.
Defined.

(** ** The basic hints *)

Lemma foldl_min_spec (x : Z) (l : list Z) :
  foldl Z.min x l ∈ x :: l /\ forall m, m ∈ x :: l -> foldl Z.min x l <= m.
Proof.
  revert x. induction l as [|y l IH]; intros x.
  { cbn [foldl]. split; [apply list_elem_of_here|].
    intros m Hm. apply list_elem_of_singleton in Hm. lia. }
  cbn [foldl]. destruct (IH (Z.min x y)) as [Hin Hle]. split.
  - apply elem_of_cons in Hin as [Heq|Hin].
    + rewrite Heq. destruct (Z.min_spec x y) as [[_ ->]|[_ ->]].
      * apply list_elem_of_here.
      * apply list_elem_of_further, list_elem_of_here.
    + by do 2 apply list_elem_of_further.
  - intros m Hm.
    pose proof (Hle (Z.min x y) (list_elem_of_here _ _)) as Hmin.
    apply elem_of_cons in Hm as [->|Hm]; [lia|].
    apply elem_of_cons in Hm as [->|Hm]; [lia|].
    by apply Hle, list_elem_of_further.
Qed.

(** X11: on a 9x9 board and for a cell inside the grid,
    [get_hint_for_cell] returns [None] exactly when [get_possibilities]
    returns the empty set (the cell is filled, or no digit fits), and
    otherwise the least digit of that set. *)
Theorem X11_get_hint_for_cell_is_least_candidate (self : SudokuBoard.t)
    (row col : Z) :
  shape9 (SudokuBoard.board self) -> in_grid row col ->
  exists (s : gset Z) (o : option Z),
    SudokuBoard.get_possibilities row col self = Ret (s, self) /\
    SudokuAISolver.get_hint_for_cell row col self = Ret o /\
    (o = None <-> s = ∅) /\
    (forall n, o = Some n -> n ∈ s /\ forall m, m ∈ s -> n <= m).
Proof.
  intros Hg Hin. unfold SudokuAISolver.get_hint_for_cell.
  rewrite get_possibilities_shape9 by done. rewrite bind_ret.
  set (s := candidates (SudokuBoard.board self) row col).
  exists s. destruct (elements s) as [|x rest] eqn:Hel.
  - exists None. split; [done|]. split; [done|].
    apply elements_empty_inv in Hel. apply leibniz_equiv in Hel.
    split; [done|]. intros n [=].
  - exists (Some (foldl Z.min x rest)). split; [done|]. split; [done|].
    destruct (foldl_min_spec x rest) as [Hin' Hle]. split.
    + split; [done|]. intros Hs. rewrite Hs, elements_empty in Hel. done.
    + intros n [= <-]. split.
      * apply elem_of_elements. by rewrite Hel.
      * intros m Hm. apply Hle. rewrite <- Hel. by apply elem_of_elements.
Qed.

Lemma X11_get_hint_for_cell_is_least_candidate_witness :
  SudokuAISolver.get_hint_for_cell 1 1 (board_of dead_corner) = Ret (Some 3).
Proof.
  destruct (X11_get_hint_for_cell_is_least_candidate
              (board_of dead_corner) 1 1) as (s & o & _ & Hrun & _).
  - by_eval.
  - by_eval.
  - rewrite Hrun. vm_compute in Hrun. injection Hrun as <-. reflexivity.
Defined.

(** Python's [min] with a key keeps the first of the least items. *)
Lemma key_lt_trans (a b c : SudokuAISolver.sort_key) :
  SudokuAISolver.key_lt a b = true -> SudokuAISolver.key_lt b c = true ->
  SudokuAISolver.key_lt a c = true.
Proof.
  destruct a, b, c; cbn [SudokuAISolver.key_lt]; try done.
  rewrite !Nat.ltb_lt. lia.
Qed.

Lemma key_lt_le_trans (a b c : SudokuAISolver.sort_key) :
  SudokuAISolver.key_lt a b = true -> SudokuAISolver.key_lt c b = false ->
  SudokuAISolver.key_lt a c = true.
Proof.
  destruct a, b, c; cbn [SudokuAISolver.key_lt]; try done.
  rewrite !Nat.ltb_lt, Nat.ltb_ge. lia.
Qed.

Lemma min_by_split {A} (key : A -> SudokuAISolver.sort_key) (xs : list A) :
  forall (l1 l2 : list A) (best : A),
    (forall y, y ∈ l1 ->
       SudokuAISolver.key_lt (key best) (key y) = true) ->
    (forall y, y ∈ l2 ->
       SudokuAISolver.key_lt (key y) (key best) = false) ->
    exists l1' l2',
      l1 ++ best :: l2 ++ xs
        = l1' ++ SudokuAISolver.min_by key best xs :: l2' /\
      (forall y, y ∈ l1' ->
         SudokuAISolver.key_lt (key (SudokuAISolver.min_by key best xs))
           (key y) = true) /\
      (forall y, y ∈ l2' ->
         SudokuAISolver.key_lt (key y)
           (key (SudokuAISolver.min_by key best xs)) = false).
Proof.
  induction xs as [|x xs IH]; intros l1 l2 best H1 H2.
  { exists l1, l2. by rewrite app_nil_r. }
  cbn [SudokuAISolver.min_by].
  destruct (SudokuAISolver.key_lt (key x) (key best)) eqn:Hlt.
  - destruct (IH (l1 ++ best :: l2) [] x) as (l1' & l2' & Heq & Hl1 & Hl2).
    + intros y Hy. apply elem_of_app in Hy as [Hy|Hy].
      * eapply key_lt_trans; [done|]. by apply H1.
      * apply elem_of_cons in Hy as [->|Hy]; [done|].
        eapply key_lt_le_trans; [done|]. by apply H2.
    + intros y Hy. by apply elem_of_nil in Hy.
    + exists l1', l2'. rewrite <- Heq, <- !app_assoc. done.
  - destruct (IH l1 (l2 ++ [x]) best) as (l1' & l2' & Heq & Hl1 & Hl2).
    + done.
    + intros y Hy. apply elem_of_app in Hy as [Hy|Hy]; [by apply H2|].
      by apply list_elem_of_singleton in Hy as ->.
    + exists l1', l2'. rewrite <- Heq, <- !app_assoc. done.
Qed.

Lemma elem_of_candidate_entries (g : grid) (k : Z * Z) (s : gset Z) :
  (k, s) ∈ candidate_entries g all_positions <->
  in_grid k.1 k.2 /\ cell g k.1 k.2 = 0 /\ candidates g k.1 k.2 <> ∅ /\
  s = candidates g k.1 k.2.
Proof.
  rewrite <- dict_get_elem_of
    by apply candidate_entries_NoDup, all_positions_NoDup.
  rewrite dict_get_candidate_entries. destruct k as [r c].
  by rewrite <- in_grid_all_positions.
Qed.

(** X12: on a 9x9 board [find_best_cell_to_fill] returns [None] exactly
    when no cell of the grid has a candidate. Otherwise it returns an empty
    cell with the fewest candidates among the cells that have one, and of
    several such cells the first in row-major order: every entry before it
    in the dictionary of [get_all_possibilities] has strictly more. *)
Theorem X12_find_best_cell_has_fewest_candidates (self : SudokuBoard.t) :
  shape9 (SudokuBoard.board self) ->
  let g := SudokuBoard.board self in
  exists o,
    SudokuAISolver.find_best_cell_to_fill self = Ret o /\
    (o = None <-> forall r c, in_grid r c -> candidates g r c = ∅) /\
    (forall r c, o = Some (r, c) ->
       in_grid r c /\ cell g r c = 0 /\ candidates g r c <> ∅ /\
       (forall r' c', in_grid r' c' -> candidates g r' c' <> ∅ ->
          (size (candidates g r c) <= size (candidates g r' c'))%nat) /\
       exists d1 d2,
         SudokuBoard.get_all_possibilities self
           = Ret (d1 ++ ((r, c), candidates g r c) :: d2, self) /\
         forall k s, (k, s) ∈ d1 ->
           (size (candidates g r c) < size s)%nat).
Proof.
  intros Hg g. unfold SudokuAISolver.find_best_cell_to_fill.
  rewrite get_all_possibilities_shape9 by done. rewrite bind_ret.
  fold g. pose proof (elem_of_candidate_entries g) as Hmem.
  assert (Hfilled : forall r c, cell g r c <> 0 -> candidates g r c = ∅).
  { intros r c Hnz. unfold candidates. by rewrite decide_True. }
  destruct (candidate_entries g all_positions) as [|first rest] eqn:Hd.
  { exists None. split; [done|]. split; [|done]. split; [|done].
    intros _ r c Hin. destruct (decide (candidates g r c = ∅)) as [|Hne];
      [done|].
    destruct (decide (cell g r c = 0)) as [Hz|Hnz]; [|by apply Hfilled].
    assert (((r, c), candidates g r c) ∈ @nil (Z * Z * gset Z)) as Hnil
      by (by apply Hmem).
    by apply elem_of_nil in Hnil. }
  destruct (min_by_split SudokuAISolver.possibilities_key rest [] [] first)
    as (d1 & d2 & Hsplit & Hd1 & Hd2).
  { intros y Hy. by apply elem_of_nil in Hy. }
  { intros y Hy. by apply elem_of_nil in Hy. }
  cbn [app] in Hsplit.
  set (best := SudokuAISolver.min_by SudokuAISolver.possibilities_key
                 first rest) in *.
  assert (Hkey : forall item : Z * Z * gset Z, item ∈ first :: rest ->
            SudokuAISolver.possibilities_key item
              = SudokuAISolver.Finite (size item.2) /\ item.2 <> ∅).
  { intros [k s] Hitem. apply Hmem in Hitem as (_ & _ & Hne & ->).
    unfold SudokuAISolver.possibilities_key. cbn [snd]. split; [|done].
    destruct (Nat.eqb_spec (size (candidates g k.1 k.2)) 0) as [Hz|]; [|done].
    by apply size_empty_inv, leibniz_equiv in Hz. }
  assert (Hbest : best ∈ first :: rest).
  { rewrite Hsplit. apply elem_of_app. right. apply list_elem_of_here. }
  destruct best as [[r c] s] eqn:Hbest_eq.
  pose proof (proj1 (Hmem (r, c) s) Hbest) as (Hin & Hz & Hne & Hs).
  cbn [fst snd] in *. subst s.
  exists (Some (r, c)). split.
  { f_equal. by rewrite bool_decide_eq_true_2. }
  split.
  { split; [done|]. intros Hall. by destruct Hne, (Hall r c). }
  intros r0 c0 [= <- <-]. do 3 (split; [done|]). split.
  - intros r' c' Hin' Hne'.
    assert (Hitem : ((r', c'), candidates g r' c') ∈ first :: rest).
    { apply Hmem. cbn [fst snd]. split; [done|]. split; [|done].
      destruct (decide (cell g r' c' = 0)) as [|Hnz]; [done|].
      destruct Hne'. by apply Hfilled. }
    destruct (Hkey _ Hbest) as [Hkb _]. destruct (Hkey _ Hitem) as [Hki _].
    cbn [snd] in Hkb, Hki. rewrite Hsplit in Hitem.
    apply elem_of_app in Hitem as [Hitem|Hitem].
    + apply Hd1 in Hitem. rewrite Hkb, Hki in Hitem.
      cbn [SudokuAISolver.key_lt] in Hitem. apply Nat.ltb_lt in Hitem. lia.
    + apply elem_of_cons in Hitem as [Heq|Hitem].
      { injection Heq as -> ->. done. }
      apply Hd2 in Hitem. rewrite Hkb, Hki in Hitem.
      cbn [SudokuAISolver.key_lt] in Hitem. apply Nat.ltb_ge in Hitem. lia.
  - exists d1, d2. split.
    { by rewrite Hsplit. }
    intros k s Hks.
    assert (Hitem : (k, s) ∈ first :: rest).
    { rewrite Hsplit. apply elem_of_app. by left. }
    destruct (Hkey _ Hbest) as [Hkb _]. destruct (Hkey _ Hitem) as [Hki _].
    cbn [snd] in Hkb, Hki. apply Hd1 in Hks. rewrite Hkb, Hki in Hks.
    cbn [SudokuAISolver.key_lt] in Hks. by apply Nat.ltb_lt in Hks.
Qed.

Lemma X12_find_best_cell_has_fewest_candidates_witness :
  SudokuAISolver.find_best_cell_to_fill (board_of first_row_but_one)
    = Ret (Some (0, 0)).
Proof.
  destruct (X12_find_best_cell_has_fewest_candidates
              (board_of first_row_but_one)) as (o & Hrun & _).
  - by_eval.
  - rewrite Hrun. vm_compute in Hrun. injection Hrun as <-. reflexivity.
Defined.

(** ** Soundness of the deductions *)

Lemma fills_cell_candidate (g h : grid) (r c : Z) :
  in_grid r c -> cell g r c = 0 -> fills g h ->
  cell h r c ∈ candidates g r c.
Proof.
  intros Hin Hz Hfills. apply candidates_spec; [done|].
  split; [done|]. split; [|by apply fills_not_held].
  destruct Hfills as (_ & _ & _ & Hf). by destruct (Hf r c Hin Hz).
Qed.

(** Every unit of a valid complete grid holds each of the nine digits. *)
Lemma unit_covers_digits (h : grid) (u : list (Z * Z)) (n : Z) :
  well_formed h -> complete h -> consistent h -> u ∈ units ->
  1 <= n <= 9 -> exists r c, (r, c) ∈ u /\ cell h r c = n.
Proof.
  intros [Hs Hd] Hc Hcons Hu Hn. apply elem_of_unit_values.
  pose proof (unit_values_distinct h u Hs Hc Hcons Hu) as Hsize.
  pose proof units_in_grid_share as Hin. rewrite Forall_forall in Hin.
  specialize (Hin u Hu). rewrite Forall_forall in Hin.
  assert (Hsub : (list_to_set (unit_values h u) : gset Z)
                   ⊆ list_to_set (py_range 1 10)).
  { intros v Hv. apply elem_of_list_to_set in Hv.
    apply elem_of_unit_values in Hv as (r & c & Hp & <-).
    destruct (Hin (r, c) Hp) as [Hrc _]. cbn [fst snd] in Hrc.
    apply elem_of_list_to_set, elem_of_py_range.
    pose proof (digits_cell h r c Hs Hd Hrc). pose proof (Hc r c Hrc). lia. }
  apply set_subseteq_size_eq in Hsub.
  - apply (elem_of_list_to_set (C := gset Z)). rewrite Hsub.
    apply elem_of_list_to_set, elem_of_py_range. lia.
  - rewrite Hsize. by vm_compute.
Qed.

Lemma naked_single_forced (g : grid) (r c n : Z) :
  naked_single g r c n -> forced g r c n.
Proof.
  intros (Hin & Hz & Hcand) h Hvalid.
  pose proof (fills_cell_candidate g h r c Hin Hz
                (valid_completion_fills g h Hvalid)) as Hh.
  rewrite Hcand in Hh. by apply elem_of_singleton in Hh.
Qed.

Lemma hidden_single_in_row_forced (g : grid) (r c n : Z) :
  hidden_single_in_row g r c n -> forced g r c n.
Proof.
  intros ([Hr Hc] & Hn & Habsent & _ & Honly) h Hvalid.
  pose proof (valid_completion_fills g h Hvalid) as Hfills.
  destruct Hvalid as (Hwf & Hcomp & Hcons & Hext).
  destruct (unit_covers_digits h (row_positions r) n Hwf Hcomp Hcons
              (row_positions_unit r Hr) Hn) as (r' & c' & Hp & Hv).
  apply elem_of_row_positions in Hp as [-> Hc'].
  destruct (decide (cell g r c' = 0)) as [Hz|Hnz].
  - rewrite <- (Honly c' Hc'); [done|]. rewrite <- Hv.
    by apply fills_cell_candidate.
  - destruct (Habsent c' Hc'). rewrite <- Hv. symmetry. by apply Hext.
Qed.

Lemma hidden_single_in_column_forced (g : grid) (r c n : Z) :
  hidden_single_in_column g r c n -> forced g r c n.
Proof.
  intros ([Hr Hc] & Hn & Habsent & _ & Honly) h Hvalid.
  pose proof (valid_completion_fills g h Hvalid) as Hfills.
  destruct Hvalid as (Hwf & Hcomp & Hcons & Hext).
  destruct (unit_covers_digits h (col_positions c) n Hwf Hcomp Hcons
              (col_positions_unit c Hc) Hn) as (r' & c' & Hp & Hv).
  apply elem_of_col_positions in Hp as [-> Hr'].
  destruct (decide (cell g r' c = 0)) as [Hz|Hnz].
  - rewrite <- (Honly r' Hr'); [done|]. rewrite <- Hv.
    by apply fills_cell_candidate.
  - destruct (Habsent r' Hr'). rewrite <- Hv. symmetry. by apply Hext.
Qed.

(** A candidate of a cell is a digit that [place_number] accepts there. *)
Lemma candidate_placeable (self : SudokuBoard.t) (r c n : Z) :
  shape9 (SudokuBoard.board self) -> in_grid r c ->
  n ∈ candidates (SudokuBoard.board self) r c ->
  SudokuBoard.place_number r c n self =
  Ret (true, SudokuBoard.with_board self
               (grid_update (SudokuBoard.board self) r c n)).
Proof.
  intros Hg Hin Hn. apply candidates_spec in Hn as (_ & Hn & Hfree); [|done].
  destruct (place_number_nonzero self r c n Hg Hin ltac:(lia))
    as (ok & Hrun & Hok).
  apply Hok in Hfree. by subst ok.
Qed.

(** X13: on a 9x9 board every triple [(row, col, num)] that
    [find_naked_singles] lists names a digit that [place_number] accepts at
    that cell and that every valid completion of the grid holds there. *)
Theorem X13_naked_singles_are_forced (self : SudokuBoard.t)
    (l : list (Z * Z * Z)) :
  shape9 (SudokuBoard.board self) ->
  AdvancedSudokuAISolver.find_naked_singles self = Ret l ->
  forall r c n, (r, c, n) ∈ l ->
    SudokuBoard.place_number r c n self =
      Ret (true, SudokuBoard.with_board self
                   (grid_update (SudokuBoard.board self) r c n)) /\
    forced (SudokuBoard.board self) r c n.
Proof.
  intros Hg Hrun r c n Hl.
  destruct (find_naked_singles_shape9 self Hg) as (l' & Hrun' & Hspec).
  rewrite Hrun in Hrun'. injection Hrun' as <-.
  apply Hspec in Hl. split; [|by apply naked_single_forced].
  destruct Hl as (Hin & _ & Hcand). apply candidate_placeable; [done..|].
  rewrite Hcand. by apply elem_of_singleton.
Qed.

Lemma X13_naked_singles_are_forced_witness :
  forced first_row_but_one 0 0 1.
Proof.
  assert (exists l,
            AdvancedSudokuAISolver.find_naked_singles
              (board_of first_row_but_one) = Ret l /\ (0, 0, 1) ∈ l)
    as (l & Hrun & Hl)
    by (eexists; split; [vm_compute; reflexivity|apply list_elem_of_here]).
  apply (X13_naked_singles_are_forced (board_of first_row_but_one) l
           ltac:(by_eval) Hrun 0 0 1 Hl).
Defined.

(** X14: on a 9x9 board every triple that [find_hidden_singles_in_row]
    lists for a row lies in that row and names a digit that [place_number]
    accepts at that cell and that every valid completion of the grid holds
    there. *)
Theorem X14_hidden_singles_in_row_are_forced (self : SudokuBoard.t)
    (row : Z) (l : list (Z * Z * Z)) :
  shape9 (SudokuBoard.board self) -> 0 <= row <= 8 ->
  AdvancedSudokuAISolver.find_hidden_singles_in_row row self = Ret l ->
  forall r c n, (r, c, n) ∈ l ->
    r = row /\
    SudokuBoard.place_number r c n self =
      Ret (true, SudokuBoard.with_board self
                   (grid_update (SudokuBoard.board self) r c n)) /\
    forced (SudokuBoard.board self) r c n.
Proof.
  intros Hg Hrow Hrun r c n Hl.
  destruct (find_hidden_singles_in_row_shape9 self row Hg Hrow)
    as (l' & Hrun' & Hspec).
  rewrite Hrun in Hrun'. injection Hrun' as <-.
  apply Hspec in Hl as [-> Hl]. split; [done|].
  split; [|by apply hidden_single_in_row_forced].
  destruct Hl as (Hin & _ & _ & Hcand & _). by apply candidate_placeable.
Qed.

Lemma X14_hidden_singles_in_row_are_forced_witness :
  forced hidden_corner 0 0 1.
Proof.
  assert (exists l,
            AdvancedSudokuAISolver.find_hidden_singles_in_row 0
              (board_of hidden_corner) = Ret l /\ (0, 0, 1) ∈ l)
    as (l & Hrun & Hl)
    by (eexists; split; [vm_compute; reflexivity|apply list_elem_of_here]).
  apply (X14_hidden_singles_in_row_are_forced (board_of hidden_corner) 0 l
           ltac:(by_eval) ltac:(lia) Hrun 0 0 1 Hl).
Defined.

(** X15: on a 9x9 board every triple that [find_hidden_singles_in_column]
    lists for a column lies in that column and names a digit that
    [place_number] accepts at that cell and that every valid completion of
    the grid holds there. *)
Theorem X15_hidden_singles_in_column_are_forced (self : SudokuBoard.t)
    (col : Z) (l : list (Z * Z * Z)) :
  shape9 (SudokuBoard.board self) -> 0 <= col <= 8 ->
  AdvancedSudokuAISolver.find_hidden_singles_in_column col self = Ret l ->
  forall r c n, (r, c, n) ∈ l ->
    c = col /\
    SudokuBoard.place_number r c n self =
      Ret (true, SudokuBoard.with_board self
                   (grid_update (SudokuBoard.board self) r c n)) /\
    forced (SudokuBoard.board self) r c n.
Proof.
  intros Hg Hcol Hrun r c n Hl.
  destruct (find_hidden_singles_in_column_shape9 self col Hg Hcol)
    as (l' & Hrun' & Hspec).
  rewrite Hrun in Hrun'. injection Hrun' as <-.
  apply Hspec in Hl as [-> Hl]. split; [done|].
  split; [|by apply hidden_single_in_column_forced].
  destruct Hl as (Hin & _ & _ & Hcand & _). by apply candidate_placeable.
Qed.

Lemma X15_hidden_singles_in_column_are_forced_witness :
  SudokuBoard.place_number 0 0 1 (board_of hidden_corner) =
  Ret (true, SudokuBoard.with_board (board_of hidden_corner)
               (grid_update hidden_corner 0 0 1)).
Proof.
  assert (exists l,
            AdvancedSudokuAISolver.find_hidden_singles_in_column 0
              (board_of hidden_corner) = Ret l /\ (0, 0, 1) ∈ l)
    as (l & Hrun & Hl)
    by (eexists; split; [vm_compute; reflexivity|apply list_elem_of_here]).
  apply (X15_hidden_singles_in_column_are_forced (board_of hidden_corner)
           0 l ltac:(by_eval) ltac:(lia) Hrun 0 0 1 Hl).
Defined.

(** X16: every hint of [get_advanced_hint] on a 9x9 board is sound: the
    text it returns is the message of a deduction whose cell lies in the
    grid and is empty, and whose digit [place_number] accepts there and
    every valid completion of the grid holds there. *)
Theorem X16_advanced_hints_are_sound (self : SudokuBoard.t) (text : string) :
  shape9 (SudokuBoard.board self) ->
  AdvancedSudokuAISolver.get_advanced_hint self = Ret (Some text) ->
  exists d r c n,
    text = AdvancedSudokuAISolver.hint_text d /\
    deduction_cell d = (r, c, n) /\
    in_grid r c /\ cell (SudokuBoard.board self) r c = 0 /\
    SudokuBoard.place_number r c n self =
      Ret (true, SudokuBoard.with_board self
                   (grid_update (SudokuBoard.board self) r c n)) /\
    forced (SudokuBoard.board self) r c n.
Proof.
  intros Hg Hrun. unfold AdvancedSudokuAISolver.get_advanced_hint in Hrun.
  apply bind_returns in Hrun as (found & Hded & Htext).
  destruct found as [d|]; [|done]. injection Htext as <-.
  exists d. unfold AdvancedSudokuAISolver.advanced_deduction in Hded.
  apply bind_returns in Hded as (singles & Hnaked & Hded).
  destruct (find_naked_singles_shape9 self Hg) as (l' & Hrun' & Hspec).
  rewrite Hnaked in Hrun'. injection Hrun' as <-.
  destruct singles as [|[[r c] n] singles].
  - apply bind_returns in Hded as (in_rows & Hrows & Hded).
    destruct in_rows as [d'|].
    + injection Hded as ->.
      apply first_m_Some in Hrows as (row & Hrow & Hbody).
      apply elem_of_py_range in Hrow.
      apply bind_returns in Hbody as (l & Hl & Hbody).
      destruct l as [|[[r c] n] l]; [done|]. injection Hbody as <-.
      destruct (find_hidden_singles_in_row_shape9 self row Hg ltac:(lia))
        as (l' & Hrun' & Hspec').
      rewrite Hl in Hrun'. injection Hrun' as <-.
      destruct (proj1 (Hspec' r c n) (list_elem_of_here _ _)) as [-> Hh].
      exists row, c, n. split; [done|]. split; [done|].
      pose proof (hidden_single_in_row_forced _ _ _ _ Hh) as Hforced.
      destruct Hh as (Hin & _ & _ & Hcand & _).
      split; [done|]. split; [|split; [by apply candidate_placeable|done]].
      by apply candidates_spec in Hcand as [? _].
    + apply first_m_Some in Hded as (col & Hcol & Hbody).
      apply elem_of_py_range in Hcol.
      apply bind_returns in Hbody as (l & Hl & Hbody).
      destruct l as [|[[r c] n] l]; [done|]. injection Hbody as <-.
      destruct (find_hidden_singles_in_column_shape9 self col Hg ltac:(lia))
        as (l' & Hrun' & Hspec').
      rewrite Hl in Hrun'. injection Hrun' as <-.
      destruct (proj1 (Hspec' r c n) (list_elem_of_here _ _)) as [-> Hh].
      exists r, col, n. split; [done|]. split; [done|].
      pose proof (hidden_single_in_column_forced _ _ _ _ Hh) as Hforced.
      destruct Hh as (Hin & _ & _ & Hcand & _).
      split; [done|]. split; [|split; [by apply candidate_placeable|done]].
      by apply candidates_spec in Hcand as [? _].
  - injection Hded as <-. exists r, c, n. split; [done|]. split; [done|].
    pose proof (proj1 (Hspec r c n) (list_elem_of_here _ _)) as Hn.
    pose proof (naked_single_forced _ _ _ _ Hn) as Hforced.
    destruct Hn as (Hin & Hz & Hcand). do 2 (split; [done|]).
    split; [|done]. apply candidate_placeable; [done..|].
    rewrite Hcand. by apply elem_of_singleton.
Qed.

Lemma X16_advanced_hints_are_sound_witness :
  exists d r c n,
    "Hidden Single in Row 1: Number 1 can only go at (1, 1)"
      = AdvancedSudokuAISolver.hint_text d /\
    deduction_cell d = (r, c, n) /\
    in_grid r c /\ cell hidden_corner r c = 0 /\
    SudokuBoard.place_number r c n (board_of hidden_corner) =
      Ret (true, SudokuBoard.with_board (board_of hidden_corner)
                   (grid_update hidden_corner r c n)) /\
    forced hidden_corner r c n.
Proof.
  apply (X16_advanced_hints_are_sound (board_of hidden_corner)).
  - by_eval.
  - vm_compute. reflexivity.
Defined.

(** ** The generator as a search *)

Lemma lcg_shuffle_permutes : shuffle_permutes Z.
Proof.
  intros l rng. cbn [shuffle lcg_source fst].
  rewrite Permutation_app_comm. by rewrite take_drop.
Qed.

(** A write through Python indices, negative ones included, is a write to
    a cell of the grid. *)
Lemma set_cell_grid_update (g : grid) (r c v : Z) :
  shape9 g -> get_cell g r c = Ret v ->
  exists r0 c0,
    in_grid r0 c0 /\ cell g r0 c0 = v /\
    forall w, set_cell g r c w = Ret (grid_update g r0 c0 w).
Proof.
  intros Hg H. apply get_cell_inv in H as (i & j & row & Hi & Hgi & Hj & Hrj).
  pose proof (py_index_lt _ _ _ Hi) as Hilt.
  pose proof (py_index_lt _ _ _ Hj) as Hjlt.
  destruct Hg as [Hlen Hrows].
  rewrite (Forall_lookup_1 _ _ _ _ Hrows Hgi) in Hjlt.
  exists (Z.of_nat i), (Z.of_nat j). split; [split; lia|]. split.
  - unfold cell. rewrite !Nat2Z.id.
    rewrite (list_lookup_total_correct _ _ _ Hgi).
    by rewrite (list_lookup_total_correct _ _ _ Hrj).
  - intros w. unfold set_cell, getitem, setitem, grid_update.
    rewrite Hi, bind_ret, Hgi, bind_ret, Hj, !bind_ret. f_equal.
    rewrite !Nat2Z.id. apply list_eq. intros k. rewrite list_lookup_alter.
    destruct (decide (i = k)) as [<-|Hne].
    + rewrite list_lookup_insert_eq by lia. by rewrite Hgi.
    + by rewrite list_lookup_insert_ne.
Qed.

(** A valid complete grid fills every grid obtained from it by clearing
    cells, and such a grid is well formed and consistent. *)
Lemma cleared_grid_fills (g h : grid) :
  well_formed h -> complete h -> consistent h -> shape9 g ->
  (forall r c, in_grid r c -> cell g r c = 0 \/ cell g r c = cell h r c) ->
  fills g h /\ well_formed g /\ consistent g.
Proof.
  intros [Hs Hd] Hc Hcons Hg Hcells.
  apply consistent_pairwise in Hcons. split; [|split].
  - split; [done|]. split; [done|]. split.
    + intros r c Hin Hnz. by destruct (Hcells r c Hin).
    + intros r c Hin Hz. split.
      * pose proof (digits_cell h r c Hs Hd Hin). pose proof (Hc r c Hin).
        lia.
      * intros r' c' Hin' Hne Hsh. apply Hcons; try done.
        -- by apply shares_unit_sym.
        -- by apply Hc.
  - split; [done|]. apply cells_digits; [done|]. intros r c Hin.
    destruct (Hcells r c Hin) as [-> | ->]; [lia|by apply digits_cell].
  - apply consistent_pairwise. intros r c r' c' Hin Hin' Hne Hsh Hnz.
    destruct (Hcells r c Hin) as [?|Hrc]; [done|].
    destruct (Hcells r' c' Hin') as [Hz|Hrc']; [by rewrite Hz|].
    rewrite Hrc, Hrc'. apply Hcons; try done. by rewrite <- Hrc.
Qed.

Lemma init_solution_found (g h : grid) (b : SudokuBoard.t) :
  shape9 g -> fills g h -> SudokuBoard.__init__ (Some g) = Ret b ->
  exists s, b = SudokuBoard.mk g g (Some s) /\ fills g s.
Proof.
  intros Hg Hh. unfold SudokuBoard.__init__, SudokuBoard._generate_solution.
  cbn [SudokuBoard.board SudokuBoard.initial_board].
  destruct (solve_with_backtracking_shape9 g Hg) as (ok & g' & -> & Ht & Hf).
  rewrite bind_ret. destruct ok; rewrite bind_ret; intros [= <-].
  - exists g'. split; [done|]. by apply Ht.
  - destruct (Hf eq_refl) as [_ Hnone]. by destruct (Hnone h).
Qed.

Section GeneratorSearch.
Context {R : Type} `{!RandomSource R}.

Lemma generator_try_numbers_fills
    (rec : R -> grid -> outcome (bool * grid * R)) (n : nat) (r c : Z) :
  (forall rng1 g1, shape9 g1 -> (empty_count g1 < n)%nat ->
     exists ok g2 rng2, rec rng1 g1 = Ret (ok, g2, rng2) /\
       (ok = true -> fills g1 g2) /\
       (ok = false -> g2 = g1 /\ forall h, ~ fills g1 h)) ->
  forall (g : grid), shape9 g -> in_grid r c -> cell g r c = 0 ->
  (empty_count g <= n)%nat ->
  forall (nums : list Z) (rng : R),
  Forall (fun num => 1 <= num <= 9) nums ->
  exists ok g' rng',
    SudokuPuzzleGenerator.try_numbers rec r c nums rng g
      = Ret (ok, g', rng') /\
    (ok = true -> fills g g') /\
    (ok = false -> g' = g /\ forall h, fills g h -> cell h r c ∉ nums).
Proof.
  intros Hrec g Hg Hin Hz Hn nums.
  induction nums as [|num nums IH]; intros rng Hnums.
  { exists false, g, rng. split; [done|]. split; [done|]. intros _.
    split; [done|]. intros h _ H. by apply elem_of_nil in H. }
  apply Forall_cons in Hnums as [Hnum Hnums].
  cbn [SudokuPuzzleGenerator.try_numbers]. rewrite generator_is_valid.
  destruct (is_valid_placement_shape9 g r c num Hg Hin) as (b & -> & Hb).
  rewrite bind_ret. destruct b.
  - assert (~ held_in_units g r c num) as Hfree by by apply Hb.
    rewrite set_cell_shape9, bind_ret by done.
    destruct (grid_update_fill g r c num Hg Hin Hz) as [Hcnt Hback]; [lia|].
    destruct (Hrec rng (grid_update g r c num))
      as (ok1 & g2 & rng2 & -> & Ht & Hf); [by apply shape9_update|lia|].
    rewrite bind_ret. destruct ok1.
    + exists true, g2, rng2. split; [done|]. split; [|done]. intros _.
      apply (fills_step g g2 r c num); auto.
    + destruct (Hf eq_refl) as [-> Hnone].
      rewrite set_cell_shape9, bind_ret by (done || by apply shape9_update).
      rewrite Hback. destruct (IH rng2 Hnums) as (ok & g' & rng' & -> & Ht' & Hf').
      exists ok, g', rng'. split; [done|]. split; [done|]. intros ->.
      destruct (Hf' eq_refl) as [-> Hnot]. split; [done|].
      intros h Hh. apply not_elem_of_cons. split; [|by apply Hnot].
      intros Heq. apply (Hnone h). rewrite <- Heq.
      by apply fills_restrict.
  - destruct (IH rng Hnums) as (ok & g' & rng' & -> & Ht' & Hf').
    exists ok, g', rng'. split; [done|]. split; [done|]. intros ->.
    destruct (Hf' eq_refl) as [-> Hnot]. split; [done|].
    intros h Hh. apply not_elem_of_cons. split; [|by apply Hnot].
    intros Heq. pose proof (fills_not_held g h r c Hin Hz Hh) as Hnh.
    rewrite Heq in Hnh. by apply Hb in Hnh.
Qed.

Lemma fill_fills (fuel : nat) :
  shuffle_permutes R ->
  forall (rng : R) (g : grid), shape9 g -> (empty_count g < fuel)%nat ->
  exists ok g' rng',
    SudokuPuzzleGenerator.fill fuel rng g = Ret (ok, g', rng') /\
    (ok = true -> fills g g') /\
    (ok = false -> g' = g /\ forall h, ~ fills g h).
Proof.
  intros Hperm. induction fuel as [|fuel IH]; intros rng g Hg Hfuel; [lia|].
  cbn [SudokuPuzzleGenerator.fill]. rewrite generator_find_empty_cell.
  destruct (find_empty_cell_shape9 g Hg) as (o & -> & Ho).
  rewrite bind_ret. destruct o as [[r c]|].
  - destruct Ho as [Hin Hz]. pose proof (Hperm (py_range 1 10) rng) as Hp.
    destruct (shuffle (py_range 1 10) rng) as [numbers rng1].
    cbn [fst] in Hp.
    destruct (generator_try_numbers_fills (SudokuPuzzleGenerator.fill fuel)
                fuel r c IH g Hg Hin Hz ltac:(lia) numbers rng1)
      as (ok & g' & rng' & -> & Ht & Hf).
    { apply Forall_forall. intros x Hx. rewrite Hp in Hx.
      apply elem_of_py_range in Hx. lia. }
    exists ok, g', rng'. split; [done|]. split; [done|]. intros ->.
    destruct (Hf eq_refl) as [-> Hnot]. split; [done|]. intros h Hh.
    apply (Hnot h Hh). rewrite Hp. apply elem_of_py_range.
    destruct Hh as (_ & _ & _ & Hcells). destruct (Hcells r c Hin Hz). lia.
  - exists true, g, rng. split; [done|]. split; [|done].
    intros _. by apply fills_complete.
Qed.

Lemma remove_cells_cells (fuel : nat) (target : Z) :
  forall removed rng g g' rng', shape9 g ->
    SudokuPuzzleGenerator.remove_cells fuel target removed rng g
      = Ret (g', rng') ->
    shape9 g' /\
    forall r c, in_grid r c -> cell g' r c = 0 \/ cell g' r c = cell g r c.
Proof.
  induction fuel as [|fuel IH]; intros removed rng g g' rng' Hg H.
  - cbn [SudokuPuzzleGenerator.remove_cells] in H.
    destruct (Z.ltb_spec removed target); [done|].
    injection H as <- _. split; [done|]. by right.
  - cbn [SudokuPuzzleGenerator.remove_cells] in H.
    destruct (Z.ltb_spec removed target);
      [|injection H as <- _; split; [done|by right]].
    destruct (randint 0 8 rng) as [row rng1].
    destruct (randint 0 8 rng1) as [col rng2].
    apply bind_returns in H as (v & Hget & H).
    destruct (Z.eqb_spec v 0) as [->|Hv]; cbn [negb] in H.
    + by apply IH in H.
    + destruct (set_cell_grid_update g row col v Hg Hget)
        as (r0 & c0 & Hin0 & _ & Hset).
      rewrite Hset, bind_ret in H.
      apply IH in H as [Hg' Hcells]; [|by apply shape9_update].
      split; [done|]. intros r c Hin.
      destruct (Hcells r c Hin) as [?|Heq]; [by left|].
      rewrite Heq, cell_update by done. case_decide; [by left|by right].
Qed.

End GeneratorSearch.

Lemma empty_grid_fillable : exists h, fills empty_grid h.
Proof.
  destruct (solve_with_backtracking_shape9 empty_grid empty_grid_shape9)
    as (ok & g' & Hrun & Ht & _).
  assert (exists x, SudokuBoard._solve_with_backtracking empty_grid
                    = Ret (true, x)) as [x Hx]
    by (eexists; vm_compute; reflexivity).
  destruct ok; [|rewrite Hx in Hrun; discriminate Hrun].
  exists g'. by apply Ht.
Qed.

Lemma empty_grid_valid : well_formed empty_grid /\ consistent empty_grid.
Proof. split; by_eval. Qed.

(** X17: with a [random.shuffle] that only rearranges its list,
    [_fill_board_randomly] is a complete search on every 9x9 grid, for every
    state of the random source: it returns, with [True] and a filling of
    the empty cells or with [False] and the grid as it was when no filling
    exists, so it succeeds exactly when [_solve_with_backtracking] does. On
    the empty grid it always succeeds, and the filled grid passes
    [is_valid_complete]. *)
Theorem X17_random_fill_is_a_complete_search (R : Type)
    (src : RandomSource R) (rng : R) (g : grid) :
  shuffle_permutes R -> shape9 g ->
  exists ok g' rng',
    SudokuPuzzleGenerator._fill_board_randomly rng g = Ret (ok, g', rng') /\
    (ok = true -> fills g g') /\
    (ok = false -> g' = g /\ forall h, ~ fills g h) /\
    (exists g2, SudokuBoard._solve_with_backtracking g = Ret (ok, g2)) /\
    (g = empty_grid ->
     ok = true /\
     SudokuBoard.is_valid_complete (board_of g') = Ret true).
Proof.
  intros Hperm Hg. unfold SudokuPuzzleGenerator._fill_board_randomly.
  destruct (fill_fills (S (empty_count g)) Hperm rng g Hg ltac:(lia))
    as (ok & g' & rng' & Hrun & Ht & Hf).
  exists ok, g', rng'. do 3 (split; [done|]). split.
  - destruct (solve_with_backtracking_shape9 g Hg)
      as (ok2 & g2 & Hrun2 & Ht2 & Hf2).
    exists g2. rewrite Hrun2. destruct ok, ok2; try done.
    + destruct (Hf2 eq_refl) as [_ Hnone]. by destruct (Hnone g'), Ht.
    + destruct (Hf eq_refl) as [_ Hnone]. by destruct (Hnone g2), Ht2.
  - intros ->. destruct empty_grid_fillable as [h Hh].
    destruct ok; [|destruct (Hf eq_refl) as [_ Hnone]; by destruct (Hnone h)].
    split; [done|]. destruct empty_grid_valid as [Hwf Hcons].
    destruct (fills_valid_completion empty_grid g' Hwf Hcons (Ht eq_refl))
      as ([Hs _] & Hc & Hcons' & _).
    by apply is_valid_complete_shape9.
Qed.

Lemma X17_random_fill_is_a_complete_search_witness :
  exists g' rng',
    SudokuPuzzleGenerator._fill_board_randomly 2025 empty_grid
      = Ret (true, g', rng') /\
    SudokuBoard.is_valid_complete (board_of g') = Ret true.
Proof.
  destruct (X17_random_fill_is_a_complete_search Z lcg_source 2025
              empty_grid lcg_shuffle_permutes empty_grid_shape9)
    as (ok & g' & rng' & Hrun & _ & _ & _ & Hempty).
  destruct (Hempty eq_refl) as [Hok Hvalid].
  exists g', rng'. split; [|exact Hvalid]. rewrite <- Hok. exact Hrun.
Defined.

(** X18: with a [random.shuffle] that only rearranges its list, every
    board that [generate_puzzle] returns is a proper puzzle: its grid is
    well formed and consistent and is also its initial grid, and the
    constructor has stored a solution, which is a valid completion of the
    grid and passes [is_valid_complete] once it is on the board. *)
Theorem X18_generated_puzzle_is_solvable (R : Type) (src : RandomSource R)
    (fuel : nat) (difficulty : string) (rng rng' : R)
    (puzzle : SudokuBoard.t) :
  shuffle_permutes R ->
  SudokuPuzzleGenerator.generate_puzzle fuel difficulty rng
    = Ret (puzzle, rng') ->
  let g := SudokuBoard.board puzzle in
  well_formed g /\ consistent g /\ SudokuBoard.initial_board puzzle = g /\
  exists s,
    SudokuBoard.solution puzzle = Some s /\ valid_completion g s /\
    SudokuBoard.is_valid_complete (SudokuBoard.with_board puzzle s)
      = Ret true.
Proof.
  intros Hperm H. unfold SudokuPuzzleGenerator.generate_puzzle in H.
  cbv zeta in H.
  apply bind_returns in H as ([[ok g1] rng1] & Hfill & H).
  apply bind_returns in H as ([g2 rng2] & Hremove & H).
  apply bind_returns in H as (b & Hinit & H). injection H as -> _.
  unfold SudokuPuzzleGenerator._fill_board_randomly in Hfill.
  destruct (fill_fills (S (empty_count empty_grid)) Hperm rng empty_grid
              empty_grid_shape9 ltac:(lia))
    as (ok' & g1' & rng1' & Hrun & Ht & Hf).
  rewrite Hfill in Hrun. injection Hrun as <- <- <-.
  destruct empty_grid_fillable as [h Hh].
  destruct ok; [|destruct (Hf eq_refl) as [_ Hnone]; by destruct (Hnone h)].
  destruct empty_grid_valid as [Hwf0 Hcons0].
  destruct (fills_valid_completion empty_grid g1 Hwf0 Hcons0 (Ht eq_refl))
    as (Hwf1 & Hc1 & Hcons1 & _).
  destruct (remove_cells_cells _ _ _ _ _ _ _ (proj1 Hwf1) Hremove)
    as [Hg2 Hcells].
  destruct (cleared_grid_fills g2 g1 Hwf1 Hc1 Hcons1 Hg2 Hcells)
    as (Hfills & Hwf2 & Hcons2).
  destruct (init_solution_found g2 g1 puzzle Hg2 Hfills Hinit)
    as (s & -> & Hs).
  cbn [SudokuBoard.board SudokuBoard.initial_board SudokuBoard.solution].
  do 3 (split; [done|]). exists s. split; [done|].
  pose proof (fills_valid_completion g2 s Hwf2 Hcons2 Hs) as Hvalid.
  split; [done|]. destruct Hvalid as ([Hss _] & Hcs & Hconss & _).
  by apply is_valid_complete_shape9.
Qed.

Lemma X18_generated_puzzle_is_solvable_witness :
  exists puzzle rng',
    SudokuPuzzleGenerator.generate_puzzle 1000 "Easy" 2025
      = Ret (puzzle, rng') /\
    well_formed (SudokuBoard.board puzzle) /\
    consistent (SudokuBoard.board puzzle).
Proof.
  assert (exists puzzle rng',
            SudokuPuzzleGenerator.generate_puzzle 1000 "Easy" 2025
            = Ret (puzzle, rng')) as (puzzle & rng' & Hrun)
    by (eexists _, _; vm_compute; reflexivity).
  exists puzzle, rng'. split; [exact Hrun|].
  destruct (X18_generated_puzzle_is_solvable Z lcg_source 1000 "Easy"
              2025 rng' puzzle lcg_shuffle_permutes Hrun)
    as (Hwf & Hcons & _).
  split; [exact Hwf|exact Hcons].
Defined.

(** ** The game's auto-solve *)

(** X19: for a game whose board the constructor built from a 9x9 grid,
    [solve_puzzle] always stamps the message time. When the grid can be
    filled it puts a filling of the grid on the board, leaves the initial
    grid alone, and sets the won flag and the message; the board is then
    complete, and passes [is_valid_complete] when the grid was well formed
    and consistent. When the grid cannot be filled the board, the won flag
    and the message stay as they were. *)
Theorem X19_solve_puzzle_shows_the_solution (g : grid) (b : SudokuBoard.t)
    (won : bool) (message : string) (message_time ticks : Z) :
  shape9 g -> SudokuBoard.__init__ (Some g) = Ret b ->
  let self' := SudokuGame.solve_puzzle ticks
                 (SudokuGame.mk b won message message_time) in
  SudokuGame.message_time self' = ticks /\
  ((exists h, fills g h) ->
   SudokuGame.won self' = true /\
   SudokuGame.message self' = "Puzzle solved by AI!" /\
   fills g (SudokuBoard.board (SudokuGame.board self')) /\
   SudokuBoard.initial_board (SudokuGame.board self') = g /\
   SudokuBoard.is_complete (SudokuGame.board self') = true /\
   (well_formed g -> consistent g ->
    SudokuBoard.is_valid_complete (SudokuGame.board self') = Ret true)) /\
  ((forall h, ~ fills g h) ->
   SudokuGame.board self' = b /\ SudokuGame.won self' = won /\
   SudokuGame.message self' = message).
Proof.
  intros Hg Hinit self'. subst self'. unfold SudokuGame.solve_puzzle.
  cbn [SudokuGame.board SudokuGame.won SudokuGame.message].
  split; [by destruct (SudokuBoard.solution b) as [[|]|]|]. split.
  - intros [h Hh].
    destruct (init_solution_found g h b Hg Hh Hinit) as (s & -> & Hs).
    cbn [SudokuBoard.solution].
    assert (exists row rows, s = row :: rows) as (row & rows & ->).
    { destruct Hs as ([Hlen _] & _). destruct s; [done|by eexists _, _]. }
    cbn [SudokuGame.board SudokuGame.won SudokuGame.message
         SudokuBoard.with_board SudokuBoard.board SudokuBoard.initial_board].
    do 4 (split; [done|]).
    pose proof Hs as (Hss & Hcs & _). split.
    + apply is_complete_empty_count. by apply complete_empty_count.
    + intros Hwf Hcons.
      destruct (fills_valid_completion g _ Hwf Hcons Hs)
        as (_ & _ & Hconss & _).
      by apply is_valid_complete_shape9.
  - intros Hnone. destruct (SudokuBoard.solution b) as [s|] eqn:Hsol; [|done].
    pose proof (init_solution_extends g b s Hg Hinit Hsol) as Hs.
    apply init_fields in Hinit as [_ Hi]. rewrite Hi in Hs.
    by destruct (Hnone s).
Qed.

Lemma X19_solve_puzzle_shows_the_solution_witness :
  exists b,
    SudokuBoard.__init__ (Some first_row_but_one) = Ret b /\
    SudokuGame.won (SudokuGame.solve_puzzle 7 (SudokuGame.mk b false "" 0))
      = true.
Proof.
  assert (shape9 first_row_but_one) as Hg by by_eval.
  destruct (init_shape9 first_row_but_one Hg) as [b Hb].
  exists b. split; [exact Hb|].
  destruct (X19_solve_puzzle_shows_the_solution first_row_but_one b false
              "" 0 7 Hg Hb) as (_ & Hsolved & _).
  apply Hsolved.
  destruct (solve_with_backtracking_shape9 first_row_but_one Hg)
    as (ok & g' & Hrun & Ht & _).
  assert (exists x, SudokuBoard._solve_with_backtracking first_row_but_one
                    = Ret (true, x)) as [x Hx]
    by (eexists; vm_compute; reflexivity).
  destruct ok; [|rewrite Hx in Hrun; discriminate Hrun].
  exists g'. apply Ht. reflexivity.
Defined.

(** ** The win test of the key handler *)

Lemma place_number_keeps_consistent (self self' : SudokuBoard.t)
    (row col v : Z) (ok : bool) :
  shape9 (SudokuBoard.board self) -> in_grid row col ->
  consistent (SudokuBoard.board self) ->
  SudokuBoard.place_number row col v self = Ret (ok, self') ->
  shape9 (SudokuBoard.board self') /\ consistent (SudokuBoard.board self').
Proof.
  intros Hg Hin Hcons Hrun. destruct (decide (v = 0)) as [->|Hv].
  - rewrite place_number_zero in Hrun by done. injection Hrun as _ <-.
    cbn [SudokuBoard.with_board SudokuBoard.board].
    split; [by apply shape9_update|]. apply consistent_pairwise.
    apply consistent_pairwise in Hcons. apply pairwise_update; auto.
  - destruct (place_number_nonzero self row col v Hg Hin Hv)
      as (ok' & Hrun' & Hok).
    rewrite Hrun' in Hrun. injection Hrun as -> <-.
    destruct ok; [|done].
    cbn [SudokuBoard.with_board SudokuBoard.board].
    split; [by apply shape9_update|]. apply consistent_pairwise.
    apply consistent_pairwise in Hcons. apply pairwise_update; [done..|].
    right. by apply Hok.
Qed.

(** X20: on a 9x9 board with no repeated digit in a unit, after any call
    of [place_number] at a cell of the grid, accepted or refused, a digit
    or a clearing, [is_valid_complete] returns what [is_complete] returns:
    a board that play has filled is a solved board, so the win test of the
    key handler, [is_complete() and is_valid_complete()], succeeds as soon
    as the last cell is filled. *)
Theorem X20_full_board_after_a_move_is_solved (self self' : SudokuBoard.t)
    (row col v : Z) (ok : bool) :
  shape9 (SudokuBoard.board self) -> in_grid row col ->
  consistent (SudokuBoard.board self) ->
  SudokuBoard.place_number row col v self = Ret (ok, self') ->
  SudokuBoard.is_valid_complete self'
    = Ret (SudokuBoard.is_complete self').
Proof.
  intros Hg Hin Hcons Hrun.
  destruct (place_number_keeps_consistent self self' row col v ok
              Hg Hin Hcons Hrun) as [Hg' Hcons'].
  destruct (is_valid_complete_spec self' Hg') as (b & -> & Hb). f_equal.
  destruct (SudokuBoard.is_complete self') eqn:Hc.
  - apply Hb. split; [|done]. by apply is_complete_cells.
  - destruct b; [|done]. destruct (proj1 Hb eq_refl) as [Hcomp _].
    apply (complete_empty_count _ Hg'), is_complete_empty_count in Hcomp.
    congruence.
Qed.

Lemma X20_full_board_after_a_move_is_solved_witness :
  SudokuBoard.is_valid_complete
    (SudokuBoard.with_board (board_of corner_five)
       (grid_update corner_five 0 1 3))
  = Ret (SudokuBoard.is_complete
           (SudokuBoard.with_board (board_of corner_five)
              (grid_update corner_five 0 1 3))).
Proof.
  apply (X20_full_board_after_a_move_is_solved (board_of corner_five) _
           0 1 3 true).
  - by_eval.
  - by_eval.
  - by_eval.
  - reflexivity.
Defined.

(** ** The removal loop needs fresh draws *)

Lemma difficulty_budget (difficulty : string) :
  30 <= default 40 (SudokuPuzzleGenerator.difficulty_map !! difficulty) <= 60.
Proof.
  unfold SudokuPuzzleGenerator.difficulty_map.
  destruct (decide (difficulty = "Easy")) as [->|H1]; [by vm_compute|].
  rewrite lookup_insert_ne by done.
  destruct (decide (difficulty = "Medium")) as [->|H2]; [by vm_compute|].
  rewrite lookup_insert_ne by done.
  destruct (decide (difficulty = "Hard")) as [->|H3]; [by vm_compute|].
  rewrite lookup_insert_ne by done.
  destruct (decide (difficulty = "Expert")) as [->|H4]; [by vm_compute|].
  rewrite lookup_insert_ne by done. rewrite lookup_empty. cbn [default]. lia.
Qed.

Section OneCell.
Context {R : Type} `{!RandomSource R}.
Variable k : Z.
Hypothesis Hconst : forall (lo hi : Z) (rng : R), (randint lo hi rng).1 = k.

Lemma remove_cells_same_cell (target : Z) (g : grid) :
  get_cell g k k = Ret 0 ->
  forall fuel removed rng res, removed < target ->
    SudokuPuzzleGenerator.remove_cells fuel target removed rng g <> Ret res.
Proof.
  intros Hzero. induction fuel as [|fuel IH]; intros removed rng res Hlt H.
  - cbn [SudokuPuzzleGenerator.remove_cells] in H.
    destruct (Z.ltb_spec removed target); [done|lia].
  - cbn [SudokuPuzzleGenerator.remove_cells] in H.
    destruct (Z.ltb_spec removed target); [|lia].
    pose proof (Hconst 0 8 rng) as Hrow.
    destruct (randint 0 8 rng) as [row rng1]. cbn [fst] in Hrow. subst row.
    pose proof (Hconst 0 8 rng1) as Hcol.
    destruct (randint 0 8 rng1) as [col rng2]. cbn [fst] in Hcol. subst col.
    rewrite Hzero, bind_ret in H. cbn [Z.eqb negb] in H.
    by apply IH in H.
Qed.

Lemma remove_cells_one_cell (target : Z) :
  1 < target ->
  forall fuel rng g res,
    SudokuPuzzleGenerator.remove_cells fuel target 0 rng g <> Ret res.
Proof.
  intros Htarget fuel rng g res H. destruct fuel as [|fuel].
  - cbn [SudokuPuzzleGenerator.remove_cells] in H.
    destruct (Z.ltb_spec 0 target); [done|lia].
  - cbn [SudokuPuzzleGenerator.remove_cells] in H.
    destruct (Z.ltb_spec 0 target); [|lia].
    pose proof (Hconst 0 8 rng) as Hrow.
    destruct (randint 0 8 rng) as [row rng1]. cbn [fst] in Hrow. subst row.
    pose proof (Hconst 0 8 rng1) as Hcol.
    destruct (randint 0 8 rng1) as [col rng2]. cbn [fst] in Hcol. subst col.
    apply bind_returns in H as (v & Hget & H).
    destruct (Z.eqb_spec v 0) as [->|Hv]; cbn [negb] in H.
    + by apply (remove_cells_same_cell target g Hget) in H; [|lia].
    + destruct (set_cell_get_cell g k k v 0 Hget)
        as (g1 & Hset & Hget1 & _).
      rewrite Hset, bind_ret in H.
      by apply (remove_cells_same_cell target g1 Hget1) in H; [|lia].
Qed.

End OneCell.

(** X21: the removal loop of [generate_puzzle] has no bound of its own and
    counts only draws that hit a filled cell: with a random source whose
    [randint] always draws the same number the loop clears at most one
    cell, so [generate_puzzle] never returns a board, whatever the label
    and however many draws it is allowed. *)
Theorem X21_generate_puzzle_needs_fresh_draws (R : Type)
    (src : RandomSource R) (k : Z) (fuel : nat) (difficulty : string)
    (rng : R) (res : SudokuBoard.t * R) :
  (forall (lo hi : Z) (rng0 : R), (randint lo hi rng0).1 = k) ->
  SudokuPuzzleGenerator.generate_puzzle fuel difficulty rng <> Ret res.
Proof.
  intros Hconst H. unfold SudokuPuzzleGenerator.generate_puzzle in H.
  cbv zeta in H.
  apply bind_returns in H as ([[ok g1] rng1] & _ & H).
  apply bind_returns in H as ([g2 rng2] & Hremove & _).
  apply (remove_cells_one_cell k Hconst) in Hremove; [done|].
  pose proof (difficulty_budget difficulty). lia.
Qed.

Lemma X21_generate_puzzle_needs_fresh_draws_witness :
  ~ exists res,
      SudokuPuzzleGenerator.generate_puzzle (RandomSource0 := one_cell_source)
        1000 "Easy" tt = Ret res.
Proof.
  intros [res H].
  apply (X21_generate_puzzle_needs_fresh_draws unit one_cell_source 0
           1000 "Easy" tt res); [|exact H].
  intros lo hi rng0. reflexivity.
Defined.
